(** * Knowledge Chat Assistant: the state machine of [src/app/page.tsx]

    A shallow embedding of the page component's handlers (conversation and
    document stores, request assembly, response extraction, persistence in
    [localStorage]) and of the runtime functions they call, followed by the
    properties of the specification.

    Conventions.
    - A JavaScript string is its sequence of UTF-16 code units ([jsstring]).
    - React state is an explicit record ([State]); a handler is a function
      from the state (and what it reads from the environment: the clock, the
      outcome of [fetch]) to the next state.
    - Conversation objects live in an object store addressed by references,
      because [handleSendMessage] updates a title in place through a shallow
      copy of the array.
    - [handleSendMessage] is two functions, before and after its [await].
      [step] runs them as one turn; [page_step] has them as the separate
      actions [Submit] and [Settle], with clicks in between, the second one
      working on the variables of the render of the first.
    - [None] is a thrown exception or, where a definition says so, a value
      that the declared TypeScript type excludes. *)

From Stdlib Require Import NArith ZArith List Bool String Ascii Lia.
From Stdlib Require Decimal DecimalFacts DecimalN.
Import ListNotations.
Local Open Scope N_scope.

(** ** Strings as UTF-16 code units *)

Module JsString.

Abbreviation code_unit := N.
Abbreviation jsstring := (list N).

(** A source literal, character by character. *)
Definition js (s : string) : jsstring :=
  List.map N_of_ascii (list_ascii_of_string s).

(** [a === b] on strings. *)
Fixpoint eqb (a b : jsstring) : bool :=
  match a, b with
  | [], [] => true
  | x :: a', y :: b' => (x =? y) && eqb a' b'
  | _, _ => false
  end.

(** WhiteSpace and LineTerminator code points, the ones
    [String.prototype.trim] strips. *)
Definition is_whitespace (c : code_unit) : bool :=
  (c =? 9) || (c =? 10) || (c =? 11) || (c =? 12) || (c =? 13) || (c =? 32)
  || (c =? 160) || (c =? 5760) || ((8192 <=? c) && (c <=? 8202))
  || (c =? 8232) || (c =? 8233) || (c =? 8239) || (c =? 8287)
  || (c =? 12288) || (c =? 65279).

Fixpoint trim_start (s : jsstring) : jsstring :=
  match s with
  | c :: s' => if is_whitespace c then trim_start s' else s
  | [] => []
  end.

Definition trim_end (s : jsstring) : jsstring := rev (trim_start (rev s)).

(** [s.trim()] *)
Definition trim (s : jsstring) : jsstring := trim_end (trim_start s).

(** ToBoolean on a string: the empty string is the only falsy one. *)
Definition truthy (s : jsstring) : bool :=
  match s with [] => false | _ :: _ => true end.

(** [s.substring(0, n)] for [0 <= n]. *)
Definition substring0 (n : nat) (s : jsstring) : jsstring := firstn n s.

(** [parts.join(sep)] on an array of strings. *)
Fixpoint join (sep : jsstring) (parts : list jsstring) : jsstring :=
  match parts with
  | [] => []
  | [p] => p
  | p :: ps => p ++ sep ++ join sep ps
  end.

Definition digit_unit (d : N) : code_unit := 48 + d.

Fixpoint uint_units (d : Decimal.uint) : jsstring :=
  match d with
  | Decimal.Nil => []
  | Decimal.D0 d => digit_unit 0 :: uint_units d
  | Decimal.D1 d => digit_unit 1 :: uint_units d
  | Decimal.D2 d => digit_unit 2 :: uint_units d
  | Decimal.D3 d => digit_unit 3 :: uint_units d
  | Decimal.D4 d => digit_unit 4 :: uint_units d
  | Decimal.D5 d => digit_unit 5 :: uint_units d
  | Decimal.D6 d => digit_unit 6 :: uint_units d
  | Decimal.D7 d => digit_unit 7 :: uint_units d
  | Decimal.D8 d => digit_unit 8 :: uint_units d
  | Decimal.D9 d => digit_unit 9 :: uint_units d
  end.

(** [n.toString()] for a non-negative integer below 10^21: its decimal
    digits, no leading zero. *)
Definition N_toString (n : N) : jsstring := uint_units (N.to_uint n).

Definition is_digit (c : code_unit) : bool := (48 <=? c) && (c <=? 57).

(** [s.padStart(2, '0')] *)
Definition padStart2 (s : jsstring) : jsstring :=
  match s with
  | [] => js "00"
  | [c] => [digit_unit 0; c]
  | _ => s
  end.

Definition is_high_surrogate (c : code_unit) : bool := (55296 <=? c) && (c <=? 56319).
Definition is_low_surrogate (c : code_unit) : bool := (56320 <=? c) && (c <=? 57343).

(** Number of bytes of the UTF-8 encoding of a string, as [Blob] encodes
    it: a surrogate pair is one code point of four bytes, a lone surrogate
    is replaced by U+FFFD (three bytes). *)
Fixpoint utf8_length (s : jsstring) : N :=
  match s with
  | [] => 0
  | c :: s' =>
      if c <? 128 then 1 + utf8_length s'
      else if c <? 2048 then 2 + utf8_length s'
      else if is_high_surrogate c then
        match s' with
        | d :: s'' => if is_low_surrogate d then 4 + utf8_length s''
                      else 3 + utf8_length s'
        | [] => 3
        end
      else 3 + utf8_length s'
  end.

End JsString.
Import JsString.

(** ** JSON values, [JSON.stringify] and [JSON.parse]

    Numbers are modelled on the integers: the only numbers the program
    stores are byte counts.  A literal with a fraction or an exponent is
    outside the model and [JSON_parse] gives [None] on it, as it does on a
    text that makes [JSON.parse] throw. *)

Module Json.

Unset Elimination Schemes.
Inductive json : Type :=
| JNull
| JBool (b : bool)
| JNum (z : Z)
| JStr (s : jsstring)
| JArr (elements : list json)
| JObj (members : list (jsstring * json)).
Set Elimination Schemes.

(** *** Writing *)

Definition hex_digit (n : N) : code_unit := if n <? 10 then 48 + n else 87 + n.

(** UnicodeEscape: a backslash, [u] and four lowercase hexadecimal digits. *)
Definition unicode_escape (c : code_unit) : jsstring :=
  [92; 117; hex_digit (c / 4096 mod 16); hex_digit (c / 256 mod 16);
   hex_digit (c / 16 mod 16); hex_digit (c mod 16)].

(** One code unit that is not half of a surrogate pair. *)
Definition quote_unit (c : code_unit) : jsstring :=
  if c =? 8 then [92; 98]
  else if c =? 9 then [92; 116]
  else if c =? 10 then [92; 110]
  else if c =? 12 then [92; 102]
  else if c =? 13 then [92; 114]
  else if c =? 34 then [92; 34]
  else if c =? 92 then [92; 92]
  else if (c <? 32) || is_high_surrogate c || is_low_surrogate c
       then unicode_escape c
  else [c].

(** The characters of QuoteJSONString between the quotes: the string is
    read by code points, so that a well-formed surrogate pair is copied and
    a lone surrogate is escaped. *)
Fixpoint quote_units (s : jsstring) : jsstring :=
  match s with
  | [] => []
  | c :: s' =>
      if is_high_surrogate c then
        match s' with
        | d :: s'' =>
            if is_low_surrogate d then c :: d :: quote_units s''
            else quote_unit c ++ quote_units s'
        | [] => quote_unit c
        end
      else quote_unit c ++ quote_units s'
  end.

Definition quote (s : jsstring) : jsstring := 34 :: quote_units s ++ [34].

Definition Z_toString (z : Z) : jsstring :=
  if (z <? 0)%Z then 45 :: N_toString (Z.abs_N z) else N_toString (Z.to_N z).

(** [JSON.stringify(v)] without indentation. *)
Fixpoint JSON_stringify (v : json) : jsstring :=
  match v with
  | JNull => js "null"
  | JBool true => js "true"
  | JBool false => js "false"
  | JNum z => Z_toString z
  | JStr s => quote s
  | JArr l => 91 :: join [44] (List.map JSON_stringify l) ++ [93]
  | JObj ms =>
      123 :: join [44] (List.map (fun kv => quote (fst kv) ++ 58 :: JSON_stringify (snd kv)) ms)
          ++ [125]
  end.

(** *** Reading *)

Definition is_json_ws (c : code_unit) : bool :=
  (c =? 32) || (c =? 9) || (c =? 10) || (c =? 13).

Fixpoint skip_ws (s : jsstring) : jsstring :=
  match s with
  | c :: s' => if is_json_ws c then skip_ws s' else s
  | [] => []
  end.

Definition hex_val (c : code_unit) : option N :=
  if is_digit c then Some (c - 48)
  else if (97 <=? c) && (c <=? 102) then Some (c - 87)
  else if (65 <=? c) && (c <=? 70) then Some (c - 55)
  else None.

(** The character a one-letter escape stands for. *)
Definition unescape (e : code_unit) : option code_unit :=
  if e =? 34 then Some 34
  else if e =? 92 then Some 92
  else if e =? 47 then Some 47
  else if e =? 98 then Some 8
  else if e =? 102 then Some 12
  else if e =? 110 then Some 10
  else if e =? 114 then Some 13
  else if e =? 116 then Some 9
  else None.

(** A string after its opening quote, up to and including the closing one. *)
Fixpoint parse_string_body (s : jsstring) : option (jsstring * jsstring) :=
  match s with
  | [] => None
  | c :: s' =>
      if c =? 34 then Some ([], s')
      else if c =? 92 then
        match s' with
        | [] => None
        | e :: s'' =>
            if e =? 117 then
              match s'' with
              | h1 :: h2 :: h3 :: h4 :: s3 =>
                  match hex_val h1, hex_val h2, hex_val h3, hex_val h4 with
                  | Some a, Some b, Some c', Some d =>
                      match parse_string_body s3 with
                      | Some (str, r) => Some (a * 4096 + b * 256 + c' * 16 + d :: str, r)
                      | None => None
                      end
                  | _, _, _, _ => None
                  end
              | _ => None
              end
            else
              match unescape e with
              | Some u =>
                  match parse_string_body s'' with
                  | Some (str, r) => Some (u :: str, r)
                  | None => None
                  end
              | None => None
              end
        end
      else if c <? 32 then None
      else
        match parse_string_body s' with
        | Some (str, r) => Some (c :: str, r)
        | None => None
        end
  end.

Definition cons_digit (c : code_unit) (d : Decimal.uint) : Decimal.uint :=
  match c - 48 with
  | 0 => Decimal.D0 d
  | 1 => Decimal.D1 d
  | 2 => Decimal.D2 d
  | 3 => Decimal.D3 d
  | 4 => Decimal.D4 d
  | 5 => Decimal.D5 d
  | 6 => Decimal.D6 d
  | 7 => Decimal.D7 d
  | 8 => Decimal.D8 d
  | _ => Decimal.D9 d
  end.

(** The longest run of digits at the head of the text. *)
Fixpoint read_uint (s : jsstring) : Decimal.uint * jsstring :=
  match s with
  | c :: s' =>
      if is_digit c then let (d, r) := read_uint s' in (cons_digit c d, r)
      else (Decimal.Nil, s)
  | [] => (Decimal.Nil, [])
  end.

(** An integer of the number grammar: at least one digit, no leading zero,
    not followed by a fraction or an exponent. *)
Definition parse_uint (s : jsstring) : option (N * jsstring) :=
  let (d, r) := read_uint s in
  if Decimal.uint_beq (Decimal.unorm d) d then
    match r with
    | c :: _ => if (c =? 46) || (c =? 101) || (c =? 69) then None
                else Some (N.of_uint d, r)
    | [] => Some (N.of_uint d, r)
    end
  else None.

Definition parse_number (s : jsstring) : option (json * jsstring) :=
  match s with
  | c :: s' =>
      if c =? 45 then
        match parse_uint s' with
        | Some (n, r) => Some (JNum (- Z.of_N n), r)
        | None => None
        end
      else
        match parse_uint s with
        | Some (n, r) => Some (JNum (Z.of_N n), r)
        | None => None
        end
  | [] => None
  end.

Fixpoint strip_prefix (p s : jsstring) : option jsstring :=
  match p, s with
  | [], _ => Some s
  | x :: p', y :: s' => if x =? y then strip_prefix p' s' else None
  | _ :: _, [] => None
  end.

Definition parse_keyword (word : jsstring) (v : json) (s : jsstring)
  : option (json * jsstring) :=
  match strip_prefix word s with
  | Some r => Some (v, r)
  | None => None
  end.

(** One [key : value] member, given the parser of values. *)
Definition parse_member (pv : jsstring -> option (json * jsstring)) (s : jsstring)
  : option ((jsstring * json) * jsstring) :=
  match skip_ws s with
  | c :: r =>
      if c =? 34 then
        match parse_string_body r with
        | Some (k, r1) =>
            match skip_ws r1 with
            | d :: r2 =>
                if d =? 58 then
                  match pv r2 with
                  | Some (v, r3) => Some ((k, v), r3)
                  | None => None
                  end
                else None
            | [] => None
            end
        | None => None
        end
      else None
  | [] => None
  end.

(** A property defined twice keeps its first position and its last value. *)
Fixpoint obj_set (k : jsstring) (v : json) (ms : list (jsstring * json))
  : list (jsstring * json) :=
  match ms with
  | [] => [(k, v)]
  | (k', v') :: ms' =>
      if JsString.eqb k' k then (k', v) :: ms' else (k', v') :: obj_set k v ms'
  end.

Definition build_object (ms : list (jsstring * json)) : json :=
  JObj (fold_left (fun acc kv => obj_set (fst kv) (snd kv) acc) ms []).

(** Recursive descent; every call consumes a character, so the length of
    the text bounds the depth ([JSON_parse] below). *)
Fixpoint parse_value (fuel : nat) (s : jsstring) : option (json * jsstring) :=
  match fuel with
  | O => None
  | S fuel' =>
      match skip_ws s with
      | [] => None
      | c :: r =>
          if c =? 34 then
            match parse_string_body r with
            | Some (str, r1) => Some (JStr str, r1)
            | None => None
            end
          else if c =? 91 then
            match skip_ws r with
            | [] => None
            | d :: r' =>
                if d =? 93 then Some (JArr [], r')
                else
                  match parse_value fuel' r with
                  | Some (v, r1) =>
                      match parse_elements fuel' r1 with
                      | Some (vs, r2) => Some (JArr (v :: vs), r2)
                      | None => None
                      end
                  | None => None
                  end
            end
          else if c =? 123 then
            match skip_ws r with
            | [] => None
            | d :: r' =>
                if d =? 125 then Some (JObj [], r')
                else
                  match parse_member (parse_value fuel') r with
                  | Some (m, r1) =>
                      match parse_members fuel' r1 with
                      | Some (ms, r2) => Some (build_object (m :: ms), r2)
                      | None => None
                      end
                  | None => None
                  end
            end
          else if c =? 116 then parse_keyword (js "rue") (JBool true) r
          else if c =? 102 then parse_keyword (js "alse") (JBool false) r
          else if c =? 110 then parse_keyword (js "ull") JNull r
          else parse_number (c :: r)
      end
  end

with parse_elements (fuel : nat) (s : jsstring) : option (list json * jsstring) :=
  match fuel with
  | O => None
  | S fuel' =>
      match skip_ws s with
      | [] => None
      | c :: r =>
          if c =? 93 then Some ([], r)
          else if c =? 44 then
            match parse_value fuel' r with
            | Some (v, r1) =>
                match parse_elements fuel' r1 with
                | Some (vs, r2) => Some (v :: vs, r2)
                | None => None
                end
            | None => None
            end
          else None
      end
  end

with parse_members (fuel : nat) (s : jsstring)
  : option (list (jsstring * json) * jsstring) :=
  match fuel with
  | O => None
  | S fuel' =>
      match skip_ws s with
      | [] => None
      | c :: r =>
          if c =? 125 then Some ([], r)
          else if c =? 44 then
            match parse_member (parse_value fuel') r with
            | Some (m, r1) =>
                match parse_members fuel' r1 with
                | Some (ms, r2) => Some (m :: ms, r2)
                | None => None
                end
            | None => None
            end
          else None
      end
  end.

(** [JSON.parse(text)], on the texts whose numbers are integers written
    without fraction and exponent, as [JSON.stringify] writes the sizes of
    the documents; a text with another number is not read ([None]), where
    [JSON.parse] returns a double. *)
Definition JSON_parse (text : jsstring) : option json :=
  match parse_value (S (List.length text)) text with
  | Some (v, r) => match skip_ws r with [] => Some v | _ :: _ => None end
  | None => None
  end.

(** *** Reading a property

    [None] is [undefined].  The property names the program reads
    ([success], [response], [raw_response], [result], [text]) are defined
    on no prototype, so that a value other than an object has none of
    them. *)

Definition jsval := option json.

Fixpoint lookup (k : jsstring) (ms : list (jsstring * json)) : jsval :=
  match ms with
  | [] => None
  | (k', v) :: ms' => if JsString.eqb k' k then Some v else lookup k ms'
  end.

Definition member (o : json) (k : jsstring) : jsval :=
  match o with
  | JObj ms => lookup k ms
  | _ => None
  end.

(** [v?.k] *)
Definition opt_member (v : jsval) (k : jsstring) : jsval :=
  match v with
  | None | Some JNull => None
  | Some o => member o k
  end.

(** ToBoolean *)
Definition truthy (v : jsval) : bool :=
  match v with
  | None | Some JNull => false
  | Some (JBool b) => b
  | Some (JNum z) => negb (z =? 0)%Z
  | Some (JStr s) => JsString.truthy s
  | Some (JArr _) | Some (JObj _) => true
  end.

(** [a || b] *)
Definition or_else (a b : jsval) : jsval := if truthy a then a else b.

End Json.
Import Json.

(** ** The data model *)

(** What the program observes of a [Date] object: the results of the
    methods it calls on it. *)
Record Date : Type := {
  getHours : N;
  getMinutes : N;
  toLocaleString : jsstring;
  toISOString : jsstring
}.

Module Message.

Inductive Role : Type := user | assistant.

Record t : Type := mk {
  id : jsstring;
  content : jsstring;
  role : Role;
  timestamp : jsstring
}.

Definition role_string (r : Role) : jsstring :=
  match r with
  | user => js "user"
  | assistant => js "assistant"
  end.

Definition role_of_string (s : jsstring) : option Role :=
  if JsString.eqb s (js "user") then Some user
  else if JsString.eqb s (js "assistant") then Some assistant
  else None.

(** The object as [JSON.stringify] sees it, properties in creation order. *)
Definition to_json (m : t) : json :=
  JObj [(js "id", JStr (id m)); (js "content", JStr (content m));
        (js "role", JStr (role_string (role m)));
        (js "timestamp", JStr (timestamp m))].

(** A parsed value read at the declared type; [None] when it does not have
    the declared shape. *)
Definition of_json (v : json) : option t :=
  match member v (js "id"), member v (js "content"),
        member v (js "role"), member v (js "timestamp") with
  | Some (JStr i), Some (JStr c), Some (JStr r), Some (JStr ts) =>
      match role_of_string r with
      | Some r' => Some (mk i c r' ts)
      | None => None
      end
  | _, _, _, _ => None
  end.

End Message.

(** All elements read, or none. *)
Fixpoint traverse {A B : Type} (f : A -> option B) (l : list A) : option (list B) :=
  match l with
  | [] => Some []
  | x :: l' =>
      match f x, traverse f l' with
      | Some y, Some ys => Some (y :: ys)
      | _, _ => None
      end
  end.

Definition array_of_json {B : Type} (f : json -> option B) (v : json) : option (list B) :=
  match v with
  | JArr l => traverse f l
  | _ => None
  end.

Module Conversation.

Record t : Type := mk {
  id : jsstring;
  title : jsstring;
  messages : list Message.t;
  createdAt : jsstring
}.

Definition to_json (c : t) : json :=
  JObj [(js "id", JStr (id c)); (js "title", JStr (title c));
        (js "messages", JArr (List.map Message.to_json (messages c)));
        (js "createdAt", JStr (createdAt c))].

Definition of_json (v : json) : option t :=
  match member v (js "id"), member v (js "title"),
        member v (js "messages"), member v (js "createdAt") with
  | Some (JStr i), Some (JStr ti), Some ms, Some (JStr ca) =>
      match array_of_json Message.of_json ms with
      | Some ms' => Some (mk i ti ms' ca)
      | None => None
      end
  | _, _, _, _ => None
  end.

(** [{ ...c, messages: ms }] *)
Definition with_messages (ms : list Message.t) (c : t) : t :=
  mk (id c) (title c) ms (createdAt c).

(** [c.title = ti] *)
Definition with_title (ti : jsstring) (c : t) : t :=
  mk (id c) ti (messages c) (createdAt c).

End Conversation.

Module KnowledgeDocument.

Record t : Type := mk {
  id : jsstring;
  name : jsstring;
  content : jsstring;
  uploadedAt : jsstring;
  size : N
}.

Definition to_json (d : t) : json :=
  JObj [(js "id", JStr (id d)); (js "name", JStr (name d));
        (js "content", JStr (content d));
        (js "uploadedAt", JStr (uploadedAt d));
        (js "size", JNum (Z.of_N (size d)))].

Definition of_json (v : json) : option t :=
  match member v (js "id"), member v (js "name"), member v (js "content"),
        member v (js "uploadedAt"), member v (js "size") with
  | Some (JStr i), Some (JStr n), Some (JStr c), Some (JStr u), Some (JNum z) =>
      if (z <? 0)%Z then None else Some (mk i n c u (Z.to_N z))
  | _, _, _, _, _ => None
  end.

End KnowledgeDocument.

(** The two collections in the store's textual format. *)
Definition serialize_conversations (cs : list Conversation.t) : jsstring :=
  JSON_stringify (JArr (List.map Conversation.to_json cs)).

Definition deserialize_conversations (text : jsstring) : option (list Conversation.t) :=
  match JSON_parse text with
  | Some v => array_of_json Conversation.of_json v
  | None => None
  end.

Definition serialize_documents (ds : list KnowledgeDocument.t) : jsstring :=
  JSON_stringify (JArr (List.map KnowledgeDocument.to_json ds)).

Definition deserialize_documents (text : jsstring) : option (list KnowledgeDocument.t) :=
  match JSON_parse text with
  | Some v => array_of_json KnowledgeDocument.of_json v
  | None => None
  end.

(** ** [localStorage] *)

Module Storage.

Definition t := list (jsstring * jsstring).

Fixpoint getItem (k : jsstring) (s : t) : option jsstring :=
  match s with
  | [] => None
  | (k', v) :: s' => if JsString.eqb k' k then Some v else getItem k s'
  end.

Fixpoint setItem (k v : jsstring) (s : t) : t :=
  match s with
  | [] => [(k, v)]
  | (k', v') :: s' =>
      if JsString.eqb k' k then (k', v) :: s' else (k', v') :: setItem k v s'
  end.

End Storage.

(** ** The object store of conversations

    A conversation in the [conversations] array is a reference to an
    object.  [handleSendMessage] writes the title of an object it reaches
    through a copy of the array, and afterwards reads the same object
    through the original array. *)

Definition ref := nat.
Definition Heap := list Conversation.t.

Definition blank : Conversation.t := Conversation.mk [] [] [] [].

Definition deref (h : Heap) (r : ref) : Conversation.t := nth r h blank.

(** A fresh object. *)
Definition alloc (c : Conversation.t) (h : Heap) : Heap * ref :=
  (h ++ [c], List.length h).

(** A write through a reference. *)
Fixpoint write (r : ref) (f : Conversation.t -> Conversation.t) (h : Heap) : Heap :=
  match h, r with
  | [], _ => []
  | c :: h', O => f c :: h'
  | c :: h', S r' => c :: write r' f h'
  end.

(** ** The state of the page component

    The [useState] cells the handlers read or write, the object store,
    [localStorage], and for each collection whether it was set since the
    last commit (the dependency of its save effect). *)

Record State : Type := mkState {
  heap : Heap;
  conversations : list ref;
  currentConversationId : option jsstring;
  messages : list Message.t;
  input : jsstring;
  loading : bool;
  knowledgeDocuments : list KnowledgeDocument.t;
  showUploadDialog : bool;
  uploadName : jsstring;
  uploadContent : jsstring;
  localStorage : Storage.t;
  conversationsChanged : bool;
  knowledgeDocumentsChanged : bool
}.

Definition setHeap (h : Heap) (st : State) : State :=
  mkState h (conversations st) (currentConversationId st) (messages st) (input st)
    (loading st) (knowledgeDocuments st) (showUploadDialog st) (uploadName st)
    (uploadContent st) (localStorage st) (conversationsChanged st)
    (knowledgeDocumentsChanged st).

Definition setConversations (cs : list ref) (st : State) : State :=
  mkState (heap st) cs (currentConversationId st) (messages st) (input st)
    (loading st) (knowledgeDocuments st) (showUploadDialog st) (uploadName st)
    (uploadContent st) (localStorage st) true (knowledgeDocumentsChanged st).

Definition setCurrentConversationId (c : option jsstring) (st : State) : State :=
  mkState (heap st) (conversations st) c (messages st) (input st)
    (loading st) (knowledgeDocuments st) (showUploadDialog st) (uploadName st)
    (uploadContent st) (localStorage st) (conversationsChanged st)
    (knowledgeDocumentsChanged st).

Definition setMessages (ms : list Message.t) (st : State) : State :=
  mkState (heap st) (conversations st) (currentConversationId st) ms (input st)
    (loading st) (knowledgeDocuments st) (showUploadDialog st) (uploadName st)
    (uploadContent st) (localStorage st) (conversationsChanged st)
    (knowledgeDocumentsChanged st).

Definition setInput (s : jsstring) (st : State) : State :=
  mkState (heap st) (conversations st) (currentConversationId st) (messages st) s
    (loading st) (knowledgeDocuments st) (showUploadDialog st) (uploadName st)
    (uploadContent st) (localStorage st) (conversationsChanged st)
    (knowledgeDocumentsChanged st).

Definition setLoading (b : bool) (st : State) : State :=
  mkState (heap st) (conversations st) (currentConversationId st) (messages st)
    (input st) b (knowledgeDocuments st) (showUploadDialog st) (uploadName st)
    (uploadContent st) (localStorage st) (conversationsChanged st)
    (knowledgeDocumentsChanged st).

Definition setKnowledgeDocuments (ds : list KnowledgeDocument.t) (st : State) : State :=
  mkState (heap st) (conversations st) (currentConversationId st) (messages st)
    (input st) (loading st) ds (showUploadDialog st) (uploadName st)
    (uploadContent st) (localStorage st) (conversationsChanged st) true.

Definition setShowUploadDialog (b : bool) (st : State) : State :=
  mkState (heap st) (conversations st) (currentConversationId st) (messages st)
    (input st) (loading st) (knowledgeDocuments st) b (uploadName st)
    (uploadContent st) (localStorage st) (conversationsChanged st)
    (knowledgeDocumentsChanged st).

Definition setUploadName (s : jsstring) (st : State) : State :=
  mkState (heap st) (conversations st) (currentConversationId st) (messages st)
    (input st) (loading st) (knowledgeDocuments st) (showUploadDialog st) s
    (uploadContent st) (localStorage st) (conversationsChanged st)
    (knowledgeDocumentsChanged st).

Definition setUploadContent (s : jsstring) (st : State) : State :=
  mkState (heap st) (conversations st) (currentConversationId st) (messages st)
    (input st) (loading st) (knowledgeDocuments st) (showUploadDialog st)
    (uploadName st) s (localStorage st) (conversationsChanged st)
    (knowledgeDocumentsChanged st).

Definition setLocalStorage (ls : Storage.t) (st : State) : State :=
  mkState (heap st) (conversations st) (currentConversationId st) (messages st)
    (input st) (loading st) (knowledgeDocuments st) (showUploadDialog st)
    (uploadName st) (uploadContent st) ls (conversationsChanged st)
    (knowledgeDocumentsChanged st).

Definition clearChanged (st : State) : State :=
  mkState (heap st) (conversations st) (currentConversationId st) (messages st)
    (input st) (loading st) (knowledgeDocuments st) (showUploadDialog st)
    (uploadName st) (uploadContent st) (localStorage st) false false.

(** The conversation collection: the array with its references followed. *)
Definition conversation_list (st : State) : list Conversation.t :=
  List.map (deref (heap st)) (conversations st).

(** [conversations.find((c) => c.id === convId)] *)
Definition find_conversation (convId : jsstring) (h : Heap) (cs : list ref)
  : option Conversation.t :=
  List.find (fun c => JsString.eqb (Conversation.id c) convId) (List.map (deref h) cs).

(** [conversations.findIndex((c) => c.id === convId)]; [None] is [-1]. *)
Fixpoint findIndex (convId : jsstring) (h : Heap) (cs : list ref) : option nat :=
  match cs with
  | [] => None
  | r :: cs' =>
      if JsString.eqb (Conversation.id (deref h r)) convId then Some O
      else option_map S (findIndex convId h cs')
  end.

(** The conversation the next send addresses. *)
Definition active_conversation (st : State) : option Conversation.t :=
  match currentConversationId st with
  | Some cid => find_conversation cid (heap st) (conversations st)
  | None => None
  end.

(** ** Persistence: the two save effects and the commit that runs them *)

Definition key_conversations : jsstring := js "conversations".
Definition key_knowledgeDocuments : jsstring := js "knowledgeDocuments".

(** [useEffect(() => { if (conversations.length > 0) setItem(...) }, [conversations])] *)
Definition saveConversations (st : State) : State :=
  if (0 <? List.length (conversations st))%nat then
    setLocalStorage
      (Storage.setItem key_conversations
         (serialize_conversations (conversation_list st)) (localStorage st)) st
  else st.

(** [useEffect(() => { if (knowledgeDocuments.length > 0) setItem(...) }, [knowledgeDocuments])] *)
Definition saveKnowledgeDocuments (st : State) : State :=
  if (0 <? List.length (knowledgeDocuments st))%nat then
    setLocalStorage
      (Storage.setItem key_knowledgeDocuments
         (serialize_documents (knowledgeDocuments st)) (localStorage st)) st
  else st.

(** After a handler: the effects whose dependency was set are run. *)
Definition commit (st : State) : State :=
  let st1 := if conversationsChanged st then saveConversations st else st in
  let st2 := if knowledgeDocumentsChanged st1 then saveKnowledgeDocuments st1 else st1 in
  clearChanged st2.

(** ** The handlers *)

Definition greeting : jsstring := js "Hi! How can I help you today?".
Definition default_title : jsstring := js "New Conversation".

Definition createNewConversation (now : N) (d1 d2 : Date) (st : State) : State :=
  let newConvId := N_toString now in
  let newConversation :=
    Conversation.mk newConvId default_title
      [Message.mk (js "1") greeting Message.assistant (toLocaleString d1)]
      (toISOString d2) in
  let (h, r) := alloc newConversation (heap st) in
  setInput []
    (setMessages (Conversation.messages newConversation)
       (setCurrentConversationId (Some newConvId)
          (setConversations (r :: conversations st) (setHeap h st)))).

Definition switchConversation (convId : jsstring) (st : State) : State :=
  match find_conversation convId (heap st) (conversations st) with
  | Some conversation =>
      setMessages (Conversation.messages conversation)
        (setCurrentConversationId (Some convId) st)
  | None => st
  end.

Definition formatTimestamp (date : Date) : jsstring :=
  padStart2 (N_toString (getHours date)) ++ js ":"
    ++ padStart2 (N_toString (getMinutes date)).

(** [!s.trim()] *)
Definition blank_text (s : jsstring) : bool := negb (JsString.truthy (trim s)).

Definition handleAddDocument (now : N) (d : Date) (st : State) : State :=
  if blank_text (uploadName st) || blank_text (uploadContent st) then st
  else
    let newDoc :=
      KnowledgeDocument.mk (N_toString now) (uploadName st) (uploadContent st)
        (toISOString d) (utf8_length (uploadContent st)) in
    setShowUploadDialog false
      (setUploadContent []
         (setUploadName []
            (setKnowledgeDocuments (newDoc :: knowledgeDocuments st) st))).

Definition deleteDocument (docId : jsstring) (st : State) : State :=
  setKnowledgeDocuments
    (List.filter (fun doc => negb (JsString.eqb (KnowledgeDocument.id doc) docId))
       (knowledgeDocuments st)) st.

(** ** Sending a message *)

Record Request : Type := mkRequest {
  message : jsstring;
  agent_id : jsstring;
  user_id : jsstring;
  session_id : jsstring
}.

Definition knowledge_header : jsstring :=
  [10; 10] ++ js "Relevant Knowledge Base:" ++ [10].
Definition document_separator : jsstring := [10] ++ js "---" ++ [10].

(** [`Document: ${doc.name}\n${doc.content}`] *)
Definition document_entry (doc : KnowledgeDocument.t) : jsstring :=
  js "Document: " ++ KnowledgeDocument.name doc ++ [10] ++ KnowledgeDocument.content doc.

Definition knowledgeContext (docs : list KnowledgeDocument.t) : jsstring :=
  if (0 <? List.length docs)%nat then
    knowledge_header ++ join document_separator (List.map document_entry docs)
  else [].

Definition buildRequest (text : jsstring) (docs : list KnowledgeDocument.t)
    (conversationId : jsstring) : Request :=
  mkRequest (text ++ knowledgeContext docs)
    (js "693bfaa59188cfbc911c685e")
    (js "user-chat-" ++ conversationId)
    (js "session-" ++ conversationId).

(** What awaiting [fetch] and [response.json()] gives: an exception
    (network failure, body that is not JSON) or the parsed body. *)
Inductive Reply : Type :=
| Rejected
| Body (data : json).

Definition processing_error_text : jsstring :=
  js "I encountered an error processing your request. Please try again.".
Definition no_response_text : jsstring := js "No response generated".
Definition apology_text : jsstring :=
  js "Sorry, I encountered an error. Please try again.".

(** The value assigned to [assistantContent]; [None] when reading a
    property of [data] throws ([data] is [null]). *)
Definition extractAssistantContent (data : json) : option jsval :=
  match data with
  | JNull => None
  | _ =>
      let response := member data (js "response") in
      let raw_response := member data (js "raw_response") in
      if truthy (member data (js "success")) && truthy response then
        Some
          (or_else (opt_member response (js "result"))
             (or_else (opt_member response (js "response"))
                (or_else (opt_member response (js "text"))
                   (or_else
                      (match response with
                       | Some (JStr s) => Some (JStr s)
                       | _ => Some JNull
                       end)
                      (or_else raw_response (Some (JStr no_response_text)))))))
      else if truthy raw_response then Some raw_response
      else Some (Some (JStr processing_error_text))
  end.

(** [!currentConversationId] is false: a string, and not the empty one. *)
Definition current_id (st : State) : option jsstring :=
  match currentConversationId st with
  | Some (c :: s) => Some (c :: s)
  | _ => None
  end.

(** What the continuation after [await] holds on to: the variables of the
    render in which the handler was created. *)
Record Pending : Type := mkPending {
  p_conversations : list ref;
  p_updatedMessages : list Message.t;
  p_currentConversationId : jsstring;
  p_request : Request
}.

(** The title of a conversation still at its first message: the object is
    written in place; the array given to [setConversations] is a copy that
    holds the same references. *)
Definition updateTitle (cid text : jsstring) (st : State) : State :=
  match findIndex cid (heap st) (conversations st) with
  | Some conversationIndex =>
      match nth_error (conversations st) conversationIndex with
      | Some r =>
          if (List.length (Conversation.messages (deref (heap st) r)) =? 1)%nat then
            let newTitle := substring0 50 text in
            setConversations (conversations st)
              (setHeap (write r (Conversation.with_title newTitle) (heap st)) st)
          else st
      | None => st
      end
  | None => st
  end.

(** [handleSendMessage] up to the [await]; [None] when the guard returns.
    ([conversationHistory] is computed and never used.) *)
Definition sendBegin (now : N) (d : Date) (st : State) : option (State * Pending) :=
  match current_id st with
  | Some cid =>
      if blank_text (input st) || loading st then None
      else
        let userMessage :=
          Message.mk (N_toString now) (input st) Message.user (formatTimestamp d) in
        let updatedMessages := messages st ++ [userMessage] in
        let st1 := setLoading true (setInput [] (setMessages updatedMessages st)) in
        let st2 := updateTitle cid (input st) st1 in
        Some (st2,
              mkPending (conversations st) updatedMessages cid
                (buildRequest (input st) (knowledgeDocuments st) cid))
  | None => None
  end.

(** [conversations.map((conv) => conv.id === id ? { ...conv, messages } : conv)]:
    every match is a fresh object. *)
Fixpoint replaceMessages (cid : jsstring) (ms : list Message.t) (h : Heap)
    (cs : list ref) : Heap * list ref :=
  match cs with
  | [] => (h, [])
  | r :: cs' =>
      let conv := deref h r in
      if JsString.eqb (Conversation.id conv) cid then
        let (h1, r1) := alloc (Conversation.with_messages ms conv) h in
        let (h2, cs2) := replaceMessages cid ms h1 cs' in
        (h2, r1 :: cs2)
      else
        let (h2, cs2) := replaceMessages cid ms h cs' in
        (h2, r :: cs2)
  end.

(** The end of both the [try] and the [catch] block, and [finally]. *)
Definition appendAssistant (p : Pending) (text : jsstring) (now : N) (d : Date)
    (st : State) : State :=
  let assistantMessage :=
    Message.mk (N_toString (now + 1)) text Message.assistant (formatTimestamp d) in
  let finalMessages := p_updatedMessages p ++ [assistantMessage] in
  let (h, cs) :=
    replaceMessages (p_currentConversationId p) finalMessages (heap st)
      (p_conversations p) in
  setLoading false (setConversations cs (setHeap h (setMessages finalMessages st))).

(** [handleSendMessage] from the [await] on.  [None]: the extracted content
    is not a string.  The handler appends the message all the same, with a
    content that the declared type of a message excludes; such a reply is
    outside the states modelled here, and [assistant_content] below gives
    the content for every reply. *)
Definition sendFinish (p : Pending) (reply : Reply) (now : N) (d : Date)
    (st : State) : option State :=
  match reply with
  | Rejected => Some (appendAssistant p apology_text now d st)
  | Body data =>
      match extractAssistantContent data with
      | None => Some (appendAssistant p apology_text now d st)
      | Some (Some (JStr text)) => Some (appendAssistant p text now d st)
      | Some _ => None
      end
  end.

(** One whole turn, nothing else happening while the request is pending:
    the first part, the render it causes, the second part.  The page does
    take clicks while a request is pending; [Page] and [page_step] below
    have the two parts as separate actions. *)
Definition handleSendMessage (now1 : N) (d1 : Date) (reply : Reply) (now2 : N)
    (d2 : Date) (st : State) : option State :=
  match sendBegin now1 d1 st with
  | Some (st1, p) => sendFinish p reply now2 d2 (commit st1)
  | None => Some st
  end.

(** ** Rendering a byte count

    [bytes] is a non-negative integer (the size of a [Blob]).  The index
    [Math.floor(Math.log(bytes) / Math.log(k))] is taken as the exact
    integer logarithm in base 1024.  Below 1024^4 the quotient of the two
    double precision logarithms has that integer part; from there on it
    can be one more just below a power of 1024 (5 instead of 4 at
    2^50 - 1), an index of 3 or more in both cases.  [Math.round(x * 100)
    / 100] is taken as the number of hundredths nearest to [x], halves
    upwards, printed with its trailing zeros dropped; below 2^46 bytes
    these operations are exact in double precision. *)

Definition sizes : list jsstring := [js "Bytes"; js "KB"; js "MB"].

Definition unit_index (bytes : N) : nat := N.to_nat (N.log2 bytes / 10).

(** [Math.round((bytes / Math.pow(k, i)) * 100)] *)
Definition hundredths (bytes : N) (i : nat) : N :=
  let p := 1024 ^ N.of_nat i in
  (bytes * 200 + p) / (2 * p).

(** [(h / 100).toString()] *)
Definition hundredths_toString (h : N) : jsstring :=
  let whole := N_toString (h / 100) in
  let frac := h mod 100 in
  if frac =? 0 then whole
  else if frac mod 10 =? 0 then whole ++ [46; digit_unit (frac / 10)]
  else whole ++ [46; digit_unit (frac / 10); digit_unit (frac mod 10)].

(** [sizes[i]] in a string concatenation. *)
Definition unit_label (i : nat) : jsstring :=
  match nth_error sizes i with
  | Some u => u
  | None => js "undefined"
  end.

Definition formatFileSize (bytes : N) : jsstring :=
  if bytes =? 0 then js "0 Bytes"
  else
    let i := unit_index bytes in
    hundredths_toString (hundredths bytes i) ++ js " " ++ unit_label i.

(** ** Startup: the load effect *)

Definition initialState (ls : Storage.t) : State :=
  mkState [] [] None [] [] false [] false [] [] ls false false.

(** The objects of a parsed array, each one fresh. *)
Definition alloc_all (cs : list Conversation.t) (h : Heap) : Heap * list ref :=
  (h ++ cs, seq (List.length h) (List.length cs)).

Definition loadConversations (st : State) : option State :=
  match Storage.getItem key_conversations (localStorage st) with
  | Some (c :: s) =>
      match deserialize_conversations (c :: s) with
      | Some parsed =>
          let (h, cs) := alloc_all parsed (heap st) in
          let st1 := setConversations cs (setHeap h st) in
          match parsed with
          | first :: _ =>
              Some (setMessages (Conversation.messages first)
                      (setCurrentConversationId (Some (Conversation.id first)) st1))
          | [] => Some st1
          end
      | None => None
      end
  | _ => Some st
  end.

Definition loadKnowledgeDocuments (st : State) : option State :=
  match Storage.getItem key_knowledgeDocuments (localStorage st) with
  | Some (c :: s) =>
      match deserialize_documents (c :: s) with
      | Some parsed => Some (setKnowledgeDocuments parsed st)
      | None => None
      end
  | _ => Some st
  end.

(** The state after the first render on a given [localStorage]; [None]
    when a stored text does not parse to the declared type. *)
Definition mount (ls : Storage.t) : option State :=
  match loadConversations (initialState ls) with
  | Some st1 =>
      match loadKnowledgeDocuments st1 with
      | Some st2 => Some (commit st2)
      | None => None
      end
  | None => None
  end.

(** ** Events *)

Inductive Event : Type :=
| NewChat (now : N) (d1 d2 : Date)
| SwitchTo (convId : jsstring)
| TypeInput (text : jsstring)
| StageUpload (name content : jsstring)
| SubmitUpload (now : N) (d : Date)
| DeleteDoc (docId : jsstring)
| Send (now1 : N) (d1 : Date) (reply : Reply) (now2 : N) (d2 : Date).

Definition step (e : Event) (st : State) : option State :=
  match e with
  | NewChat now d1 d2 => Some (commit (createNewConversation now d1 d2 st))
  | SwitchTo convId => Some (commit (switchConversation convId st))
  | TypeInput text => Some (commit (setInput text st))
  | StageUpload n c => Some (commit (setUploadContent c (setUploadName n st)))
  | SubmitUpload now d => Some (commit (handleAddDocument now d st))
  | DeleteDoc docId => Some (commit (deleteDocument docId st))
  | Send now1 d1 reply now2 d2 =>
      option_map commit (handleSendMessage now1 d1 reply now2 d2 st)
  end.

Fixpoint run (es : list Event) (st : State) : option State :=
  match es with
  | [] => Some st
  | e :: es' =>
      match step e st with
      | Some st' => run es' st'
      | None => None
      end
  end.

(** [addDocument(name, content)] of the specification: the form is filled
    and submitted. *)
Definition addDocument (name content : jsstring) (now : N) (d : Date) (st : State)
  : State :=
  handleAddDocument now d (setUploadContent content (setUploadName name st)).

(** ** Reachable states and what holds in them

    [reachable] has the states the page is in between two events when
    nothing is clicked while a request is pending: every turn is one
    step.  The states reached with clicks during a request are those of
    [page_reachable] below; they include these. *)

Inductive reachable : State -> Prop :=
| reach_mount ls st :
    mount ls = Some st -> reachable st
| reach_step e st st' :
    reachable st -> step e st = Some st' -> reachable st'.

(** Every reference of the array is an object of the store, and no object
    is in the array twice. *)
Definition refs_in (h : Heap) (cs : list ref) : Prop :=
  NoDup cs /\ Forall (fun r => (r < List.length h)%nat) cs.

Definition refs_valid (st : State) : Prop :=
  refs_in (heap st) (conversations st).

(** The visible thread is the message list of the active conversation. *)
Definition thread_consistent (st : State) : Prop :=
  match currentConversationId st with
  | Some cid =>
      exists c, find_conversation cid (heap st) (conversations st) = Some c
                /\ messages st = Conversation.messages c
  | None => True
  end.

(** Between two events no request is pending and the effects have run. *)
Definition settled (st : State) : Prop :=
  loading st = false /\ conversationsChanged st = false
  /\ knowledgeDocumentsChanged st = false.

Definition invariant (st : State) : Prop :=
  refs_valid st /\ thread_consistent st /\ settled st.

(** A collection that is not empty is in the store, in full. *)
Definition conversations_stored (st : State) : Prop :=
  conversations st <> [] ->
  Storage.getItem key_conversations (localStorage st)
  = Some (serialize_conversations (conversation_list st)).

Definition documents_stored (st : State) : Prop :=
  knowledgeDocuments st <> [] ->
  Storage.getItem key_knowledgeDocuments (localStorage st)
  = Some (serialize_documents (knowledgeDocuments st)).

Definition stored_in_full (st : State) : Prop :=
  conversations_stored st /\ documents_stored st.

(** ** Definitions that follow the words of the specification *)

(** "Ordered fallback, first non-empty wins": the first candidate that is
    not empty (in JavaScript: not falsy), else the fallback. *)
Fixpoint first_non_empty (candidates : list jsval) (fallback : jsval) : jsval :=
  match candidates with
  | [] => fallback
  | c :: cs => if truthy c then c else first_non_empty cs fallback
  end.

(** "The response body itself when it is a raw string". *)
Definition raw_string (v : jsval) : jsval :=
  match v with
  | Some (JStr s) => Some (JStr s)
  | _ => None
  end.

(** One call [addDocument(name, content)] with the clock it reads. *)
Record UploadCall : Type := mkCall {
  call_name : jsstring;
  call_content : jsstring;
  call_now : N;
  call_date : Date
}.

(** "Non-empty name/content" after trimming. *)
Definition valid_call (c : UploadCall) : bool :=
  negb (blank_text (call_name c)) && negb (blank_text (call_content c)).

(** The document a valid call creates. *)
Definition document_of_call (c : UploadCall) : KnowledgeDocument.t :=
  KnowledgeDocument.mk (N_toString (call_now c)) (call_name c) (call_content c)
    (toISOString (call_date c)) (utf8_length (call_content c)).

Fixpoint addDocuments (calls : list UploadCall) (st : State) : State :=
  match calls with
  | [] => st
  | c :: calls' =>
      addDocuments calls'
        (addDocument (call_name c) (call_content c) (call_now c) (call_date c) st)
  end.

(** [needle] occurs in [text]. *)
Definition occurs_in (needle text : jsstring) : Prop :=
  exists before after, text = before ++ needle ++ after.

(** ** Measures for the proofs about [JSON_parse] *)

(** No object has two members of the same name. *)
Fixpoint wf_json (v : json) : Prop :=
  match v with
  | JArr l => fold_right (fun x acc => wf_json x /\ acc) True l
  | JObj ms =>
      NoDup (List.map fst ms)
      /\ fold_right (fun kv acc => wf_json (snd kv) /\ acc) True ms
  | _ => True
  end.

(** Calls of the parser a value needs. *)
Fixpoint json_size (v : json) : nat :=
  match v with
  | JArr l => S (fold_right (fun x acc => S (json_size x + acc)) O l)
  | JObj ms => S (fold_right (fun kv acc => S (json_size (snd kv) + acc)) O ms)
  | _ => 1
  end.

(** What follows a value inside an array or an object, or at the end. *)
Definition delimited (rest : jsstring) : Prop :=
  match rest with
  | [] => True
  | c :: _ => c = 44 \/ c = 93 \/ c = 125
  end.

(** The two updates of [handleSendMessage] on the collection seen as a
    list of values: the title of the first conversation of the given id,
    when it holds one message; the messages of every conversation of the
    given id. *)
Fixpoint retitle_first (cid newTitle : jsstring) (cs : list Conversation.t)
  : list Conversation.t :=
  match cs with
  | [] => []
  | c :: cs' =>
      if JsString.eqb (Conversation.id c) cid then
        (if (List.length (Conversation.messages c) =? 1)%nat
         then Conversation.with_title newTitle c else c) :: cs'
      else c :: retitle_first cid newTitle cs'
  end.

Definition with_messages_of (cid : jsstring) (ms : list Message.t)
    (cs : list Conversation.t) : list Conversation.t :=
  List.map (fun c => if JsString.eqb (Conversation.id c) cid
                     then Conversation.with_messages ms c else c) cs.

(** The text of the last message of the visible thread. *)
Definition displayed_reply (st : State) : option jsstring :=
  match rev (messages st) with
  | m :: _ => Some (Message.content m)
  | [] => None
  end.

(** The awaited call throws inside the [try] block. *)
Definition call_throws (reply : Reply) : bool :=
  match reply with
  | Rejected => true
  | Body data =>
      match extractAssistantContent data with
      | None => true
      | Some _ => false
      end
  end.

(** ** Sample values *)

Definition sample_date : Date :=
  Build_Date 9 5 (js "1/1/2026, 9:05:00 AM") (js "2026-01-01T09:05:00.000Z").

Definition sample_document : KnowledgeDocument.t :=
  KnowledgeDocument.mk (js "1703") (js "notes.txt") (js "hello world")
    (js "2026-01-01T09:05:00.000Z") 11.

(** The state a trace leads to from an empty [localStorage]. *)
Definition state_after (es : list Event) : State :=
  match run es (initialState []) with
  | Some st => st
  | None => initialState []
  end.

(** A conversation was opened and a message typed. *)
Definition sample_events : list Event :=
  [NewChat 1700 sample_date sample_date; TypeInput (js "hello there")].

(** The same with a document uploaded first. *)
Definition sample_events_with_document : list Event :=
  [StageUpload (js "notes.txt") (js "hello world"); SubmitUpload 1703 sample_date;
   NewChat 1700 sample_date sample_date; TypeInput (js "hello there")].

(** The text of the elements of an array after the first, and of the
    members of an object after the first. *)
Definition more_elements (l : list json) : jsstring :=
  flat_map (fun y => 44 :: JSON_stringify y) l.

Definition member_text (kv : jsstring * json) : jsstring :=
  quote (fst kv) ++ 58 :: JSON_stringify (snd kv).

Definition more_members (ms : list (jsstring * json)) : jsstring :=
  flat_map (fun kv => 44 :: member_text kv) ms.

Definition elements_size (l : list json) : nat :=
  fold_right (fun x acc => S (json_size x + acc)) O l.

Definition members_size (ms : list (jsstring * json)) : nat :=
  fold_right (fun kv acc => S (json_size (snd kv) + acc)) O ms.

(** Induction on a JSON value, with the hypothesis on every element of an
    array and on every member of an object. *)
Section json_induction.

Variable P : json -> Prop.
Hypothesis P_null : P JNull.
Hypothesis P_bool : forall b, P (JBool b).
Hypothesis P_num : forall z, P (JNum z).
Hypothesis P_str : forall s, P (JStr s).
Hypothesis P_arr : forall l, Forall P l -> P (JArr l).
Hypothesis P_obj : forall ms, Forall (fun kv => P (snd kv)) ms -> P (JObj ms).

Fixpoint json_ind (v : json) : P v :=
  match v with
  | JNull => P_null
  | JBool b => P_bool b
  | JNum z => P_num z
  | JStr s => P_str s
  | JArr l =>
      P_arr l ((fix all (l : list json) : Forall P l :=
                match l with
                | [] => Forall_nil P
                | x :: l' => Forall_cons x (json_ind x) (all l')
                end) l)
  | JObj ms =>
      P_obj ms ((fix all (ms : list (jsstring * json))
                : Forall (fun kv => P (snd kv)) ms :=
                match ms with
                | [] => Forall_nil _
                | kv :: ms' => Forall_cons kv (json_ind (snd kv)) (all ms')
                end) ms)
  end.

End json_induction.

(** ** The rest of the page component *)

(** The send control: [disabled={loading || !input.trim()}]. *)
Definition sendDisabled (st : State) : bool :=
  loading st || blank_text (input st).

(** The conversation of a given id that [find] returns. *)
Definition conversation_of (cid : jsstring) (st : State) : option Conversation.t :=
  find_conversation cid (heap st) (conversations st).

(** A first question of more than fifty code units, and its turn. *)
Definition long_question_events : list Event :=
  [NewChat 1700 sample_date sample_date;
   TypeInput (js "a question that is a good deal longer than fifty code units");
   Send 1701 sample_date Rejected 1702 sample_date].

(** The store and the conversations agree: the text under the key, when
    there is one, reads back as the collection; with no text the
    collection is empty. *)
Definition conversations_agree (ls : Storage.t) (cs : list Conversation.t) : Prop :=
  match Storage.getItem key_conversations ls with
  | Some (c :: s) => deserialize_conversations (c :: s) = Some cs
  | _ => cs = []
  end.

(** The text under the key of the documents, when there is one, reads
    back as some collection, which is the current one unless that is
    empty. *)
Definition documents_readable (ls : Storage.t) (ds : list KnowledgeDocument.t) : Prop :=
  match Storage.getItem key_knowledgeDocuments ls with
  | Some (c :: s) =>
      exists stored, deserialize_documents (c :: s) = Some stored
                     /\ (ds <> [] -> stored = ds)
  | _ => ds = []
  end.

(** ** Downloading a document *)

(** The characters [encodeURIComponent] leaves as they are: the letters,
    the digits and [- _ . ! ~ * ' ( )]. *)
Definition is_uri_unreserved (c : code_unit) : bool :=
  ((65 <=? c) && (c <=? 90)) || ((97 <=? c) && (c <=? 122)) || is_digit c
  || existsb (N.eqb c) [45; 95; 46; 33; 126; 42; 39; 40; 41].

Definition hex_upper (n : N) : code_unit := if n <? 10 then 48 + n else 55 + n.

(** One byte as [%XX], with upper-case digits. *)
Definition percent_byte (b : N) : jsstring :=
  [37; hex_upper (b / 16); hex_upper (b mod 16)].

Definition percent_bytes (bs : list N) : jsstring := flat_map percent_byte bs.

(** The UTF-8 bytes of one code point. *)
Definition utf8_bytes (cp : N) : list N :=
  if cp <? 128 then [cp]
  else if cp <? 2048 then [192 + cp / 64; 128 + cp mod 64]
  else if cp <? 65536 then
    [224 + cp / 4096; 128 + (cp / 64) mod 64; 128 + cp mod 64]
  else
    [240 + cp / 262144; 128 + (cp / 4096) mod 64; 128 + (cp / 64) mod 64;
     128 + cp mod 64].

(** The code point of a surrogate pair. *)
Definition code_point (hi lo : code_unit) : N :=
  65536 + (hi - 55296) * 1024 + (lo - 56320).

(** [encodeURIComponent(s)]; [None] is the [URIError] on a surrogate that
    has no partner. *)
Fixpoint encodeURIComponent (s : jsstring) : option jsstring :=
  match s with
  | [] => Some []
  | c :: s' =>
      if is_uri_unreserved c then option_map (cons c) (encodeURIComponent s')
      else if is_low_surrogate c then None
      else if is_high_surrogate c then
        match s' with
        | d :: s'' =>
            if is_low_surrogate d
            then option_map (app (percent_bytes (utf8_bytes (code_point c d))))
                   (encodeURIComponent s'')
            else None
        | [] => None
        end
      else option_map (app (percent_bytes (utf8_bytes c))) (encodeURIComponent s')
  end.

(** The link [downloadDocument] builds and clicks, by its two attributes. *)
Record Anchor : Type := mkAnchor {
  href : jsstring;
  download : jsstring
}.

Definition downloadDocument (doc : KnowledgeDocument.t) : option Anchor :=
  match encodeURIComponent (KnowledgeDocument.content doc) with
  | Some encoded =>
      Some (mkAnchor (js "data:text/plain;charset=utf-8," ++ encoded)
              (KnowledgeDocument.name doc))
  | None => None
  end.

(** The bytes a [Blob] holds for a string: its UTF-8 encoding, a surrogate
    with no partner replaced by U+FFFD. *)
Fixpoint utf8_encode (s : jsstring) : list N :=
  match s with
  | [] => []
  | c :: s' =>
      if is_high_surrogate c then
        match s' with
        | d :: s'' =>
            if is_low_surrogate d
            then utf8_bytes (code_point c d) ++ utf8_encode s''
            else utf8_bytes 65533 ++ utf8_encode s'
        | [] => utf8_bytes 65533
        end
      else if is_low_surrogate c then utf8_bytes 65533 ++ utf8_encode s'
      else utf8_bytes c ++ utf8_encode s'
  end.

(** No surrogate without its partner. *)
Fixpoint well_formed (s : jsstring) : bool :=
  match s with
  | [] => true
  | c :: s' =>
      if is_high_surrogate c then
        match s' with
        | d :: s'' => is_low_surrogate d && well_formed s''
        | [] => false
        end
      else negb (is_low_surrogate c) && well_formed s'
  end.

Definition hex_pair (h1 h2 : code_unit) : option N :=
  match hex_val h1, hex_val h2 with
  | Some a, Some b => Some (16 * a + b)
  | _, _ => None
  end.

(** The bytes a browser reads from the body of a [data:] link made of ASCII
    characters: a percent sign with two hexadecimal digits is one byte, any
    other character is its own byte. *)
Fixpoint percent_decode (s : jsstring) : list N :=
  match s with
  | [] => []
  | c :: t =>
      match t with
      | h1 :: h2 :: s' =>
          match (if c =? 37 then hex_pair h1 h2 else None) with
          | Some b => b :: percent_decode s'
          | None => c :: percent_decode t
          end
      | _ => c :: percent_decode t
      end
  end.

Definition accented_document : KnowledgeDocument.t :=
  KnowledgeDocument.mk (js "1704") (js "menu.txt")
    [99; 97; 102; 233; 32; 8364; 53; 32; 55357; 56832]
    (js "2026-01-01T09:06:00.000Z") 15.

(** ** The page while a request is pending

    Between the two parts of [handleSendMessage] the page stays in use: the
    buttons of the side bar are not disabled while [loading] is set, the
    text input is.  The second part then runs on the variables of the
    render in which the handler was created, whatever was clicked since. *)

Record Page : Type := mkPage {
  page_state : State;
  in_flight : option Pending
}.

Inductive Action : Type :=
| Click (e : Event)
| Submit (now : N) (d : Date)
| Settle (reply : Reply) (now : N) (d : Date).

(** [disabled={loading}] on the text input. *)
Definition enabled (e : Event) (st : State) : bool :=
  match e with
  | TypeInput _ => negb (loading st)
  | _ => true
  end.

(** One action on the page; [None] when the page offers no such action.
    [Click (Send ..)] is a turn during which nothing else is clicked. *)
Definition page_step (a : Action) (pg : Page) : option Page :=
  match a with
  | Click e =>
      if enabled e (page_state pg)
      then option_map (fun st => mkPage st (in_flight pg)) (step e (page_state pg))
      else None
  | Submit now d =>
      match sendBegin now d (page_state pg) with
      | Some (st1, p) => Some (mkPage (commit st1) (Some p))
      | None => Some pg
      end
  | Settle reply now d =>
      match in_flight pg with
      | Some p =>
          option_map (fun st => mkPage (commit st) None)
            (sendFinish p reply now d (page_state pg))
      | None => None
      end
  end.

Fixpoint page_run (acts : list Action) (pg : Page) : option Page :=
  match acts with
  | [] => Some pg
  | a :: acts' =>
      match page_step a pg with
      | Some pg' => page_run acts' pg'
      | None => None
      end
  end.

Inductive page_reachable : Page -> Prop :=
| page_mount ls st :
    mount ls = Some st -> page_reachable (mkPage st None)
| page_next a pg pg' :
    page_reachable pg -> page_step a pg = Some pg' -> page_reachable pg'.

(** The references of the page, and of the request in flight, are objects
    of the store; a request is in flight exactly while [loading] is set. *)
Definition page_invariant (pg : Page) : Prop :=
  refs_valid (page_state pg)
  /\ match in_flight pg with
     | Some p =>
         loading (page_state pg) = true
         /\ refs_in (heap (page_state pg)) (p_conversations p)
     | None => loading (page_state pg) = false
     end.

(** The collection as the request in flight sees it. *)
Definition pending_list (st : State) (p : Pending) : list Conversation.t :=
  List.map (deref (heap st)) (p_conversations p).

(** The clock readings at which the actions of a trace create a
    conversation. *)
Fixpoint created_at (acts : list Action) : list N :=
  match acts with
  | [] => []
  | Click (NewChat now _ _) :: acts' => now :: created_at acts'
  | _ :: acts' => created_at acts'
  end.

(** The clock reading at which an action adds a document: a submission of a
    name and a content that are not blank. *)
Definition added_now (a : Action) (st : State) : list N :=
  match a with
  | Click (SubmitUpload now _) =>
      if blank_text (uploadName st) || blank_text (uploadContent st) then []
      else [now]
  | _ => []
  end.

Fixpoint added_at (acts : list Action) (pg : Page) : list N :=
  match acts with
  | [] => []
  | a :: acts' =>
      added_now a (page_state pg)
        ++ match page_step a pg with
           | Some pg' => added_at acts' pg'
           | None => []
           end
  end.

(** The value of the [content] property of the assistant message that a
    reply leads to: the text of the [catch] block when the call throws,
    else the value assigned to [assistantContent]. *)
Definition assistant_content (reply : Reply) : jsval :=
  match reply with
  | Rejected => Some (JStr apology_text)
  | Body data =>
      match extractAssistantContent data with
      | Some v => v
      | None => Some (JStr apology_text)
      end
  end.

(** The page on an empty store, and the page a trace of actions leads to
    from there. *)
Definition initialPage : Page := mkPage (initialState []) None.

Definition page_after (acts : list Action) : Page :=
  match page_run acts initialPage with
  | Some pg => pg
  | None => initialPage
  end.

(** Two conversations, the second one active, and a text typed. *)
Definition two_chats_typed : list Action :=
  [Click (NewChat 1700 sample_date sample_date);
   Click (NewChat 1704 sample_date sample_date);
   Click (TypeInput (js "hello there"))].

(** The text is sent, and the first conversation selected while the
    request is pending. *)
Definition switch_pending : list Action :=
  two_chats_typed ++ [Submit 1705 sample_date; Click (SwitchTo (js "1700"))].

(** The request fails; then a text is typed. *)
Definition switch_while_pending : list Action :=
  switch_pending
    ++ [Settle Rejected 1706 sample_date; Click (TypeInput (js "are you there"))].

(** The conversation created at a clock reading, as it is created. *)
Definition new_chat (now : N) : Conversation.t :=
  Conversation.mk (N_toString now) (js "New Conversation")
    [Message.mk (js "1") (js "Hi! How can I help you today?") Message.assistant
       (toLocaleString sample_date)]
    (toISOString sample_date).

(** A body with an empty result and a text. *)
Definition fine_body : json :=
  JObj [(js "success", JBool true);
        (js "response", JObj [(js "result", JStr []); (js "text", JStr (js "fine"))])].

(** One conversation and a first question of more than fifty code units. *)
Definition long_question_typed : list Action :=
  [Click (NewChat 1700 sample_date sample_date);
   Click (TypeInput (js "a question that is a good deal longer than fifty code units"))].

(** Two conversations are created while the request is pending. *)
Definition new_chats_pending : list Action :=
  two_chats_typed
    ++ [Submit 1705 sample_date;
        Click (NewChat 1706 sample_date sample_date);
        Click (NewChat 1707 sample_date sample_date)].

(** The ids of the conversations are pairwise distinct and among [used],
    and so are those of the collection a request in flight holds on to. *)
Definition ids_within (used : list jsstring) (pg : Page) : Prop :=
  NoDup (List.map Conversation.id (conversation_list (page_state pg)))
  /\ incl (List.map Conversation.id (conversation_list (page_state pg))) used
  /\ match in_flight pg with
     | Some p =>
         NoDup (List.map Conversation.id (pending_list (page_state pg) p))
         /\ incl (List.map Conversation.id (pending_list (page_state pg) p)) used
     | None => True
     end.

(** Conversations and documents are created, a submission without a name
    is rejected at the clock reading of an earlier one, and a conversation
    is created while a request is pending. *)
Definition busy_session : list Action :=
  [Click (NewChat 1700 sample_date sample_date);
   Click (StageUpload (js "a.txt") (js "a"));
   Click (SubmitUpload 1703 sample_date);
   Click (StageUpload (js " ") (js "b"));
   Click (SubmitUpload 1703 sample_date);
   Click (NewChat 1704 sample_date sample_date);
   Click (TypeInput (js "hello there"));
   Submit 1705 sample_date;
   Click (NewChat 1706 sample_date sample_date);
   Settle Rejected 1707 sample_date;
   Click (StageUpload (js "b.txt") (js "b"));
   Click (SubmitUpload 1708 sample_date)].

(** A body whose success flag is set and whose response field is present
    and empty. *)
Definition empty_response_body : json :=
  JObj [(js "success", JBool true); (js "response", JStr [])].

(** One conversation and a text typed. *)
Definition chat_typed : list Action :=
  [Click (NewChat 1700 sample_date sample_date);
   Click (TypeInput (js "hello there"))].

Definition menu_document : KnowledgeDocument.t :=
  KnowledgeDocument.mk (js "1704") (js "menu.txt") (js "soup")
    (js "2026-01-01T09:05:00.000Z") 4.

(** Two documents, a conversation and a text typed. *)
Definition two_documents_events : list Event :=
  [StageUpload (js "notes.txt") (js "hello world"); SubmitUpload 1703 sample_date;
   StageUpload (js "menu.txt") (js "soup"); SubmitUpload 1704 sample_date;
   NewChat 1700 sample_date sample_date; TypeInput (js "hello there")].

(** Three calls of [addDocument], the second one with a blank name, the
    third one with a content outside ASCII. *)
Definition sample_calls : list UploadCall :=
  [mkCall (js "notes.txt") (js "hello world") 1703 sample_date;
   mkCall (js "  ") (js "lost") 1704 sample_date;
   mkCall (js "menu.txt") [99; 97; 102; 233; 32; 8364; 53; 32; 55357; 56832]
     1705 sample_date].

(* ================================================================== *)
(** * Properties *)

(** ** Strings and decimal numerals *)

Section StringFacts.

Lemma eqb_refl (a : jsstring) : JsString.eqb a a = true.
Proof.
  induction a as [|x a IH]; simpl; [reflexivity|].
  now rewrite N.eqb_refl, IH.
Qed.

Lemma eqb_eq (a b : jsstring) : JsString.eqb a b = true <-> a = b.
Proof.
  split; [|intros ->; apply eqb_refl].
  revert b; induction a as [|x a IH]; intros [|y b]; simpl; try discriminate; auto.
  intros H. apply andb_true_iff in H as [Hx Hab].
  apply N.eqb_eq in Hx. f_equal; auto.
Qed.

Lemma eqb_neq (a b : jsstring) : JsString.eqb a b = false <-> a <> b.
Proof.
  split.
  - intros H E. apply eqb_eq in E. congruence.
  - intros H. destruct (JsString.eqb a b) eqn:E; [|reflexivity].
    apply eqb_eq in E. contradiction.
Qed.

Lemma uint_units_inj (d d' : Decimal.uint) :
  uint_units d = uint_units d' -> d = d'.
Proof.
  revert d'; induction d; intros d'; destruct d'; simpl; intros H;
    try discriminate H; try reflexivity;
    injection H as H; f_equal; auto.
Qed.

Lemma N_toString_inj (n m : N) : N_toString n = N_toString m -> n = m.
Proof.
  unfold N_toString. intros H.
  apply DecimalN.Unsigned.to_uint_inj, uint_units_inj, H.
Qed.

Lemma to_uint_normal (n : N) : Decimal.unorm (N.to_uint n) = N.to_uint n.
Proof.
  rewrite <- (DecimalN.Unsigned.of_to n) at 2.
  symmetry. apply DecimalN.Unsigned.to_of.
Qed.

Lemma to_uint_nonnil (n : N) : N.to_uint n <> Decimal.Nil.
Proof.
  rewrite <- to_uint_normal. apply DecimalFacts.unorm_nonnil.
Qed.

(** A numeral starts with a digit. *)
Lemma uint_units_head (d : Decimal.uint) :
  d <> Decimal.Nil ->
  exists c s, uint_units d = c :: s /\ is_digit c = true.
Proof.
  destruct d; intros H; try contradiction; simpl; eauto.
Qed.

Lemma N_toString_head (n : N) :
  exists c s, N_toString n = c :: s /\ is_digit c = true.
Proof.
  apply uint_units_head, to_uint_nonnil.
Qed.

Lemma N_toString_nonempty (n : N) : N_toString n <> [].
Proof.
  destruct (N_toString_head n) as (c & s & E & _). rewrite E. discriminate.
Qed.

End StringFacts.

(** ** [JSON.parse] undoes [JSON.stringify] *)

Section StringRoundTrip.

Lemma hex_val_hex_digit (n : N) : n < 16 -> hex_val (hex_digit n) = Some n.
Proof.
  intros H. destruct n as [|p]; [reflexivity|].
  do 4 (destruct p as [p|p|]; try reflexivity); lia.
Qed.

Lemma hex_digits_value (c : N) :
  c < 65536 ->
  (c / 4096 mod 16) * 4096 + (c / 256 mod 16) * 256 + (c / 16 mod 16) * 16 + c mod 16 = c.
Proof.
  intros H.
  pose proof (N.div_mod c 16 ltac:(lia)) as E0.
  pose proof (N.div_mod (c / 16) 16 ltac:(lia)) as E1.
  pose proof (N.div_mod (c / 16 / 16) 16 ltac:(lia)) as E2.
  assert (H3 : c / 16 / 16 / 16 < 16).
  { rewrite !N.Div0.div_div. apply N.Div0.div_lt_upper_bound. lia. }
  rewrite !N.Div0.div_div in *. simpl (16 * 16) in *. simpl (256 * 16) in *.
  rewrite (N.mod_small (c / 4096) 16) by exact H3.
  lia.
Qed.

Lemma parse_unicode_escape (c : N) (tl : jsstring) :
  c < 65536 ->
  parse_string_body (unicode_escape c ++ tl)
  = match parse_string_body tl with
    | Some (str, r) => Some (c :: str, r)
    | None => None
    end.
Proof.
  intros H. unfold unicode_escape.
  cbn [app parse_string_body]. cbn [N.eqb Pos.eqb].
  rewrite !hex_val_hex_digit by (apply N.mod_lt; lia).
  rewrite hex_digits_value by exact H. reflexivity.
Qed.

Lemma parse_literal_unit (c : N) (tl : jsstring) :
  c <> 34 -> c <> 92 -> 32 <= c ->
  parse_string_body (c :: tl)
  = match parse_string_body tl with
    | Some (str, r) => Some (c :: str, r)
    | None => None
    end.
Proof.
  intros H1 H2 H3. cbn [parse_string_body].
  apply N.eqb_neq in H1, H2. rewrite H1, H2.
  assert (E : (c <? 32) = false) by (apply N.ltb_ge; exact H3).
  rewrite E. reflexivity.
Qed.

Lemma parse_quote_unit (c : N) (tl : jsstring) :
  parse_string_body (quote_unit c ++ tl)
  = match parse_string_body tl with
    | Some (str, r) => Some (c :: str, r)
    | None => None
    end.
Proof.
  unfold quote_unit.
  destruct (N.eqb_spec c 8) as [->|N8]; [reflexivity|].
  destruct (N.eqb_spec c 9) as [->|N9]; [reflexivity|].
  destruct (N.eqb_spec c 10) as [->|N10]; [reflexivity|].
  destruct (N.eqb_spec c 12) as [->|N12]; [reflexivity|].
  destruct (N.eqb_spec c 13) as [->|N13]; [reflexivity|].
  destruct (N.eqb_spec c 34) as [->|N34]; [reflexivity|].
  destruct (N.eqb_spec c 92) as [->|N92]; [reflexivity|].
  destruct ((c <? 32) || is_high_surrogate c || is_low_surrogate c) eqn:E.
  - apply parse_unicode_escape.
    unfold is_high_surrogate, is_low_surrogate in E.
    repeat (apply orb_true_iff in E as [E|E]).
    + apply N.ltb_lt in E. lia.
    + apply andb_true_iff in E as [_ E]. apply N.leb_le in E. lia.
    + apply andb_true_iff in E as [_ E]. apply N.leb_le in E. lia.
  - apply orb_false_iff in E as [E _]. apply orb_false_iff in E as [E _].
    apply N.ltb_ge in E. apply parse_literal_unit; assumption.
Qed.

Lemma surrogate_literal (c : N) :
  is_high_surrogate c = true \/ is_low_surrogate c = true ->
  c <> 34 /\ c <> 92 /\ 32 <= c.
Proof.
  unfold is_high_surrogate, is_low_surrogate.
  intros [E|E]; apply andb_true_iff in E as [E _]; apply N.leb_le in E; lia.
Qed.

(** The closing quote ends the string, and the characters read are the
    ones written. *)
Lemma parse_quote_units_bounded (n : nat) :
  forall s rest, (List.length s <= n)%nat ->
    parse_string_body (quote_units s ++ 34 :: rest) = Some (s, rest).
Proof.
  induction n as [|n IH]; intros s rest Hn.
  - destruct s; [reflexivity|simpl in Hn; lia].
  - destruct s as [|c s']; [reflexivity|].
    simpl in Hn. cbn [quote_units].
    destruct (is_high_surrogate c) eqn:Hc.
    + destruct s' as [|d s''].
      * rewrite parse_quote_unit. reflexivity.
      * destruct (is_low_surrogate d) eqn:Hd.
        -- destruct (surrogate_literal c (or_introl Hc)) as (A1 & A2 & A3).
           destruct (surrogate_literal d (or_intror Hd)) as (B1 & B2 & B3).
           cbn [app]. rewrite parse_literal_unit by assumption.
           rewrite parse_literal_unit by assumption.
           rewrite IH by (simpl in Hn; lia). reflexivity.
        -- rewrite <- app_assoc, parse_quote_unit.
           rewrite IH by lia. reflexivity.
    + rewrite <- app_assoc, parse_quote_unit.
      rewrite IH by lia. reflexivity.
Qed.

Lemma parse_quote (s rest : jsstring) :
  parse_string_body (quote_units s ++ 34 :: rest) = Some (s, rest).
Proof.
  apply parse_quote_units_bounded with (n := List.length s). lia.
Qed.

End StringRoundTrip.

Section NumberRoundTrip.

Lemma delimited_not_digit (rest : jsstring) :
  delimited rest ->
  match rest with [] => True | c :: _ => is_digit c = false end.
Proof.
  destruct rest as [|c r]; [trivial|].
  intros [-> | [-> | ->]]; reflexivity.
Qed.

Lemma read_uint_units (d : Decimal.uint) (rest : jsstring) :
  match rest with [] => True | c :: _ => is_digit c = false end ->
  read_uint (uint_units d ++ rest) = (d, rest).
Proof.
  intros H.
  induction d; simpl;
    try (change (is_digit (digit_unit 0)) with true);
    try (rewrite IHd; reflexivity).
  destruct rest as [|c r]; [reflexivity|]. simpl. now rewrite H.
Qed.

Lemma uint_beq_refl (d : Decimal.uint) : Decimal.uint_beq d d = true.
Proof.
  induction d; simpl; auto.
Qed.

Lemma parse_uint_toString (n : N) (rest : jsstring) :
  delimited rest ->
  parse_uint (N_toString n ++ rest) = Some (n, rest).
Proof.
  intros H. unfold parse_uint, N_toString.
  rewrite read_uint_units by (apply delimited_not_digit, H).
  rewrite to_uint_normal, uint_beq_refl, DecimalN.Unsigned.of_to.
  destruct rest as [|c r]; [reflexivity|].
  destruct H as [-> | [-> | ->]]; reflexivity.
Qed.

Lemma digit_not_minus (c : N) : is_digit c = true -> (c =? 45) = false.
Proof.
  unfold is_digit. intros H. apply andb_true_iff in H as [H _].
  apply N.leb_le in H. apply N.eqb_neq. lia.
Qed.

Lemma parse_number_toString (z : Z) (rest : jsstring) :
  delimited rest ->
  parse_number (Z_toString z ++ rest) = Some (JNum z, rest).
Proof.
  intros H. unfold Z_toString.
  destruct (Z.ltb_spec z 0) as [Hz|Hz].
  - cbn [app parse_number]. cbn [N.eqb Pos.eqb].
    rewrite parse_uint_toString by exact H.
    do 2 f_equal. f_equal. lia.
  - destruct (N_toString_head (Z.to_N z)) as (c & s & E & Hc).
    pose proof (parse_uint_toString (Z.to_N z) rest H) as P.
    rewrite E in *. cbn [app parse_number] in *.
    rewrite (digit_not_minus c Hc), P.
    do 2 f_equal. f_equal. lia.
Qed.

(** The first character of a numeral sends [parse_value] to the number
    grammar. *)
Lemma Z_toString_head (z : Z) :
  exists c s, Z_toString z = c :: s /\ (c = 45 \/ is_digit c = true).
Proof.
  unfold Z_toString. destruct (z <? 0)%Z.
  - eauto.
  - destruct (N_toString_head (Z.to_N z)) as (c & s & E & Hc). eauto.
Qed.

End NumberRoundTrip.

Section ValueRoundTrip.

(** *** The equations of the parser on the first character *)

Lemma parse_elements_close (f : nat) (s : jsstring) :
  parse_elements (S f) (93 :: s) = Some ([], s).
Proof. reflexivity. Qed.

Lemma parse_elements_comma (f : nat) (s : jsstring) :
  parse_elements (S f) (44 :: s)
  = match parse_value f s with
    | Some (v, r1) =>
        match parse_elements f r1 with
        | Some (vs, r2) => Some (v :: vs, r2)
        | None => None
        end
    | None => None
    end.
Proof. reflexivity. Qed.

Lemma parse_members_close (f : nat) (s : jsstring) :
  parse_members (S f) (125 :: s) = Some ([], s).
Proof. reflexivity. Qed.

Lemma parse_members_comma (f : nat) (s : jsstring) :
  parse_members (S f) (44 :: s)
  = match parse_member (parse_value f) s with
    | Some (m, r1) =>
        match parse_members f r1 with
        | Some (ms, r2) => Some (m :: ms, r2)
        | None => None
        end
    | None => None
    end.
Proof. reflexivity. Qed.

Lemma parse_value_string (f : nat) (s : jsstring) :
  parse_value (S f) (34 :: s)
  = match parse_string_body s with
    | Some (str, r1) => Some (JStr str, r1)
    | None => None
    end.
Proof. reflexivity. Qed.

Lemma parse_value_array_empty (f : nat) (s : jsstring) :
  parse_value (S f) (91 :: 93 :: s) = Some (JArr [], s).
Proof. reflexivity. Qed.

Lemma skip_ws_head (c : N) (s : jsstring) :
  is_json_ws c = false -> skip_ws (c :: s) = c :: s.
Proof.
  intros H. cbn [skip_ws]. now rewrite H.
Qed.

Lemma parse_value_array (f : nat) (c : N) (s : jsstring) :
  is_json_ws c = false -> (c =? 93) = false ->
  parse_value (S f) (91 :: c :: s)
  = match parse_value f (c :: s) with
    | Some (v, r1) =>
        match parse_elements f r1 with
        | Some (vs, r2) => Some (JArr (v :: vs), r2)
        | None => None
        end
    | None => None
    end.
Proof.
  intros Hw Hc. cbn [parse_value].
  rewrite (skip_ws_head 91) by reflexivity.
  change (91 =? 34) with false. change (91 =? 91) with true. cbv iota.
  rewrite (skip_ws_head c) by exact Hw. now rewrite Hc.
Qed.

Lemma parse_value_object_empty (f : nat) (s : jsstring) :
  parse_value (S f) (123 :: 125 :: s) = Some (JObj [], s).
Proof. reflexivity. Qed.

Lemma parse_value_object (f : nat) (s : jsstring) :
  parse_value (S f) (123 :: 34 :: s)
  = match parse_member (parse_value f) (34 :: s) with
    | Some (m, r1) =>
        match parse_members f r1 with
        | Some (ms, r2) => Some (build_object (m :: ms), r2)
        | None => None
        end
    | None => None
    end.
Proof. reflexivity. Qed.

Lemma number_head_range (c : N) :
  c = 45 \/ is_digit c = true -> 45 <= c <= 57.
Proof.
  intros [->|H]; [lia|]. unfold is_digit in H.
  apply andb_true_iff in H as [H1 H2]. apply N.leb_le in H1, H2. lia.
Qed.

Lemma parse_value_number (f : nat) (c : N) (s : jsstring) :
  c = 45 \/ is_digit c = true ->
  parse_value (S f) (c :: s) = parse_number (c :: s).
Proof.
  intros H. apply number_head_range in H.
  assert (E : forall k, k < 45 \/ 57 < k -> (c =? k) = false).
  { intros k Hk. apply N.eqb_neq. lia. }
  cbn [parse_value]. rewrite skip_ws_head by (unfold is_json_ws; now rewrite !E by lia).
  rewrite !E by lia. reflexivity.
Qed.

Lemma parse_member_text (pv : jsstring -> option (json * jsstring))
    (k : jsstring) (s : jsstring) :
  parse_member pv (quote k ++ 58 :: s)
  = match pv s with
    | Some (v, r3) => Some ((k, v), r3)
    | None => None
    end.
Proof.
  unfold quote. cbn [app]. rewrite <- app_assoc. cbn [app].
  unfold parse_member. rewrite (skip_ws_head 34) by reflexivity.
  change (34 =? 34) with true. cbv iota.
  rewrite parse_quote. rewrite (skip_ws_head 58) by reflexivity.
  reflexivity.
Qed.

(** *** The text written *)

Lemma join_cons (sep p : jsstring) (ps : list jsstring) :
  join sep (p :: ps) = p ++ flat_map (fun q => sep ++ q) ps.
Proof.
  revert p; induction ps as [|q ps IH]; intros p.
  - simpl. now rewrite app_nil_r.
  - change (join sep (p :: q :: ps)) with (p ++ sep ++ join sep (q :: ps)).
    rewrite IH. simpl. now rewrite <- app_assoc.
Qed.

Lemma stringify_array_cons (x : json) (l : list json) :
  JSON_stringify (JArr (x :: l))
  = 91 :: JSON_stringify x ++ more_elements l ++ [93].
Proof.
  cbn [JSON_stringify List.map]. rewrite join_cons, flat_map_concat_map, map_map.
  unfold more_elements. rewrite flat_map_concat_map, <- app_assoc. reflexivity.
Qed.

Lemma stringify_object_cons (kv : jsstring * json) (ms : list (jsstring * json)) :
  JSON_stringify (JObj (kv :: ms))
  = 123 :: member_text kv ++ more_members ms ++ [125].
Proof.
  cbn [JSON_stringify List.map]. rewrite join_cons, flat_map_concat_map, map_map.
  unfold more_members. rewrite flat_map_concat_map, <- app_assoc. reflexivity.
Qed.

(** A value starts with a character that is neither white space nor a
    closing bracket. *)
Lemma stringify_head (v : json) :
  exists c s, JSON_stringify v = c :: s
              /\ is_json_ws c = false /\ (c =? 93) = false.
Proof.
  destruct v as [|[|]|z|s|l|ms].
  - exists 110, (js "ull"). repeat split.
  - exists 116, (js "rue"). repeat split.
  - exists 102, (js "alse"). repeat split.
  - destruct (Z_toString_head z) as (c & s & E & Hc).
    exists c, s. split; [exact E|].
    apply number_head_range in Hc.
    assert (E' : forall k, k < 45 \/ 57 < k -> (c =? k) = false).
    { intros k Hk. apply N.eqb_neq. lia. }
    unfold is_json_ws. rewrite !E' by lia. auto.
  - exists 34, (quote_units s ++ [34]). repeat split.
  - eexists 91, _. repeat split.
  - eexists 123, _. repeat split.
Qed.

(** *** Members of distinct names are kept as read *)

Lemma obj_set_fresh (k : jsstring) (v : json) (acc : list (jsstring * json)) :
  ~ In k (List.map fst acc) -> obj_set k v acc = acc ++ [(k, v)].
Proof.
  induction acc as [|[k' v'] acc IH]; intros H; [reflexivity|].
  simpl in *. destruct (JsString.eqb k' k) eqn:E.
  - apply eqb_eq in E. tauto.
  - rewrite IH by tauto. reflexivity.
Qed.

Lemma fold_obj_set (ms acc : list (jsstring * json)) :
  NoDup (List.map fst (acc ++ ms)) ->
  fold_left (fun a kv => obj_set (fst kv) (snd kv) a) ms acc = acc ++ ms.
Proof.
  revert acc; induction ms as [|[k v] ms IH]; intros acc H.
  - simpl. now rewrite app_nil_r.
  - simpl. rewrite obj_set_fresh.
    + rewrite IH; rewrite <- app_assoc; [reflexivity|exact H].
    + rewrite map_app in H. simpl in H.
      apply NoDup_remove_2 in H. intros I. apply H, in_or_app. now left.
Qed.

Lemma build_object_nodup (ms : list (jsstring * json)) :
  NoDup (List.map fst ms) -> build_object ms = JObj ms.
Proof.
  intros H. unfold build_object. now rewrite fold_obj_set.
Qed.

End ValueRoundTrip.

Section ParseStringify.

(** What is proved of each value: with enough calls left and a delimiter
    behind it, its text is read back as the value itself. *)
Local Abbreviation reads_back v :=
  (wf_json v -> forall fuel rest,
      Nat.le (json_size v) fuel -> delimited rest ->
      parse_value fuel (JSON_stringify v ++ rest) = Some (v, rest)).

Lemma delimited_more_elements (l : list json) (rest : jsstring) :
  delimited (more_elements l ++ 93 :: rest).
Proof.
  destruct l; simpl; auto.
Qed.

Lemma delimited_more_members (ms : list (jsstring * json)) (rest : jsstring) :
  delimited (more_members ms ++ 125 :: rest).
Proof.
  destruct ms; simpl; auto.
Qed.

Lemma parse_more_elements (l : list json) :
  Forall (fun v => reads_back v) l ->
  fold_right (fun x acc => wf_json x /\ acc) True l ->
  forall fuel rest, (elements_size l < fuel)%nat ->
    parse_elements fuel (more_elements l ++ 93 :: rest) = Some (l, rest).
Proof.
  induction 1 as [|y l Hy _ IH]; intros Hwf fuel rest Hf;
    (destruct fuel as [|f]; [lia|]).
  - apply parse_elements_close.
  - destruct Hwf as [Wy Wl]. cbn [elements_size fold_right] in Hf.
    fold (elements_size l) in Hf.
    unfold more_elements. cbn [flat_map]. fold (more_elements l).
    rewrite <- app_assoc. cbn [app].
    rewrite parse_elements_comma.
    rewrite (Hy Wy) by (try apply delimited_more_elements; lia).
    rewrite (IH Wl) by lia. reflexivity.
Qed.

Lemma parse_more_members (ms : list (jsstring * json)) :
  Forall (fun kv => reads_back (snd kv)) ms ->
  fold_right (fun kv acc => wf_json (snd kv) /\ acc) True ms ->
  forall fuel rest, (members_size ms < fuel)%nat ->
    parse_members fuel (more_members ms ++ 125 :: rest) = Some (ms, rest).
Proof.
  induction 1 as [|[k v] ms Hv _ IH]; intros Hwf fuel rest Hf;
    (destruct fuel as [|f]; [lia|]).
  - apply parse_members_close.
  - destruct Hwf as [Wv Wl]. cbn [members_size fold_right snd] in Hf.
    fold (members_size ms) in Hf. cbn [snd] in Hv, Wv.
    unfold more_members. cbn [flat_map]. fold (more_members ms).
    unfold member_text. cbn [fst snd].
    rewrite <- !app_assoc. cbn [app]. rewrite <- !app_assoc. cbn [app].
    rewrite parse_members_comma, parse_member_text.
    rewrite (Hv Wv) by (try apply delimited_more_members; lia).
    rewrite (IH Wl) by lia. reflexivity.
Qed.

Lemma parse_value_stringify (v : json) : reads_back v.
Proof.
  induction v as [|b|z|s|l IH|ms IH] using json_ind;
    intros Hwf fuel rest Hf Hrest;
    (destruct fuel as [|f]; [simpl in Hf; lia|]).
  - reflexivity.
  - destruct b; reflexivity.
  - destruct (Z_toString_head z) as (c & s & E & Hc).
    pose proof (parse_number_toString z rest Hrest) as P.
    cbn [JSON_stringify]. rewrite E in *. cbn [app] in *.
    now rewrite parse_value_number.
  - cbn [JSON_stringify]. unfold quote. cbn [app].
    rewrite <- app_assoc. cbn [app].
    now rewrite parse_value_string, parse_quote.
  - destruct l as [|x l]; [apply parse_value_array_empty|].
    inversion IH as [|? ? Hx Hl]; subst.
    destruct Hwf as [Wx Wl].
    change (json_size (JArr (x :: l)))
      with (S (S (json_size x + elements_size l))) in Hf.
    rewrite stringify_array_cons. cbn [app]. rewrite <- !app_assoc. cbn [app].
    pose proof (Hx Wx f (more_elements l ++ 93 :: rest) ltac:(lia)
                  (delimited_more_elements l rest)) as P.
    destruct (stringify_head x) as (c & s & E & Hw & Hc).
    rewrite E in *. cbn [app] in *.
    rewrite parse_value_array by assumption.
    rewrite P, (parse_more_elements l Hl Wl) by lia. reflexivity.
  - destruct ms as [|[k v] ms]; [apply parse_value_object_empty|].
    inversion IH as [|? ? Hv Hl]; subst.
    destruct Hwf as [Hnd [Wv Wl]]. cbn [snd] in Hv, Wv.
    change (json_size (JObj ((k, v) :: ms)))
      with (S (S (json_size v + members_size ms))) in Hf.
    rewrite stringify_object_cons. cbn [app]. rewrite <- !app_assoc.
    pose proof (parse_member_text (parse_value f) k
                  (JSON_stringify v ++ more_members ms ++ 125 :: rest)) as M.
    unfold member_text. cbn [fst snd]. rewrite <- !app_assoc. cbn [app].
    unfold quote in *. cbn [app] in *. rewrite <- !app_assoc in *. cbn [app] in *.
    rewrite parse_value_object, M.
    rewrite (Hv Wv) by (try apply delimited_more_members; lia).
    rewrite (parse_more_members ms Hl Wl) by lia.
    now rewrite build_object_nodup.
Qed.

Lemma length_more_elements (l : list json) :
  Forall (fun v => (json_size v <= List.length (JSON_stringify v))%nat) l ->
  (elements_size l <= List.length (more_elements l))%nat.
Proof.
  induction 1 as [|y l Hy _ IH]; [apply le_n|].
  unfold more_elements. cbn [flat_map]. fold (more_elements l).
  cbn [elements_size fold_right]. fold (elements_size l).
  repeat (rewrite length_app || cbn [List.length app]). lia.
Qed.

Lemma length_more_members (ms : list (jsstring * json)) :
  Forall (fun kv => (json_size (snd kv) <= List.length (JSON_stringify (snd kv)))%nat) ms ->
  (members_size ms <= List.length (more_members ms))%nat.
Proof.
  induction 1 as [|kv ms Hy _ IH]; [apply le_n|].
  unfold more_members. cbn [flat_map]. fold (more_members ms).
  cbn [members_size fold_right]. fold (members_size ms).
  unfold member_text.
  repeat (rewrite length_app || cbn [List.length app]). lia.
Qed.

(** The length of the text is enough fuel. *)
Lemma json_size_le_length (v : json) :
  (json_size v <= List.length (JSON_stringify v))%nat.
Proof.
  induction v as [|b|z|s|l IH|ms IH] using json_ind.
  - simpl. lia.
  - destruct b; simpl; lia.
  - destruct (Z_toString_head z) as (c & s & E & _).
    cbn [JSON_stringify json_size]. rewrite E. simpl. lia.
  - simpl. lia.
  - destruct l as [|x l]; [simpl; lia|].
    inversion IH as [|? ? Hx Hl]; subst.
    pose proof (length_more_elements l Hl).
    rewrite stringify_array_cons.
    change (json_size (JArr (x :: l)))
      with (S (S (json_size x + elements_size l))).
    repeat (rewrite length_app || cbn [List.length app]). lia.
  - destruct ms as [|kv ms]; [simpl; lia|].
    inversion IH as [|? ? Hx Hl]; subst.
    pose proof (length_more_members ms Hl).
    rewrite stringify_object_cons.
    change (json_size (JObj (kv :: ms)))
      with (S (S (json_size (snd kv) + members_size ms))).
    unfold member_text.
    repeat (rewrite length_app || cbn [List.length app]). lia.
Qed.

(** [JSON.parse(JSON.stringify(v))] is [v]. *)
Lemma JSON_parse_stringify (v : json) :
  wf_json v -> JSON_parse (JSON_stringify v) = Some v.
Proof.
  intros Hwf. unfold JSON_parse.
  pose proof (@parse_value_stringify v Hwf
                (S (List.length (JSON_stringify v))) []) as P.
  rewrite app_nil_r in P. rewrite P; [reflexivity| |exact I].
  pose proof (json_size_le_length v). lia.
Qed.

End ParseStringify.

(** ** The stored collections *)

Section StoredCollections.

Ltac distinct_names :=
  repeat (apply NoDup_cons; [simpl; intuition discriminate|]); apply NoDup_nil.

Lemma wf_all_map {A : Type} (f : A -> json) (l : list A) :
  (forall x, wf_json (f x)) ->
  fold_right (fun x acc => wf_json x /\ acc) True (List.map f l).
Proof.
  intros H. induction l; simpl; auto.
Qed.

Lemma traverse_map {A B : Type} (f : A -> B) (g : B -> option A) (l : list A) :
  (forall x, g (f x) = Some x) -> traverse g (List.map f l) = Some l.
Proof.
  intros H. induction l as [|x l IH]; [reflexivity|].
  simpl. now rewrite H, IH.
Qed.

Lemma message_wf (m : Message.t) : wf_json (Message.to_json m).
Proof.
  simpl. split; [distinct_names|tauto].
Qed.

Lemma message_of_to_json (m : Message.t) :
  Message.of_json (Message.to_json m) = Some m.
Proof.
  destruct m as [i c [|] ts]; reflexivity.
Qed.

Lemma conversation_wf (c : Conversation.t) : wf_json (Conversation.to_json c).
Proof.
  simpl. split; [distinct_names|].
  repeat split. apply (wf_all_map Message.to_json), message_wf.
Qed.

Lemma conversation_of_to_json (c : Conversation.t) :
  Conversation.of_json (Conversation.to_json c) = Some c.
Proof.
  destruct c as [i ti ms ca]. unfold Conversation.of_json, Conversation.to_json.
  simpl. unfold array_of_json.
  now rewrite (traverse_map Message.to_json Message.of_json ms message_of_to_json).
Qed.

Lemma document_wf (d : KnowledgeDocument.t) : wf_json (KnowledgeDocument.to_json d).
Proof.
  simpl. split; [distinct_names|tauto].
Qed.

Lemma document_of_to_json (d : KnowledgeDocument.t) :
  KnowledgeDocument.of_json (KnowledgeDocument.to_json d) = Some d.
Proof.
  destruct d as [i n c u sz]. unfold KnowledgeDocument.of_json. simpl.
  destruct (Z.ltb_spec (Z.of_N sz) 0) as [H|H]; [lia|].
  now rewrite N2Z.id.
Qed.

Lemma deserialize_serialize_conversations (cs : list Conversation.t) :
  deserialize_conversations (serialize_conversations cs) = Some cs.
Proof.
  unfold deserialize_conversations, serialize_conversations.
  rewrite JSON_parse_stringify.
  - apply traverse_map, conversation_of_to_json.
  - apply (wf_all_map Conversation.to_json), conversation_wf.
Qed.

Lemma deserialize_serialize_documents (ds : list KnowledgeDocument.t) :
  deserialize_documents (serialize_documents ds) = Some ds.
Proof.
  unfold deserialize_documents, serialize_documents.
  rewrite JSON_parse_stringify.
  - apply traverse_map, document_of_to_json.
  - apply (wf_all_map KnowledgeDocument.to_json), document_wf.
Qed.

(** C8. Serializing the conversation collection, or the document
    collection, to the text kept in the persistent store and reading that
    text back gives the collection itself: the same items in the same
    order, with the same ids, contents and timestamps. *)
Theorem stored_collections_round_trip :
  (forall cs : list Conversation.t,
      deserialize_conversations (serialize_conversations cs) = Some cs)
  /\ (forall ds : list KnowledgeDocument.t,
         deserialize_documents (serialize_documents ds) = Some ds).
Proof.
  split.
  - apply deserialize_serialize_conversations.
  - apply deserialize_serialize_documents.
Qed.

End StoredCollections.

(** ** Rendering a byte count *)

Section FileSize.

Lemma unit_index_large (bytes : N) :
  1024 ^ 3 <= bytes -> (3 <= unit_index bytes)%nat.
Proof.
  intros H. unfold unit_index.
  assert (L : 30 <= N.log2 bytes).
  { change 30 with (N.log2 (2 ^ 30)). apply N.log2_le_mono.
    change (2 ^ 30) with (1024 ^ 3). exact H. }
  assert (D : 3 <= N.log2 bytes / 10).
  { change 3 with (30 / 10). apply N.Div0.div_le_mono. exact L. }
  lia.
Qed.

Lemma unit_index_small (bytes : N) :
  0 < bytes -> bytes < 1024 ^ 3 -> (unit_index bytes < 3)%nat.
Proof.
  intros H0 H. unfold unit_index.
  assert (L : N.log2 bytes < 30).
  { apply N.log2_lt_pow2; [exact H0|]. change (2 ^ 30) with (1024 ^ 3). exact H. }
  assert (D : N.log2 bytes / 10 < 3).
  { apply N.Div0.div_lt_upper_bound. lia. }
  lia.
Qed.

(** C10. The list of units holds "Bytes", "KB" and "MB" only.  For a byte
    count of at least 1024^3 the unit index is 3 or more, no unit is found
    and the text ends in "undefined"; for a positive byte count below
    1024^3 the text ends in one of the three units. *)
Theorem formatFileSize_units (bytes : N) :
  sizes = [js "Bytes"; js "KB"; js "MB"]
  /\ (1024 ^ 3 <= bytes ->
      nth_error sizes (unit_index bytes) = None
      /\ formatFileSize bytes
         = hundredths_toString (hundredths bytes (unit_index bytes))
             ++ js " " ++ js "undefined")
  /\ (0 < bytes -> bytes < 1024 ^ 3 ->
      exists u, nth_error sizes (unit_index bytes) = Some u
                /\ formatFileSize bytes
                   = hundredths_toString (hundredths bytes (unit_index bytes))
                       ++ js " " ++ u).
Proof.
  split; [reflexivity|]. split.
  - intros H. pose proof (unit_index_large bytes H) as I.
    assert (E : nth_error sizes (unit_index bytes) = None).
    { apply nth_error_None. simpl. exact I. }
    split; [exact E|].
    unfold formatFileSize, unit_label. rewrite E.
    destruct (N.eqb_spec bytes 0) as [Z|_]; [|reflexivity].
    subst bytes. exfalso. now apply H.
  - intros H0 H. pose proof (unit_index_small bytes H0 H) as I.
    destruct (nth_error sizes (unit_index bytes)) as [u|] eqn:E.
    + exists u. split; [reflexivity|].
      unfold formatFileSize, unit_label. rewrite E.
      destruct (N.eqb_spec bytes 0) as [Z|_]; [lia|reflexivity].
    + apply nth_error_None in E. simpl in E. lia.
Qed.

Lemma formatFileSize_units_witness :
  1024 ^ 3 <= 1073741824
  /\ nth_error sizes (unit_index 1073741824) = None
  /\ formatFileSize 1073741824 = js "1 undefined".
Proof.
  assert (H : 1024 ^ 3 <= 1073741824) by (vm_compute; discriminate).
  split; [exact H|].
  exact (proj1 (proj2 (formatFileSize_units 1073741824)) H).
Defined.

End FileSize.

(** ** The request of a send *)

Section RequestAssembly.

Lemma occurs_in_refl_app (needle before after : jsstring) :
  occurs_in needle (before ++ needle ++ after).
Proof.
  now exists before, after.
Qed.

Lemma occurs_in_app_l (needle text more : jsstring) :
  occurs_in needle text -> occurs_in needle (text ++ more).
Proof.
  intros (b & a & ->). exists b, (a ++ more). now rewrite <- !app_assoc.
Qed.

Lemma occurs_in_app_r (needle text more : jsstring) :
  occurs_in needle text -> occurs_in needle (more ++ text).
Proof.
  intros (b & a & ->). exists (more ++ b), a. now rewrite <- !app_assoc.
Qed.

Lemma occurs_in_join (sep part : jsstring) (parts : list jsstring) :
  In part parts -> occurs_in part (join sep parts).
Proof.
  induction parts as [|p ps IH]; [intros []|].
  intros [->|H].
  - rewrite join_cons. exists [], (flat_map (fun q => sep ++ q) ps). reflexivity.
  - destruct ps as [|q ps]; [destruct H|].
    change (join sep (p :: q :: ps)) with (p ++ sep ++ join sep (q :: ps)).
    apply occurs_in_app_r, occurs_in_app_r, IH, H.
Qed.

Lemma document_in_context (doc : KnowledgeDocument.t) (docs : list KnowledgeDocument.t) :
  In doc docs ->
  occurs_in (KnowledgeDocument.name doc) (knowledgeContext docs)
  /\ occurs_in (KnowledgeDocument.content doc) (knowledgeContext docs).
Proof.
  intros H. unfold knowledgeContext.
  destruct docs as [|d ds]; [destruct H|]. cbn [List.length Nat.ltb Nat.leb].
  assert (E : occurs_in (document_entry doc)
                (join document_separator (List.map document_entry (d :: ds)))).
  { apply occurs_in_join, in_map, H. }
  destruct E as (b & a & E). rewrite E. unfold document_entry. split.
  - exists (knowledge_header ++ b ++ js "Document: "),
      (([10] ++ KnowledgeDocument.content doc) ++ a).
    now rewrite <- !app_assoc.
  - exists (knowledge_header ++ b ++ js "Document: " ++ KnowledgeDocument.name doc ++ [10]), a.
    now rewrite <- !app_assoc.
Qed.

Lemma sendBegin_request (now : N) (d : Date) (st st' : State) (p : Pending) :
  sendBegin now d st = Some (st', p) ->
  exists cid,
    currentConversationId st = Some cid
    /\ p_currentConversationId p = cid
    /\ p_request p = buildRequest (input st) (knowledgeDocuments st) cid.
Proof.
  unfold sendBegin, current_id.
  destruct (currentConversationId st) as [[|c s]|]; try discriminate.
  destruct (blank_text (input st) || loading st); [discriminate|].
  intros E. injection E as _ <-. eexists. repeat split.
Qed.

End RequestAssembly.

(** ** The document store *)

Section DocumentStore.

Lemma addDocument_documents (name content : jsstring) (now : N) (d : Date) (st : State) :
  knowledgeDocuments (addDocument name content now d st)
  = if valid_call (mkCall name content now d)
    then document_of_call (mkCall name content now d) :: knowledgeDocuments st
    else knowledgeDocuments st.
Proof.
  unfold addDocument, handleAddDocument, valid_call, document_of_call.
  cbn [uploadName uploadContent setUploadName setUploadContent
       call_name call_content call_now call_date].
  destruct (blank_text name), (blank_text content); reflexivity.
Qed.

Lemma addDocuments_documents (calls : list UploadCall) (st : State) :
  knowledgeDocuments (addDocuments calls st)
  = rev (List.map document_of_call (List.filter valid_call calls))
      ++ knowledgeDocuments st.
Proof.
  revert st; induction calls as [|[n c now d] calls IH]; intros st; [reflexivity|].
  cbn [addDocuments call_name call_content call_now call_date].
  rewrite IH, addDocument_documents. cbn [List.filter].
  destruct (valid_call (mkCall n c now d)); [|reflexivity].
  cbn [List.map rev]. now rewrite <- app_assoc.
Qed.

End DocumentStore.

(** ** The reply of the agent *)

Section ResponseExtraction.

Lemma or_else_first_non_empty (a : jsval) (cs : list jsval) (fallback : jsval) :
  or_else a (first_non_empty cs fallback) = first_non_empty (a :: cs) fallback.
Proof. reflexivity. Qed.

Lemma truthy_raw_string (v : jsval) :
  truthy (match v with Some (JStr s) => Some (JStr s) | _ => Some JNull end)
  = truthy (raw_string v).
Proof.
  destruct v as [[| | | | |]|]; reflexivity.
Qed.

(** On a body whose [success] and [response] are set, the content is the
    first candidate of the chain that is not empty. *)
Lemma extract_chain (data : json) :
  data <> JNull ->
  truthy (member data (js "success")) = true ->
  truthy (member data (js "response")) = true ->
  extractAssistantContent data
  = Some (first_non_empty
            [opt_member (member data (js "response")) (js "result");
             opt_member (member data (js "response")) (js "response");
             opt_member (member data (js "response")) (js "text");
             raw_string (member data (js "response"));
             member data (js "raw_response")]
            (Some (JStr no_response_text))).
Proof.
  intros Hn Hs Hr. unfold extractAssistantContent.
  rewrite Hs, Hr. cbn [andb].
  assert (E : forall rest,
             or_else (match member data (js "response") with
                      | Some (JStr s) => Some (JStr s)
                      | _ => Some JNull
                      end) rest
             = or_else (raw_string (member data (js "response"))) rest).
  { intros rest. unfold or_else. rewrite truthy_raw_string.
    destruct (member data (js "response")) as [[| | | | |]|]; reflexivity. }
  rewrite E. destruct data; try reflexivity. contradiction.
Qed.

Lemma appendAssistant_displayed (p : Pending) (text : jsstring) (now : N)
    (d : Date) (st : State) :
  displayed_reply (appendAssistant p text now d st) = Some text.
Proof.
  unfold appendAssistant, displayed_reply.
  destruct (replaceMessages _ _ _ _) as [h cs].
  cbn [messages setLoading setConversations setHeap setMessages].
  now rewrite rev_app_distr.
Qed.

(** On any other body that is not [null], the content is the raw response
    when it is not empty, else a fixed text. *)
Lemma extract_otherwise (data : json) :
  data <> JNull ->
  truthy (member data (js "success")) && truthy (member data (js "response")) = false ->
  extractAssistantContent data
  = Some (if truthy (member data (js "raw_response"))
          then member data (js "raw_response")
          else Some (JStr processing_error_text)).
Proof.
  intros Hn H. unfold extractAssistantContent. rewrite H.
  destruct data; try contradiction;
    destruct (truthy (member _ (js "raw_response"))); reflexivity.
Qed.

End ResponseExtraction.

(** ** The object store *)

Section HeapFacts.

Lemma deref_app_old (h ext : Heap) (r : ref) :
  (r < List.length h)%nat -> deref (h ++ ext) r = deref h r.
Proof.
  intros H. unfold deref. now apply app_nth1.
Qed.

Lemma deref_alloc_new (h : Heap) (c : Conversation.t) :
  deref (h ++ [c]) (List.length h) = c.
Proof.
  unfold deref. apply nth_middle.
Qed.

Lemma map_deref_app (h ext : Heap) (cs : list ref) :
  Forall (fun r => (r < List.length h)%nat) cs ->
  List.map (deref (h ++ ext)) cs = List.map (deref h) cs.
Proof.
  induction 1 as [|r cs Hr _ IH]; [reflexivity|].
  simpl. now rewrite IH, deref_app_old.
Qed.

Lemma write_length (r : ref) (f : Conversation.t -> Conversation.t) (h : Heap) :
  List.length (write r f h) = List.length h.
Proof.
  revert r; induction h as [|c h IH]; intros [|r]; simpl; auto.
Qed.

Lemma deref_write_same (r : ref) (f : Conversation.t -> Conversation.t) (h : Heap) :
  (r < List.length h)%nat -> deref (write r f h) r = f (deref h r).
Proof.
  revert r; induction h as [|c h IH]; intros [|r] H; simpl in *; try lia.
  - reflexivity.
  - apply IH. lia.
Qed.

Lemma deref_write_other (r r' : ref) (f : Conversation.t -> Conversation.t) (h : Heap) :
  r' <> r -> deref (write r f h) r' = deref h r'.
Proof.
  revert r r'; induction h as [|c h IH]; intros [|r] [|r'] H; simpl;
    try reflexivity; try contradiction.
  apply IH. congruence.
Qed.

Lemma map_deref_write (r : ref) (f : Conversation.t -> Conversation.t) (h : Heap)
    (cs : list ref) :
  ~ In r cs -> List.map (deref (write r f h)) cs = List.map (deref h) cs.
Proof.
  induction cs as [|r' cs IH]; intros H; [reflexivity|].
  simpl in *. rewrite IH by tauto.
  rewrite deref_write_other; [reflexivity|]. intros ->. tauto.
Qed.

Lemma refs_in_app (h ext : Heap) (cs : list ref) :
  refs_in h cs -> refs_in (h ++ ext) cs.
Proof.
  intros [Hn Hv]. split; [exact Hn|].
  eapply Forall_impl; [|exact Hv]. cbv beta. intros r Hr.
  rewrite length_app. lia.
Qed.

Lemma refs_in_alloc (h : Heap) (c : Conversation.t) (cs : list ref) :
  refs_in h cs -> refs_in (h ++ [c]) (List.length h :: cs).
Proof.
  intros [Hn Hv]. split.
  - constructor; [|exact Hn]. intros I.
    rewrite Forall_forall in Hv. apply Hv in I. lia.
  - constructor.
    + rewrite length_app. simpl. lia.
    + eapply Forall_impl; [|exact Hv]. cbv beta. intros r Hr.
      rewrite length_app. lia.
Qed.

(** [replaceMessages] on the values: the conversations of the given id get
    the new messages, the others are the objects they were. *)
Lemma replaceMessages_spec (cid : jsstring) (ms : list Message.t) (cs : list ref) :
  forall h, refs_in h cs ->
    exists ext,
      fst (replaceMessages cid ms h cs) = h ++ ext
      /\ refs_in (h ++ ext) (snd (replaceMessages cid ms h cs))
      /\ (forall r, In r (snd (replaceMessages cid ms h cs)) ->
            In r cs \/ (List.length h <= r)%nat)
      /\ List.map (deref (h ++ ext)) (snd (replaceMessages cid ms h cs))
         = with_messages_of cid ms (List.map (deref h) cs).
Proof.
  induction cs as [|r cs IH]; intros h [Hn Hv].
  - exists []. rewrite app_nil_r. simpl.
    split; [reflexivity|]. split; [split; constructor|].
    split; [intros ? []|reflexivity].
  - inversion Hn as [|? ? Hr Hn']; subst. inversion Hv as [|? ? Hlt Hv']; subst.
    cbn [replaceMessages alloc].
    destruct (JsString.eqb (Conversation.id (deref h r)) cid) eqn:E.
    + set (c' := Conversation.with_messages ms (deref h r)).
      destruct (IH (h ++ [c'])) as (ext & E1 & [Hn2 Hv2] & Hin & Hmap).
      { apply refs_in_app. now split. }
      destruct (replaceMessages cid ms (h ++ [c']) cs) as [h2 cs2].
      cbn [fst snd] in *. exists (c' :: ext).
      replace (h ++ c' :: ext) with ((h ++ [c']) ++ ext)
        by (rewrite <- app_assoc; reflexivity).
      split; [exact E1|]. split; [split|split].
      * constructor; [|exact Hn2]. intros I. apply Hin in I as [I|I].
        -- rewrite Forall_forall in Hv'. apply Hv' in I. lia.
        -- rewrite length_app in I. simpl in I. lia.
      * constructor; [|exact Hv2]. rewrite !length_app. simpl. lia.
      * intros r' [<-|I]; [right; lia|].
        apply Hin in I as [I|I]; [left; now right|right].
        rewrite length_app in I. lia.
      * cbn [List.map with_messages_of]. rewrite E. f_equal.
        -- rewrite deref_app_old by (rewrite length_app; simpl; lia).
           apply deref_alloc_new.
        -- rewrite Hmap. unfold with_messages_of. f_equal.
           now apply map_deref_app.
    + destruct (IH h) as (ext & E1 & [Hn2 Hv2] & Hin & Hmap); [now split|].
      destruct (replaceMessages cid ms h cs) as [h2 cs2].
      cbn [fst snd] in *. exists ext.
      split; [exact E1|]. split; [split|split].
      * constructor; [|exact Hn2]. intros I. apply Hin in I as [I|I]; [tauto|lia].
      * constructor; [|exact Hv2]. rewrite length_app. lia.
      * intros r' [<-|I]; [left; now left|].
        apply Hin in I as [I|I]; [left; now right|now right].
      * cbn [List.map with_messages_of]. rewrite E. f_equal.
        -- now apply deref_app_old.
        -- exact Hmap.
Qed.

End HeapFacts.

(** ** The handlers on the collection *)

Ltac fields :=
  cbn [heap conversations currentConversationId messages input loading
       knowledgeDocuments showUploadDialog uploadName uploadContent localStorage
       conversationsChanged knowledgeDocumentsChanged
       setHeap setConversations setCurrentConversationId setMessages setInput
       setLoading setKnowledgeDocuments setShowUploadDialog setUploadName
       setUploadContent setLocalStorage clearChanged] in *.

Section HandlerFacts.

(** A commit writes to [localStorage] and nothing else. *)
Lemma commit_shape (st : State) :
  exists ls,
    commit st
    = mkState (heap st) (conversations st) (currentConversationId st) (messages st)
        (input st) (loading st) (knowledgeDocuments st) (showUploadDialog st)
        (uploadName st) (uploadContent st) ls false false.
Proof.
  unfold commit, saveConversations, saveKnowledgeDocuments.
  destruct (conversationsChanged st), (0 <? List.length (conversations st))%nat;
    fields;
    destruct (knowledgeDocumentsChanged st),
             (0 <? List.length (knowledgeDocuments st))%nat;
    fields; eexists; reflexivity.
Qed.

Lemma commit_conversation_list (st : State) :
  conversation_list (commit st) = conversation_list st.
Proof.
  destruct (commit_shape st) as [ls ->]. reflexivity.
Qed.

Lemma commit_active (st : State) :
  active_conversation (commit st) = active_conversation st.
Proof.
  destruct (commit_shape st) as [ls ->]. reflexivity.
Qed.

Lemma find_conversation_list (cid : jsstring) (st : State) :
  find_conversation cid (heap st) (conversations st)
  = List.find (fun c => JsString.eqb (Conversation.id c) cid) (conversation_list st).
Proof. reflexivity. Qed.

Lemma createNewConversation_list (now : N) (d1 d2 : Date) (st : State) :
  refs_valid st ->
  refs_valid (createNewConversation now d1 d2 st)
  /\ conversation_list (createNewConversation now d1 d2 st)
     = Conversation.mk (N_toString now) default_title
         [Message.mk (js "1") greeting Message.assistant (toLocaleString d1)]
         (toISOString d2)
       :: conversation_list st.
Proof.
  intros Hv. unfold createNewConversation, conversation_list, refs_valid, alloc in *.
  fields. split.
  - now apply refs_in_alloc.
  - cbn [List.map]. rewrite deref_alloc_new. f_equal.
    apply map_deref_app, Hv.
Qed.

(** The index found is the position of the first conversation of that id. *)
Lemma findIndex_nth (cid : jsstring) (h : Heap) (cs : list ref) (i : nat) :
  findIndex cid h cs = Some i ->
  exists r, nth_error cs i = Some r /\ In r cs.
Proof.
  revert i; induction cs as [|r cs IH]; intros i; [discriminate|].
  cbn [findIndex]. destruct (JsString.eqb (Conversation.id (deref h r)) cid).
  - intros E. injection E as <-. exists r. split; [reflexivity|now left].
  - destruct (findIndex cid h cs) as [j|]; [|discriminate].
    intros E. injection E as <-. destruct (IH j eq_refl) as (r' & E & I).
    exists r'. split; [exact E|now right].
Qed.

Lemma retitle_none (cid newTitle : jsstring) (h : Heap) (cs : list ref) :
  findIndex cid h cs = None ->
  retitle_first cid newTitle (List.map (deref h) cs) = List.map (deref h) cs.
Proof.
  induction cs as [|r cs IH]; [reflexivity|].
  cbn [findIndex List.map retitle_first].
  destruct (JsString.eqb (Conversation.id (deref h r)) cid); [discriminate|].
  destruct (findIndex cid h cs); [discriminate|].
  intros _. now rewrite IH.
Qed.

(** The write through the reference found is the update of the first
    conversation of that id, and of no other. *)
Lemma retitle_heap (cid newTitle : jsstring) (h : Heap) (cs : list ref) :
  refs_in h cs ->
  forall i r, findIndex cid h cs = Some i -> nth_error cs i = Some r ->
    List.map
      (deref (if (List.length (Conversation.messages (deref h r)) =? 1)%nat
              then write r (Conversation.with_title newTitle) h else h)) cs
    = retitle_first cid newTitle (List.map (deref h) cs).
Proof.
  induction cs as [|r0 cs IH]; intros [Hn Hf] i r Ei En; [discriminate Ei|].
  inversion Hn as [|? ? Hnot Hn']; subst. inversion Hf as [|? ? Hlt Hf']; subst.
  cbn [findIndex List.map retitle_first] in *.
  destruct (JsString.eqb (Conversation.id (deref h r0)) cid) eqn:E.
  - injection Ei as <-. cbn [nth_error] in En. injection En as <-.
    destruct (List.length (Conversation.messages (deref h r0)) =? 1)%nat;
      [|reflexivity].
    rewrite deref_write_same by exact Hlt. f_equal.
    now apply map_deref_write.
  - destruct (findIndex cid h cs) as [j|] eqn:Ej; [|discriminate].
    injection Ei as <-. cbn [nth_error] in En.
    rewrite <- (IH (conj Hn' Hf') j r eq_refl En). f_equal.
    destruct (List.length (Conversation.messages (deref h r)) =? 1)%nat;
      [|reflexivity].
    apply deref_write_other. intros ->.
    apply Hnot. eapply nth_error_In, En.
Qed.

Lemma updateTitle_list (cid text : jsstring) (st : State) :
  refs_valid st ->
  refs_valid (updateTitle cid text st)
  /\ conversations (updateTitle cid text st) = conversations st
  /\ conversation_list (updateTitle cid text st)
     = retitle_first cid (substring0 50 text) (conversation_list st).
Proof.
  intros Hv. unfold refs_valid, conversation_list, updateTitle in *.
  destruct (findIndex cid (heap st) (conversations st)) as [i|] eqn:Ei.
  - destruct (findIndex_nth cid (heap st) (conversations st) i Ei) as (r & En & _).
    rewrite En.
    pose proof (retitle_heap cid (substring0 50 text) (heap st) (conversations st)
                  Hv i r Ei En) as R.
    destruct (List.length (Conversation.messages (deref (heap st) r)) =? 1)%nat;
      fields; repeat split; try exact R; try apply Hv.
    rewrite write_length. apply Hv.
  - rewrite retitle_none by exact Ei. repeat split; apply Hv.
Qed.


Lemma updateTitle_fields (cid text : jsstring) (st : State) :
  messages (updateTitle cid text st) = messages st
  /\ currentConversationId (updateTitle cid text st) = currentConversationId st
  /\ knowledgeDocuments (updateTitle cid text st) = knowledgeDocuments st
  /\ input (updateTitle cid text st) = input st
  /\ loading (updateTitle cid text st) = loading st
  /\ localStorage (updateTitle cid text st) = localStorage st.
Proof.
  unfold updateTitle.
  destruct (findIndex cid (heap st) (conversations st)) as [i|]; [|tauto].
  destruct (nth_error (conversations st) i) as [r|]; [|tauto].
  destruct (List.length (Conversation.messages (deref (heap st) r)) =? 1)%nat;
    fields; tauto.
Qed.

Lemma find_retitle_first (cid newTitle : jsstring) (cs : list Conversation.t) :
  List.find (fun c => JsString.eqb (Conversation.id c) cid)
    (retitle_first cid newTitle cs)
  = option_map
      (fun c => if (List.length (Conversation.messages c) =? 1)%nat
                then Conversation.with_title newTitle c else c)
      (List.find (fun c => JsString.eqb (Conversation.id c) cid) cs).
Proof.
  induction cs as [|c cs IH]; [reflexivity|].
  cbn [retitle_first List.find].
  destruct (JsString.eqb (Conversation.id c) cid) eqn:E.
  - cbn [List.find option_map].
    destruct (List.length (Conversation.messages c) =? 1)%nat;
      cbn [Conversation.with_title Conversation.id]; now rewrite E.
  - cbn [List.find]. now rewrite E.
Qed.

Lemma find_with_messages_of (cid : jsstring) (ms : list Message.t)
    (cs : list Conversation.t) :
  List.find (fun c => JsString.eqb (Conversation.id c) cid)
    (with_messages_of cid ms cs)
  = option_map (Conversation.with_messages ms)
      (List.find (fun c => JsString.eqb (Conversation.id c) cid) cs).
Proof.
  induction cs as [|c cs IH]; [reflexivity|].
  cbn [with_messages_of List.map List.find].
  destruct (JsString.eqb (Conversation.id c) cid) eqn:E.
  - cbn [Conversation.with_messages Conversation.id]. now rewrite E.
  - rewrite E. exact IH.
Qed.

(** The first part of a send that goes out. *)
Lemma sendBegin_effect (now : N) (d : Date) (st st1 : State) (p : Pending) :
  refs_valid st ->
  sendBegin now d st = Some (st1, p) ->
  exists cid,
    currentConversationId st = Some cid
    /\ blank_text (input st) = false /\ loading st = false
    /\ p = mkPending (conversations st)
             (messages st
                ++ [Message.mk (N_toString now) (input st) Message.user
                      (formatTimestamp d)])
             cid (buildRequest (input st) (knowledgeDocuments st) cid)
    /\ refs_valid st1
    /\ conversations st1 = conversations st
    /\ conversation_list st1
       = retitle_first cid (substring0 50 (input st)) (conversation_list st)
    /\ messages st1
       = messages st
           ++ [Message.mk (N_toString now) (input st) Message.user
                 (formatTimestamp d)]
    /\ currentConversationId st1 = Some cid
    /\ knowledgeDocuments st1 = knowledgeDocuments st.
Proof.
  intros Hv. unfold sendBegin, current_id.
  destruct (currentConversationId st) as [[|c s]|] eqn:Ec; try discriminate.
  destruct (blank_text (input st)) eqn:Eb; [discriminate|].
  destruct (loading st) eqn:El; [discriminate|]. cbn [orb].
  intros E. injection E as <- <-. exists (c :: s).
  set (st0 := setLoading true (setInput [] (setMessages _ st))).
  destruct (updateTitle_list (c :: s) (input st) st0 Hv) as (V & C & L).
  destruct (updateTitle_fields (c :: s) (input st) st0) as (M & I & K & _).
  split; [reflexivity|]. split; [reflexivity|]. split; [reflexivity|].
  split; [reflexivity|]. split; [exact V|]. split; [exact C|].
  split; [exact L|]. split; [exact M|]. split; [|exact K].
  rewrite I. exact Ec.
Qed.

(** The second part, on the references the first part held on to. *)
Lemma appendAssistant_effect (p : Pending) (text : jsstring) (now : N) (d : Date)
    (st : State) :
  refs_in (heap st) (p_conversations p) ->
  refs_valid (appendAssistant p text now d st)
  /\ conversation_list (appendAssistant p text now d st)
     = with_messages_of (p_currentConversationId p)
         (p_updatedMessages p
            ++ [Message.mk (N_toString (now + 1)) text Message.assistant
                  (formatTimestamp d)])
         (List.map (deref (heap st)) (p_conversations p))
  /\ messages (appendAssistant p text now d st)
     = p_updatedMessages p
         ++ [Message.mk (N_toString (now + 1)) text Message.assistant
               (formatTimestamp d)]
  /\ currentConversationId (appendAssistant p text now d st)
     = currentConversationId st
  /\ knowledgeDocuments (appendAssistant p text now d st) = knowledgeDocuments st
  /\ loading (appendAssistant p text now d st) = false.
Proof.
  intros Hv. unfold appendAssistant, refs_valid, conversation_list.
  destruct (replaceMessages_spec (p_currentConversationId p)
              (p_updatedMessages p
                 ++ [Message.mk (N_toString (now + 1)) text Message.assistant
                       (formatTimestamp d)])
              (p_conversations p) (heap st) Hv) as (ext & E1 & V & _ & M).
  destruct (replaceMessages _ _ _ _) as [h cs]. cbn [fst snd] in *. subst h.
  fields. repeat split; try assumption; apply V.
Qed.

Lemma map_deref_seq (pre h : Heap) :
  List.map (deref (pre ++ h)) (seq (List.length pre) (List.length h)) = h.
Proof.
  revert pre; induction h as [|c h IH]; intros pre; [reflexivity|].
  cbn [List.length seq List.map]. f_equal.
  - unfold deref. apply nth_middle.
  - specialize (IH (pre ++ [c])).
    rewrite <- app_assoc, length_app in IH. cbn [app List.length] in IH.
    rewrite Nat.add_1_r in IH. exact IH.
Qed.

End HandlerFacts.

(** ** One whole turn, and the invariant of the reachable states *)

Section Turns.

(** A send that goes out: the title rule, then both messages on every
    conversation of the active id. *)
Lemma send_effect (now1 : N) (d1 : Date) (now2 : N) (d2 : Date) (text : jsstring)
    (st st1 : State) (p : Pending) :
  refs_valid st ->
  sendBegin now1 d1 st = Some (st1, p) ->
  exists cid,
    currentConversationId st = Some cid
    /\ refs_valid (appendAssistant p text now2 d2 (commit st1))
    /\ conversation_list (appendAssistant p text now2 d2 (commit st1))
       = with_messages_of cid
           (messages st
              ++ [Message.mk (N_toString now1) (input st) Message.user
                    (formatTimestamp d1);
                  Message.mk (N_toString (now2 + 1)) text Message.assistant
                    (formatTimestamp d2)])
           (retitle_first cid (substring0 50 (input st)) (conversation_list st))
    /\ messages (appendAssistant p text now2 d2 (commit st1))
       = messages st
           ++ [Message.mk (N_toString now1) (input st) Message.user
                 (formatTimestamp d1);
               Message.mk (N_toString (now2 + 1)) text Message.assistant
                 (formatTimestamp d2)]
    /\ currentConversationId (appendAssistant p text now2 d2 (commit st1)) = Some cid
    /\ knowledgeDocuments (appendAssistant p text now2 d2 (commit st1))
       = knowledgeDocuments st
    /\ loading (appendAssistant p text now2 d2 (commit st1)) = false.
Proof.
  intros Hv Hb.
  destruct (sendBegin_effect now1 d1 st st1 p Hv Hb)
    as (cid & Ec & _ & _ & Ep & V1 & C1 & L1 & M1 & I1 & K1).
  exists cid. split; [exact Ec|].
  destruct (commit_shape st1) as [ls Es]. rewrite Es.
  match goal with |- context [appendAssistant p text now2 d2 ?s] =>
    destruct (appendAssistant_effect p text now2 d2 s) as (V & L & M & I & K & Lo)
  end.
  { subst p. cbn [p_conversations heap]. rewrite <- C1. exact V1. }
  cbn [heap currentConversationId knowledgeDocuments] in *.
  subst p. cbn [p_conversations p_updatedMessages p_currentConversationId] in *.
  rewrite <- app_assoc in L, M. cbn [app] in L, M.
  split; [exact V|]. split.
  - rewrite L. f_equal. rewrite <- L1. unfold conversation_list. now rewrite C1.
  - split; [exact M|]. split; [now rewrite I|]. split; [now rewrite K|exact Lo].
Qed.

(** The reply decides the text of the second message only. *)
Lemma sendFinish_text (p : Pending) (reply : Reply) (now : N) (d : Date)
    (st st' : State) :
  sendFinish p reply now d st = Some st' ->
  exists text,
    st' = appendAssistant p text now d st
    /\ (call_throws reply = true -> text = apology_text).
Proof.
  unfold sendFinish, call_throws. destruct reply as [|data].
  - intros E. injection E as <-. eauto.
  - destruct (extractAssistantContent data) as [[[| | |text| |]|]|];
      try discriminate; intros E; injection E as <-; eexists;
      (split; [reflexivity|]); try discriminate; reflexivity.
Qed.

Lemma thread_after_send (cid newTitle : jsstring) (ms : list Message.t)
    (cs : list Conversation.t) (c : Conversation.t) :
  List.find (fun c => JsString.eqb (Conversation.id c) cid) cs = Some c ->
  List.find (fun c => JsString.eqb (Conversation.id c) cid)
    (with_messages_of cid ms (retitle_first cid newTitle cs))
  = Some (Conversation.with_messages ms
            (if (List.length (Conversation.messages c) =? 1)%nat
             then Conversation.with_title newTitle c else c)).
Proof.
  intros H. now rewrite find_with_messages_of, find_retitle_first, H.
Qed.

Lemma mount_invariant (ls : Storage.t) (st : State) :
  mount ls = Some st -> invariant st.
Proof.
  unfold mount. intros H.
  assert (I1 : forall st1, loadConversations (initialState ls) = Some st1 ->
                 refs_valid st1 /\ thread_consistent st1 /\ loading st1 = false).
  { intros st1. unfold loadConversations, initialState. fields.
    destruct (Storage.getItem key_conversations ls) as [[|c s]|].
    - intros E. injection E as <-. repeat split; constructor.
    - destruct (deserialize_conversations (c :: s)) as [parsed|]; [|discriminate].
      unfold alloc_all. cbn [app List.length].
      assert (V : refs_in parsed (seq 0 (List.length parsed))).
      { split; [apply seq_NoDup|]. apply Forall_forall. intros r Hr.
        apply in_seq in Hr. lia. }
      destruct parsed as [|first rest] eqn:Ep; intros E; injection E as <-.
      + repeat split; constructor.
      + unfold refs_valid, thread_consistent, find_conversation. fields.
        split; [exact V|]. split; [|reflexivity].
        exists first. split; [|reflexivity].
        match goal with |- context [List.map (deref ?h) ?l] =>
          replace (List.map (deref h) l) with (first :: rest)
            by (symmetry; exact (map_deref_seq [] (first :: rest)))
        end.
        cbn [List.find]. now rewrite eqb_refl.
    - intros E. injection E as <-. repeat split; constructor. }
  destruct (loadConversations (initialState ls)) as [st1|]; [|discriminate].
  destruct (I1 st1 eq_refl) as (V & T & L).
  assert (I2 : forall st2, loadKnowledgeDocuments st1 = Some st2 ->
                 refs_valid st2 /\ thread_consistent st2 /\ loading st2 = false).
  { intros st2. unfold loadKnowledgeDocuments.
    destruct (Storage.getItem key_knowledgeDocuments (localStorage st1)) as [[|c s]|];
      try (intros E; injection E as <-; tauto).
    destruct (deserialize_documents (c :: s)); [|discriminate].
    intros E; injection E as <-. tauto. }
  destruct (loadKnowledgeDocuments st1) as [st2|]; [|discriminate].
  destruct (I2 st2 eq_refl) as (V2 & T2 & L2).
  injection H as <-. destruct (commit_shape st2) as [ls' ->].
  split; [exact V2|]. split; [exact T2|]. split; [exact L2|]. split; reflexivity.
Qed.

Lemma step_invariant (e : Event) (st st' : State) :
  invariant st -> step e st = Some st' -> invariant st'.
Proof.
  intros (V & T & L & _ & _) H.
  assert (G : forall s, refs_valid s -> thread_consistent s -> loading s = false ->
                invariant (commit s)).
  { intros s Vs Ts Ls. destruct (commit_shape s) as [ls ->].
    split; [exact Vs|]. split; [exact Ts|]. split; [exact Ls|]. split; reflexivity. }
  destruct e as [now d1 d2|convId|text|n c|now d|docId|now1 d1 reply now2 d2];
    cbn [step] in H.
  - injection H as <-.
    destruct (createNewConversation_list now d1 d2 st V) as (V' & L').
    apply G; [exact V'| |exact L].
    unfold thread_consistent.
    replace (currentConversationId (createNewConversation now d1 d2 st))
      with (Some (N_toString now)) by reflexivity.
    rewrite find_conversation_list, L'.
    eexists. cbn [List.find Conversation.id]. rewrite eqb_refl.
    split; reflexivity.
  - injection H as <-. unfold switchConversation.
    destruct (find_conversation convId (heap st) (conversations st)) as [c|] eqn:E.
    + apply G; [exact V| |exact L].
      unfold thread_consistent. fields. exists c. now split.
    + now apply G.
  - injection H as <-. now apply G.
  - injection H as <-. now apply G.
  - injection H as <-. unfold handleAddDocument.
    destruct (blank_text (uploadName st) || blank_text (uploadContent st));
      now apply G.
  - injection H as <-. now apply G.
  - unfold handleSendMessage in H.
    destruct (sendBegin now1 d1 st) as [[st1 p]|] eqn:Eb.
    + destruct (sendFinish p reply now2 d2 (commit st1)) as [st2|] eqn:Ef;
        [|discriminate].
      injection H as <-.
      destruct (sendFinish_text _ _ _ _ _ _ Ef) as (text & -> & _).
      destruct (send_effect now1 d1 now2 d2 text st st1 p V Eb)
        as (cid & Ec & V' & L' & M' & I' & _ & Lo).
      apply G; [exact V'| |exact Lo].
      unfold thread_consistent in *. rewrite I', find_conversation_list, L'.
      rewrite Ec in T. destruct T as (c & Fc & _).
      rewrite find_conversation_list in Fc.
      rewrite (thread_after_send _ _ _ _ _ Fc).
      eexists. split; [reflexivity|]. rewrite M'. reflexivity.
    + injection H as <-. now apply G.
Qed.

Lemma reachable_invariant (st : State) : reachable st -> invariant st.
Proof.
  induction 1 as [ls st H|e st st' _ IH H].
  - eapply mount_invariant, H.
  - eapply step_invariant; eassumption.
Qed.

End Turns.

(** ** The conversation store *)

Section ConversationStore.

Lemma run_reachable (es : list Event) (st st' : State) :
  reachable st -> run es st = Some st' -> reachable st'.
Proof.
  revert st; induction es as [|e es IH]; intros st R H; cbn [run] in H.
  - injection H as <-. exact R.
  - destruct (step e st) as [st1|] eqn:E; [|discriminate].
    eapply IH; [|exact H]. eapply reach_step; eassumption.
Qed.

Lemma state_after_reachable (es : list Event) : reachable (state_after es).
Proof.
  assert (R0 : reachable (initialState [])).
  { apply reach_mount with (ls := []). reflexivity. }
  unfold state_after.
  destruct (run es (initialState [])) as [st|] eqn:E; [|exact R0].
  eapply run_reachable; eassumption.
Qed.

(** With an active conversation of a non-empty id and a text that is not
    blank, the guard lets the send out. *)
Lemma sendBegin_goes_out (now : N) (d : Date) (st : State) (c : Conversation.t) :
  reachable st ->
  active_conversation st = Some c ->
  currentConversationId st <> Some [] ->
  blank_text (input st) = false ->
  exists st1 p, sendBegin now d st = Some (st1, p).
Proof.
  intros R A Hne Hb.
  destruct (reachable_invariant st R) as (_ & _ & L & _).
  unfold sendBegin, current_id, active_conversation in *.
  destruct (currentConversationId st) as [[|x s]|]; try discriminate.
  - now contradiction Hne.
  - rewrite Hb, L. cbn [orb]. eauto.
Qed.

(** C6. In every reachable state, creating a conversation succeeds; the
    new conversation holds exactly one message, the greeting, of the
    assistant role; it is put in front of the collection, whose other
    conversations are unchanged; it is the active conversation, its
    messages are the visible thread, and the pending input is cleared. *)
Theorem createConversation_seeds_and_activates (now : N) (d1 d2 : Date) (st : State) :
  reachable st ->
  exists st' c m,
    step (NewChat now d1 d2) st = Some st'
    /\ conversation_list st' = c :: conversation_list st
    /\ Conversation.messages c = [m]
    /\ Message.role m = Message.assistant
    /\ Message.content m = js "Hi! How can I help you today?"
    /\ active_conversation st' = Some c
    /\ currentConversationId st' = Some (Conversation.id c)
    /\ messages st' = Conversation.messages c
    /\ input st' = [].
Proof.
  intros R. destruct (reachable_invariant st R) as (V & _).
  destruct (createNewConversation_list now d1 d2 st V) as (_ & L).
  eexists _, _, _. split; [reflexivity|].
  rewrite commit_conversation_list, commit_active.
  split; [exact L|]. split; [reflexivity|]. split; [reflexivity|].
  split; [reflexivity|]. split.
  - unfold active_conversation.
    replace (currentConversationId (createNewConversation now d1 d2 st))
      with (Some (N_toString now)) by reflexivity.
    rewrite find_conversation_list, L.
    cbn [List.find Conversation.id]. now rewrite eqb_refl.
  - destruct (commit_shape (createNewConversation now d1 d2 st)) as [ls ->].
    repeat split.
Qed.

Lemma createConversation_witness :
  exists st' c m,
    step (NewChat 1704 sample_date sample_date) (state_after sample_events) = Some st'
    /\ conversation_list st' = c :: conversation_list (state_after sample_events)
    /\ Conversation.messages c = [m]
    /\ Message.role m = Message.assistant
    /\ Message.content m = js "Hi! How can I help you today?"
    /\ active_conversation st' = Some c
    /\ currentConversationId st' = Some (Conversation.id c)
    /\ messages st' = Conversation.messages c
    /\ input st' = [].
Proof.
  exact (createConversation_seeds_and_activates 1704 sample_date sample_date
           (state_after sample_events) (state_after_reachable sample_events)).
Defined.

End ConversationStore.

(** ** A turn on the active conversation *)

Section ActiveTurn.

End ActiveTurn.

(** ** The ids of the two collections *)

Section Identifiers.

Lemma ids_retitle_first (cid newTitle : jsstring) (cs : list Conversation.t) :
  List.map Conversation.id (retitle_first cid newTitle cs)
  = List.map Conversation.id cs.
Proof.
  induction cs as [|c cs IH]; [reflexivity|].
  cbn [retitle_first].
  destruct (JsString.eqb (Conversation.id c) cid).
  - destruct (List.length (Conversation.messages c) =? 1)%nat; reflexivity.
  - cbn [List.map]. now rewrite IH.
Qed.

Lemma ids_with_messages_of (cid : jsstring) (ms : list Message.t)
    (cs : list Conversation.t) :
  List.map Conversation.id (with_messages_of cid ms cs)
  = List.map Conversation.id cs.
Proof.
  unfold with_messages_of. rewrite map_map. apply map_ext.
  intros c. destruct (JsString.eqb (Conversation.id c) cid); reflexivity.
Qed.

(** Only the creation of a conversation changes the ids of the
    conversations: it puts the decimal numeral of the clock in front. *)
Lemma step_conversation_ids (e : Event) (st st' : State) :
  reachable st -> step e st = Some st' ->
  List.map Conversation.id (conversation_list st')
  = match e with
    | NewChat now _ _ => N_toString now :: List.map Conversation.id (conversation_list st)
    | _ => List.map Conversation.id (conversation_list st)
    end.
Proof.
  intros R H. destruct (reachable_invariant st R) as (V & _).
  destruct e as [now d1 d2|convId|text|n c|now d|docId|now1 d1 reply now2 d2];
    cbn [step] in H.
  - injection H as <-. rewrite commit_conversation_list.
    destruct (createNewConversation_list now d1 d2 st V) as (_ & ->). reflexivity.
  - injection H as <-. rewrite commit_conversation_list.
    unfold switchConversation.
    destruct (find_conversation convId (heap st) (conversations st)); reflexivity.
  - injection H as <-. now rewrite commit_conversation_list.
  - injection H as <-. now rewrite commit_conversation_list.
  - injection H as <-. rewrite commit_conversation_list.
    unfold handleAddDocument.
    destruct (blank_text (uploadName st) || blank_text (uploadContent st));
      reflexivity.
  - injection H as <-. now rewrite commit_conversation_list.
  - unfold handleSendMessage in H.
    destruct (sendBegin now1 d1 st) as [[st1 p]|] eqn:Eb.
    + destruct (sendFinish p reply now2 d2 (commit st1)) as [st2|] eqn:Ef;
        [|discriminate].
      injection H as <-. rewrite commit_conversation_list.
      destruct (sendFinish_text _ _ _ _ _ _ Ef) as (text & -> & _).
      destruct (send_effect now1 d1 now2 d2 text st st1 p V Eb)
        as (cid & _ & _ & -> & _).
      now rewrite ids_with_messages_of, ids_retitle_first.
    + injection H as <-. now rewrite commit_conversation_list.
Qed.

Lemma commit_documents (st : State) :
  knowledgeDocuments (commit st) = knowledgeDocuments st.
Proof.
  destruct (commit_shape st) as [ls ->]. reflexivity.
Qed.

(** The ids of the documents: a submission puts the numeral of the clock
    in front or changes nothing, a deletion removes an id, nothing else
    changes them. *)
Lemma step_document_ids (e : Event) (st st' : State) :
  reachable st -> step e st = Some st' ->
  match e with
  | SubmitUpload now _ =>
      List.map KnowledgeDocument.id (knowledgeDocuments st')
      = N_toString now :: List.map KnowledgeDocument.id (knowledgeDocuments st)
      \/ List.map KnowledgeDocument.id (knowledgeDocuments st')
         = List.map KnowledgeDocument.id (knowledgeDocuments st)
  | DeleteDoc docId =>
      List.map KnowledgeDocument.id (knowledgeDocuments st')
      = List.filter (fun i => negb (JsString.eqb i docId))
          (List.map KnowledgeDocument.id (knowledgeDocuments st))
  | _ =>
      List.map KnowledgeDocument.id (knowledgeDocuments st')
      = List.map KnowledgeDocument.id (knowledgeDocuments st)
  end.
Proof.
  intros R H. destruct (reachable_invariant st R) as (V & _).
  destruct e as [now d1 d2|convId|text|n c|now d|docId|now1 d1 reply now2 d2];
    cbn [step] in H.
  - injection H as <-. rewrite commit_documents.
    unfold createNewConversation, alloc. reflexivity.
  - injection H as <-. rewrite commit_documents. unfold switchConversation.
    destruct (find_conversation convId (heap st) (conversations st)); reflexivity.
  - injection H as <-. now rewrite commit_documents.
  - injection H as <-. now rewrite commit_documents.
  - injection H as <-. rewrite commit_documents. unfold handleAddDocument.
    destruct (blank_text (uploadName st) || blank_text (uploadContent st));
      [now right|now left].
  - injection H as <-. rewrite commit_documents. unfold deleteDocument. fields.
    induction (knowledgeDocuments st) as [|doc ds IH]; [reflexivity|].
    cbn [List.filter List.map].
    destruct (JsString.eqb (KnowledgeDocument.id doc) docId);
      cbn [negb List.map]; now rewrite IH.
  - unfold handleSendMessage in H.
    destruct (sendBegin now1 d1 st) as [[st1 p]|] eqn:Eb.
    + destruct (sendFinish p reply now2 d2 (commit st1)) as [st2|] eqn:Ef;
        [|discriminate].
      injection H as <-. rewrite commit_documents.
      destruct (sendFinish_text _ _ _ _ _ _ Ef) as (text & -> & _).
      destruct (send_effect now1 d1 now2 d2 text st st1 p V Eb)
        as (cid & _ & _ & _ & _ & _ & -> & _).
      reflexivity.
    + injection H as <-. now rewrite commit_documents.
Qed.

(** C9, as stated, fails: two conversations created at the same clock
    reading have the same id, and so have two documents. *)
Lemma same_clock_same_id :
  exists st,
    run [NewChat 1700 sample_date sample_date; NewChat 1700 sample_date sample_date;
         StageUpload (js "a.txt") (js "a"); SubmitUpload 1703 sample_date;
         StageUpload (js "b.txt") (js "b"); SubmitUpload 1703 sample_date]
      (initialState []) = Some st
    /\ reachable st
    /\ List.map Conversation.id (conversation_list st) = [js "1700"; js "1700"]
    /\ List.map KnowledgeDocument.id (knowledgeDocuments st) = [js "1703"; js "1703"]
    /\ ~ NoDup (List.map Conversation.id (conversation_list st))
    /\ ~ NoDup (List.map KnowledgeDocument.id (knowledgeDocuments st)).
Proof.
  eexists. split; [vm_compute; reflexivity|].
  split.
  { apply (state_after_reachable
             [NewChat 1700 sample_date sample_date;
              NewChat 1700 sample_date sample_date;
              StageUpload (js "a.txt") (js "a"); SubmitUpload 1703 sample_date;
              StageUpload (js "b.txt") (js "b"); SubmitUpload 1703 sample_date]). }
  split; [reflexivity|]. split; [reflexivity|].
  split; intros N; inversion N as [|? ? Hn _]; apply Hn; now left.
Qed.

End Identifiers.

(** ** What the store holds *)

Section Persistence.

Lemma getItem_setItem_same (k v : jsstring) (s : Storage.t) :
  Storage.getItem k (Storage.setItem k v s) = Some v.
Proof.
  induction s as [|[k' v'] s IH]; cbn [Storage.setItem Storage.getItem].
  - now rewrite eqb_refl.
  - destruct (JsString.eqb k' k) eqn:E; cbn [Storage.getItem]; now rewrite E.
Qed.

Lemma getItem_setItem_other (k k0 v : jsstring) (s : Storage.t) :
  k <> k0 -> Storage.getItem k (Storage.setItem k0 v s) = Storage.getItem k s.
Proof.
  intros Hk. induction s as [|[k' v'] s IH]; cbn [Storage.setItem Storage.getItem].
  - apply not_eq_sym, eqb_neq in Hk. now rewrite Hk.
  - destruct (JsString.eqb k' k0) eqn:E; cbn [Storage.getItem].
    + apply eqb_eq in E. subst k'.
      apply not_eq_sym, eqb_neq in Hk. now rewrite Hk.
    + now rewrite IH.
Qed.

(** A commit brings the store up to date with every collection that was
    set and is not empty. *)
Lemma commit_stored (st : State) :
  (conversationsChanged st = false -> conversations_stored st) ->
  (knowledgeDocumentsChanged st = false -> documents_stored st) ->
  stored_in_full (commit st).
Proof.
  intros Hc Hd.
  assert (Kcd : key_conversations <> key_knowledgeDocuments)
    by (intros E; vm_compute in E; discriminate E).
  assert (Kdc : key_knowledgeDocuments <> key_conversations)
    by (intros E; vm_compute in E; discriminate E).
  unfold stored_in_full, conversations_stored, documents_stored, commit,
    saveConversations, saveKnowledgeDocuments, conversation_list in *.
  destruct (conversationsChanged st) eqn:Fc;
    destruct (knowledgeDocumentsChanged st) eqn:Fd;
    destruct (conversations st) as [|r cs] eqn:Ec;
    destruct (knowledgeDocuments st) as [|doc ds] eqn:Ed;
    cbn [List.length Nat.ltb Nat.leb]; fields;
    rewrite ?Ec, ?Ed, ?Fd; cbn [List.length Nat.ltb Nat.leb]; fields;
    rewrite ?Ec, ?Ed;
    (split; [intros Hne|intros Hne]); try contradiction;
    rewrite ?getItem_setItem_same; try reflexivity;
    rewrite ?(getItem_setItem_other _ _ _ _ Kcd),
            ?(getItem_setItem_other _ _ _ _ Kdc);
    rewrite ?getItem_setItem_same; try reflexivity;
    try (apply Hc; [reflexivity|discriminate]);
    try (apply Hd; [reflexivity|discriminate]).
Qed.

Lemma updateTitle_store (cid text : jsstring) (st : State) :
  (conversationsChanged (updateTitle cid text st) = true
   \/ updateTitle cid text st = st)
  /\ knowledgeDocumentsChanged (updateTitle cid text st) = knowledgeDocumentsChanged st.
Proof.
  unfold updateTitle.
  destruct (findIndex cid (heap st) (conversations st)) as [i|]; [|now split; [right|]].
  destruct (nth_error (conversations st) i) as [r|]; [|now split; [right|]].
  destruct (List.length (Conversation.messages (deref (heap st) r)) =? 1)%nat;
    [now split; [left|]|now split; [right|]].
Qed.

Lemma appendAssistant_store (p : Pending) (text : jsstring) (now : N) (d : Date)
    (st : State) :
  conversationsChanged (appendAssistant p text now d st) = true
  /\ knowledgeDocumentsChanged (appendAssistant p text now d st)
     = knowledgeDocumentsChanged st
  /\ localStorage (appendAssistant p text now d st) = localStorage st
  /\ knowledgeDocuments (appendAssistant p text now d st) = knowledgeDocuments st.
Proof.
  unfold appendAssistant. destruct (replaceMessages _ _ _ _) as [h cs].
  repeat split.
Qed.

Lemma commit_settled (st : State) :
  conversationsChanged (commit st) = false
  /\ knowledgeDocumentsChanged (commit st) = false.
Proof.
  destruct (commit_shape st) as [ls ->]. split; reflexivity.
Qed.

Lemma loadConversations_store (st st1 : State) :
  loadConversations st = Some st1 ->
  (conversationsChanged st1 = true \/ st1 = st)
  /\ knowledgeDocuments st1 = knowledgeDocuments st
  /\ knowledgeDocumentsChanged st1 = knowledgeDocumentsChanged st.
Proof.
  unfold loadConversations.
  destruct (Storage.getItem key_conversations (localStorage st)) as [[|c s]|].
  - intros E. injection E as <-. split; [now right|now split].
  - destruct (deserialize_conversations (c :: s)) as [[|first rest]|];
      [| |discriminate]; intros E; injection E as <-;
      (split; [now left|now split]).
  - intros E. injection E as <-. split; [now right|now split].
Qed.

Lemma loadKnowledgeDocuments_store (st st2 : State) :
  loadKnowledgeDocuments st = Some st2 ->
  (knowledgeDocumentsChanged st2 = true \/ st2 = st)
  /\ conversations st2 = conversations st
  /\ conversationsChanged st2 = conversationsChanged st.
Proof.
  unfold loadKnowledgeDocuments.
  destruct (Storage.getItem key_knowledgeDocuments (localStorage st)) as [[|c s]|].
  - intros E. injection E as <-. split; [now right|now split].
  - destruct (deserialize_documents (c :: s)) as [parsed|]; [|discriminate].
    intros E; injection E as <-. split; [now left|now split].
  - intros E. injection E as <-. split; [now right|now split].
Qed.

Lemma mount_stored (ls : Storage.t) (st : State) :
  mount ls = Some st -> stored_in_full st.
Proof.
  unfold mount. intros H.
  destruct (loadConversations (initialState ls)) as [st1|] eqn:E1; [|discriminate].
  destruct (loadKnowledgeDocuments st1) as [st2|] eqn:E2; [|discriminate].
  injection H as <-.
  destruct (loadConversations_store _ _ E1) as (C1 & D1 & F1).
  destruct (loadKnowledgeDocuments_store _ _ E2) as (D2 & C2 & F2).
  apply commit_stored.
  - intros Fc Hne. rewrite F2 in Fc. rewrite C2 in Hne.
    destruct C1 as [C1| ->]; [congruence|]. now contradiction Hne.
  - intros Fd Hne. destruct D2 as [D2| ->]; [congruence|].
    rewrite D1 in Hne. now contradiction Hne.
Qed.

(** Every reachable state has its non-empty collections in the store. *)
Lemma reachable_stored_in_full (st : State) :
  reachable st -> stored_in_full st.
Proof.
  induction 1 as [ls st H|e st st' R IH H]; [eapply mount_stored, H|].
  destruct (reachable_invariant st R) as (V & _ & _ & Fc & Fd).
  destruct IH as [Pc Pd].
  destruct e as [now d1 d2|convId|text|n c|now d|docId|now1 d1 reply now2 d2];
    cbn [step] in H.
  - injection H as <-. apply commit_stored.
    + unfold createNewConversation, alloc. fields. discriminate.
    + intros _. unfold createNewConversation, alloc, documents_stored. fields.
      exact Pd.
  - injection H as <-. unfold switchConversation.
    destruct (find_conversation convId (heap st) (conversations st));
      apply commit_stored; intros _; assumption.
  - injection H as <-. apply commit_stored; intros _; assumption.
  - injection H as <-. apply commit_stored; intros _; assumption.
  - injection H as <-. unfold handleAddDocument.
    destruct (blank_text (uploadName st) || blank_text (uploadContent st)).
    + apply commit_stored; intros _; assumption.
    + apply commit_stored; [intros _; exact Pc|fields; discriminate].
  - injection H as <-. apply commit_stored; [intros _; exact Pc|].
    unfold deleteDocument. fields. discriminate.
  - unfold handleSendMessage in H.
    destruct (sendBegin now1 d1 st) as [[st1 p]|] eqn:Eb.
    + destruct (sendFinish p reply now2 d2 (commit st1)) as [st2|] eqn:Ef;
        [|discriminate].
      injection H as <-.
      destruct (sendFinish_text _ _ _ _ _ _ Ef) as (text & -> & _).
      destruct (appendAssistant_store p text now2 d2 (commit st1))
        as (A1 & A2 & A3 & A4).
      apply commit_stored; [rewrite A1; discriminate|]. intros _.
      assert (S1 : stored_in_full (commit st1)).
      { unfold sendBegin in Eb.
        destruct (current_id st) as [cid|]; [|discriminate].
        destruct (blank_text (input st) || loading st); [discriminate|].
        injection Eb as <- _.
        match goal with |- context [updateTitle cid ?t ?s] =>
          destruct (updateTitle_store cid t s) as ([U|U] & U2)
        end.
        - apply commit_stored; [rewrite U; discriminate|].
          intros _. unfold documents_stored.
          match goal with |- context [updateTitle cid ?t ?s] =>
            destruct (updateTitle_fields cid t s) as (_ & _ & K & _ & _ & Ls)
          end.
          rewrite K, Ls. exact Pd.
        - rewrite U. apply commit_stored; intros _; assumption. }
      destruct S1 as [_ Sd].
      unfold documents_stored in *. now rewrite A3, A4.
    + injection H as <-. apply commit_stored; intros _; assumption.
Qed.

(** C1, at the input on which the code departs from it.  One document is
    uploaded and then deleted.  The collection is empty, but the store was
    not written: it still holds the text of the one-document collection,
    and the next start of the page reads the deleted document back. *)
Theorem deleting_last_document_is_not_saved :
  exists st st2,
    run [StageUpload (js "notes.txt") (js "hello world");
         SubmitUpload 1703 sample_date;
         DeleteDoc (js "1703")] (initialState []) = Some st
    /\ knowledgeDocuments st = []
    /\ Storage.getItem key_knowledgeDocuments (localStorage st)
       = Some (serialize_documents [sample_document])
    /\ Storage.getItem key_knowledgeDocuments (localStorage st)
       <> Some (serialize_documents (knowledgeDocuments st))
    /\ mount (localStorage st) = Some st2
    /\ knowledgeDocuments st2 = [sample_document].
Proof.
  eexists _, _. split; [vm_compute; reflexivity|].
  split; [reflexivity|]. split; [reflexivity|].
  split; [discriminate|].
  split; [vm_compute; reflexivity|reflexivity].
Qed.

End Persistence.

(** ** The examples of the specification *)

Section SpecificationExamples.

Example notes_document :
  knowledgeDocuments
    (addDocument (js "notes.txt") (js "hello world") 1703 sample_date (initialState []))
  = [sample_document]
  /\ KnowledgeDocument.size sample_document = 11
  /\ formatFileSize (KnowledgeDocument.size sample_document) = js "11 Bytes".
Proof. repeat split. Qed.

Example two_kilobytes : formatFileSize 2048 = js "2 KB".
Proof. reflexivity. Qed.

Example zero_bytes : formatFileSize 0 = js "0 Bytes".
Proof. reflexivity. Qed.

Example one_and_a_half_kilobytes : formatFileSize 1536 = js "1.5 KB".
Proof. reflexivity. Qed.

(** Selecting another conversation changes the active id and no message
    list. *)
Example select_other_conversation :
  exists st st',
    run [NewChat 1700 sample_date sample_date; NewChat 1704 sample_date sample_date]
      (initialState []) = Some st
    /\ step (SwitchTo (js "1700")) st = Some st'
    /\ currentConversationId st = Some (js "1704")
    /\ currentConversationId st' = Some (js "1700")
    /\ conversation_list st' = conversation_list st.
Proof.
  eexists _, _. split; [vm_compute; reflexivity|].
  split; [vm_compute; reflexivity|]. repeat split.
Qed.

(** A string with a character outside ASCII: its size is its number of
    bytes in UTF-8, not its length. *)
Example size_in_bytes :
  utf8_length [104; 233; 8364; 55357; 56832] = 10
  /\ List.length [104; 233; 8364; 55357; 56832] = 5%nat.
Proof. split; reflexivity. Qed.

End SpecificationExamples.

(** * Further properties of the handlers *)

(** ** What one event does to the collection and to the active id *)

Section EventEffects.

Lemma commit_settled_same (st : State) :
  conversationsChanged st = false -> knowledgeDocumentsChanged st = false ->
  commit st = st.
Proof.
  destruct st. cbn. intros -> ->. reflexivity.
Qed.

Lemma commit_current (st : State) :
  currentConversationId (commit st) = currentConversationId st.
Proof.
  destruct (commit_shape st) as [ls ->]. reflexivity.
Qed.

Lemma commit_messages (st : State) : messages (commit st) = messages st.
Proof.
  destruct (commit_shape st) as [ls ->]. reflexivity.
Qed.

Lemma commit_input (st : State) : input (commit st) = input st.
Proof.
  destruct (commit_shape st) as [ls ->]. reflexivity.
Qed.

(** A send that the guard stops changes nothing. *)
Lemma stopped_send_same (now1 : N) (d1 : Date) (reply : Reply) (now2 : N)
    (d2 : Date) (st : State) :
  reachable st -> sendBegin now1 d1 st = None ->
  step (Send now1 d1 reply now2 d2) st = Some st.
Proof.
  intros R E. destruct (reachable_invariant st R) as (_ & _ & _ & Fc & Fd).
  cbn [step]. unfold handleSendMessage. rewrite E. cbn [option_map].
  now rewrite commit_settled_same.
Qed.

(** A send that goes out, seen from the state after the whole step. *)
Lemma sent_step (now1 : N) (d1 : Date) (reply : Reply) (now2 : N) (d2 : Date)
    (st st1 st' : State) (p : Pending) :
  reachable st ->
  sendBegin now1 d1 st = Some (st1, p) ->
  step (Send now1 d1 reply now2 d2) st = Some st' ->
  exists cid text,
    currentConversationId st = Some cid
    /\ currentConversationId st' = Some cid
    /\ (call_throws reply = true -> text = apology_text)
    /\ (forall data t, reply = Body data ->
          extractAssistantContent data = Some (Some (JStr t)) -> text = t)
    /\ messages st'
       = messages st
           ++ [Message.mk (N_toString now1) (input st) Message.user
                 (formatTimestamp d1);
               Message.mk (N_toString (now2 + 1)) text Message.assistant
                 (formatTimestamp d2)]
    /\ conversation_list st'
       = with_messages_of cid (messages st')
           (retitle_first cid (substring0 50 (input st)) (conversation_list st))
    /\ knowledgeDocuments st' = knowledgeDocuments st.
Proof.
  intros R Eb H. destruct (reachable_invariant st R) as (V & _).
  cbn [step] in H. unfold handleSendMessage in H. rewrite Eb in H.
  destruct (sendFinish p reply now2 d2 (commit st1)) as [st2|] eqn:Ef;
    [|discriminate].
  injection H as <-.
  assert (T : exists text,
             st2 = appendAssistant p text now2 d2 (commit st1)
             /\ (call_throws reply = true -> text = apology_text)
             /\ (forall data t, reply = Body data ->
                   extractAssistantContent data = Some (Some (JStr t)) -> text = t)).
  { unfold sendFinish, call_throws in *. destruct reply as [|data].
    - injection Ef as <-. eexists. split; [reflexivity|]. split; [reflexivity|].
      intros ? ? E. discriminate E.
    - destruct (extractAssistantContent data) as [[[| | |t0| |]|]|] eqn:Ex;
        try discriminate; injection Ef as <-; eexists;
        (split; [reflexivity|]); (split; [try discriminate; reflexivity|]);
        intros data' t E Ex'; injection E as <-; congruence. }
  destruct T as (text & -> & Ht & Hd).
  destruct (send_effect now1 d1 now2 d2 text st st1 p V Eb)
    as (cid & Ec & _ & L' & M' & I' & K' & _).
  exists cid, text.
  rewrite commit_current, commit_messages, commit_conversation_list, commit_documents.
  rewrite M'. repeat split; assumption.
Qed.

End EventEffects.

(** ** The active conversation *)

Section ActiveConversation.

Lemma find_some_in (cid : jsstring) (cs : list Conversation.t) (c : Conversation.t) :
  List.find (fun c => JsString.eqb (Conversation.id c) cid) cs = Some c ->
  In c cs /\ Conversation.id c = cid.
Proof.
  intros H. apply find_some in H as [I E]. apply eqb_eq in E. now split.
Qed.

Lemma mount_has_active (ls : Storage.t) (st : State) :
  mount ls = Some st ->
  conversations st = [] \/ exists cid, currentConversationId st = Some cid.
Proof.
  unfold mount. intros H.
  destruct (loadConversations (initialState ls)) as [st1|] eqn:E1; [|discriminate].
  destruct (loadKnowledgeDocuments st1) as [st2|] eqn:E2; [|discriminate].
  injection H as <-.
  assert (Q1 : conversations st1 = []
               \/ exists cid, currentConversationId st1 = Some cid).
  { unfold loadConversations in E1.
    destruct (Storage.getItem key_conversations (localStorage (initialState ls)))
      as [[|c s]|].
    - injection E1 as <-. now left.
    - destruct (deserialize_conversations (c :: s)) as [[|first rest]|];
        [| |discriminate]; injection E1 as <-; [now left|right; eexists; reflexivity].
    - injection E1 as <-. now left. }
  assert (Q2 : conversations st2 = conversations st1
               /\ currentConversationId st2 = currentConversationId st1).
  { unfold loadKnowledgeDocuments in E2.
    destruct (Storage.getItem key_knowledgeDocuments (localStorage st1)) as [[|c s]|].
    - injection E2 as <-. now split.
    - destruct (deserialize_documents (c :: s)); [|discriminate].
      injection E2 as <-. now split.
    - injection E2 as <-. now split. }
  destruct Q2 as [C2 I2]. destruct (commit_shape st2) as [ls' ->]. fields.
  now rewrite C2, I2.
Qed.

Lemma length_retitle_first (cid newTitle : jsstring) (cs : list Conversation.t) :
  List.length (retitle_first cid newTitle cs) = List.length cs.
Proof.
  rewrite <- (length_map Conversation.id), ids_retitle_first. apply length_map.
Qed.

Lemma length_with_messages_of (cid : jsstring) (ms : list Message.t)
    (cs : list Conversation.t) :
  List.length (with_messages_of cid ms cs) = List.length cs.
Proof.
  apply length_map.
Qed.

(** Once there is a conversation, one is active. *)
Lemma reachable_has_active (st : State) :
  reachable st ->
  conversations st = [] \/ exists cid, currentConversationId st = Some cid.
Proof.
  induction 1 as [ls st H|e st st' R IH H]; [eapply mount_has_active, H|].
  destruct e as [now d1 d2|convId|text|n c|now d|docId|now1 d1 reply now2 d2];
    cbn [step] in H; try (injection H as <-); try rewrite commit_current.
  - right. eexists. reflexivity.
  - unfold switchConversation.
    destruct (find_conversation convId (heap st) (conversations st)).
    + right. eexists. reflexivity.
    + destruct (commit_shape st) as [ls ->]. exact IH.
  - destruct (commit_shape (setInput text st)) as [ls ->]. exact IH.
  - destruct (commit_shape (setUploadContent c (setUploadName n st))) as [ls ->].
    exact IH.
  - unfold handleAddDocument.
    destruct (blank_text (uploadName st) || blank_text (uploadContent st)).
    + destruct (commit_shape st) as [ls ->]. exact IH.
    + match goal with |- context [commit ?s] =>
        destruct (commit_shape s) as [ls ->] end. exact IH.
  - destruct (commit_shape (deleteDocument docId st)) as [ls ->]. exact IH.
  - change (step (Send now1 d1 reply now2 d2) st = Some st') in H.
    destruct (sendBegin now1 d1 st) as [[st1 p]|] eqn:Eb.
    + destruct (sent_step now1 d1 reply now2 d2 st st1 st' p R Eb H)
        as (cid & text & _ & I' & _). right. eauto.
    + rewrite (stopped_send_same now1 d1 reply now2 d2 st R Eb) in H.
      injection H as <-. exact IH.
Qed.

Lemma active_conversation_found (st : State) (cid : jsstring) :
  reachable st -> currentConversationId st = Some cid ->
  exists c, In c (conversation_list st)
            /\ Conversation.id c = cid
            /\ active_conversation st = Some c
            /\ messages st = Conversation.messages c.
Proof.
  intros R E. destruct (reachable_invariant st R) as (_ & T & _).
  unfold thread_consistent, active_conversation in *.
  rewrite E in *. destruct T as (c & F & M). exists c.
  rewrite find_conversation_list in F.
  destruct (find_some_in cid _ c F) as [I Ei].
  repeat split; assumption.
Qed.

(** X2. With no active conversation a submit does nothing: the state is
    the one before, the text typed included, although the send control is
    enabled as soon as the text is not blank. *)
Theorem submit_without_conversation (now1 : N) (d1 : Date) (reply : Reply)
    (now2 : N) (d2 : Date) (st : State) :
  reachable st ->
  currentConversationId st = None ->
  step (Send now1 d1 reply now2 d2) st = Some st
  /\ sendDisabled st = blank_text (input st).
Proof.
  intros R E. destruct (reachable_invariant st R) as (_ & _ & L & _).
  split.
  - apply stopped_send_same; [exact R|].
    unfold sendBegin, current_id. now rewrite E.
  - unfold sendDisabled. now rewrite L.
Qed.

Lemma submit_without_conversation_witness :
  step (Send 1701 sample_date Rejected 1702 sample_date)
    (state_after [TypeInput (js "hello there")])
  = Some (state_after [TypeInput (js "hello there")])
  /\ sendDisabled (state_after [TypeInput (js "hello there")]) = false.
Proof.
  exact (submit_without_conversation 1701 sample_date Rejected 1702 sample_date
           (state_after [TypeInput (js "hello there")])
           (state_after_reachable [TypeInput (js "hello there")]) eq_refl).
Defined.

End ActiveConversation.

(** ** Turns on the collection *)

Section TurnsOnTheCollection.

(** X3. In every reachable state a collection that is not empty is held
    in [localStorage], under its key, as the text of the whole collection. *)
Theorem nonempty_collections_are_stored (st : State) :
  reachable st ->
  (conversation_list st <> [] ->
   Storage.getItem (js "conversations") (localStorage st)
   = Some (JSON_stringify (JArr (List.map Conversation.to_json (conversation_list st)))))
  /\ (knowledgeDocuments st <> [] ->
      Storage.getItem (js "knowledgeDocuments") (localStorage st)
      = Some (JSON_stringify
                (JArr (List.map KnowledgeDocument.to_json (knowledgeDocuments st))))).
Proof.
  intros R. destruct (reachable_stored_in_full st R) as [C D]. split.
  - intros Hne. apply C. intros E. apply Hne.
    unfold conversation_list. now rewrite E.
  - exact D.
Qed.

Lemma nonempty_collections_witness :
  Storage.getItem (js "conversations")
    (localStorage (state_after sample_events_with_document))
  = Some (serialize_conversations
            (conversation_list (state_after sample_events_with_document)))
  /\ Storage.getItem (js "knowledgeDocuments")
       (localStorage (state_after sample_events_with_document))
     = Some (serialize_documents [sample_document]).
Proof.
  destruct (nonempty_collections_are_stored
              (state_after sample_events_with_document)
              (state_after_reachable sample_events_with_document)) as [C D].
  split; [apply C|apply D]; discriminate.
Defined.

End TurnsOnTheCollection.

(** ** What a step keeps *)

Section Frames.

(** The collection after one event. *)
Lemma step_conversations (e : Event) (st st' : State) :
  reachable st -> step e st = Some st' ->
  match e with
  | NewChat now d1 d2 =>
      conversation_list st'
      = Conversation.mk (N_toString now) default_title
          [Message.mk (js "1") greeting Message.assistant (toLocaleString d1)]
          (toISOString d2)
        :: conversation_list st
  | Send now1 d1 reply now2 d2 =>
      conversation_list st' = conversation_list st
      \/ exists cid text,
           currentConversationId st = Some cid
           /\ messages st'
              = messages st
                  ++ [Message.mk (N_toString now1) (input st) Message.user
                        (formatTimestamp d1);
                      Message.mk (N_toString (now2 + 1)) text Message.assistant
                        (formatTimestamp d2)]
           /\ conversation_list st'
              = with_messages_of cid (messages st')
                  (retitle_first cid (substring0 50 (input st)) (conversation_list st))
  | _ => conversation_list st' = conversation_list st
  end.
Proof.
  intros R H. destruct (reachable_invariant st R) as (V & _).
  destruct e as [now d1 d2|convId|text|n c|now d|docId|now1 d1 reply now2 d2].
  - cbn [step] in H. injection H as <-. rewrite commit_conversation_list.
    apply (createNewConversation_list now d1 d2 st V).
  - cbn [step] in H. injection H as <-. rewrite commit_conversation_list.
    unfold switchConversation.
    destruct (find_conversation convId (heap st) (conversations st)); reflexivity.
  - cbn [step] in H. injection H as <-. now rewrite commit_conversation_list.
  - cbn [step] in H. injection H as <-. now rewrite commit_conversation_list.
  - cbn [step] in H. injection H as <-. rewrite commit_conversation_list.
    unfold handleAddDocument.
    destruct (blank_text (uploadName st) || blank_text (uploadContent st));
      reflexivity.
  - cbn [step] in H. injection H as <-. now rewrite commit_conversation_list.
  - destruct (sendBegin now1 d1 st) as [[st1 p]|] eqn:Eb.
    + destruct (sent_step now1 d1 reply now2 d2 st st1 st' p R Eb H)
        as (cid & text & Ec & _ & _ & _ & M & L & _).
      right. exists cid, text. repeat split; assumption.
    + rewrite (stopped_send_same now1 d1 reply now2 d2 st R Eb) in H.
      injection H as <-. now left.
Qed.

Lemma frame_with_messages (cid : jsstring) (ms : list Message.t)
    (cs : list Conversation.t) :
  Forall2
    (fun c c' =>
       Conversation.id c' = Conversation.id c
       /\ Conversation.createdAt c' = Conversation.createdAt c
       /\ Conversation.title c' = Conversation.title c
       /\ (Conversation.id c <> cid -> c' = c)
       /\ (Conversation.id c = cid -> Conversation.messages c' = ms))
    cs (with_messages_of cid ms cs).
Proof.
  induction cs as [|c cs IH]; [constructor|].
  cbn [with_messages_of List.map]. constructor; [|exact IH].
  destruct (JsString.eqb (Conversation.id c) cid) eqn:E.
  - apply eqb_eq in E. repeat split; try reflexivity. intros N. contradiction.
  - apply eqb_neq in E. repeat split; try reflexivity. intros N. contradiction.
Qed.

Lemma frame_send (cid newTitle : jsstring) (ms : list Message.t)
    (cs : list Conversation.t) :
  Forall2
    (fun c c' =>
       Conversation.id c' = Conversation.id c
       /\ Conversation.createdAt c' = Conversation.createdAt c
       /\ (Conversation.id c <> cid -> c' = c)
       /\ (Conversation.id c = cid -> Conversation.messages c' = ms))
    cs (with_messages_of cid ms (retitle_first cid newTitle cs)).
Proof.
  induction cs as [|c cs IH]; [constructor|].
  cbn [retitle_first].
  destruct (JsString.eqb (Conversation.id c) cid) eqn:E.
  - cbn [with_messages_of List.map]. constructor.
    + destruct (List.length (Conversation.messages c) =? 1)%nat;
        cbn [Conversation.with_title Conversation.id]; rewrite E;
        (repeat split; try reflexivity);
        intros N; apply eqb_eq in E; contradiction.
    + eapply Forall2_impl; [|apply frame_with_messages]. cbv beta. tauto.
  - cbn [with_messages_of List.map]. rewrite E. constructor; [|exact IH].
    apply eqb_neq in E. repeat split. intros N. contradiction.
Qed.

(** X5. A turn keeps the number and the order of the conversations, the
    id and the creation time of each; a conversation of another id than
    the active one is left exactly as it was; every conversation of the
    active id gets the visible thread as its messages. *)
Theorem send_frame (now1 : N) (d1 : Date) (reply : Reply) (now2 : N) (d2 : Date)
    (st st1 st' : State) (p : Pending) :
  reachable st ->
  sendBegin now1 d1 st = Some (st1, p) ->
  step (Send now1 d1 reply now2 d2) st = Some st' ->
  exists cid,
    currentConversationId st = Some cid
    /\ Forall2
         (fun c c' =>
            Conversation.id c' = Conversation.id c
            /\ Conversation.createdAt c' = Conversation.createdAt c
            /\ (Conversation.id c <> cid -> c' = c)
            /\ (Conversation.id c = cid -> Conversation.messages c' = messages st'))
         (conversation_list st) (conversation_list st')
    /\ knowledgeDocuments st' = knowledgeDocuments st.
Proof.
  intros R Eb H.
  destruct (sent_step now1 d1 reply now2 d2 st st1 st' p R Eb H)
    as (cid & text & Ec & _ & _ & _ & _ & L & K).
  exists cid. split; [exact Ec|]. split; [|exact K].
  rewrite L. apply frame_send.
Qed.

Lemma send_frame_witness :
  exists st st' c0 c1 c0' c1',
    run [NewChat 1700 sample_date sample_date; NewChat 1704 sample_date sample_date;
         TypeInput (js "hello there")] (initialState []) = Some st
    /\ step (Send 1705 sample_date Rejected 1706 sample_date) st = Some st'
    /\ conversation_list st = [c1; c0]
    /\ conversation_list st' = [c1'; c0']
    /\ c0' = c0
    /\ Conversation.messages c1' = messages st'.
Proof.
  destruct (run [NewChat 1700 sample_date sample_date;
                 NewChat 1704 sample_date sample_date;
                 TypeInput (js "hello there")] (initialState [])) as [st|] eqn:E;
    [|discriminate E].
  assert (R : reachable st).
  { eapply run_reachable; [|exact E].
    apply reach_mount with (ls := []). reflexivity. }
  destruct (sendBegin 1705 sample_date st) as [[st1 p]|] eqn:Eb;
    [|vm_compute in E; injection E as <-; discriminate Eb].
  destruct (step (Send 1705 sample_date Rejected 1706 sample_date) st)
    as [st'|] eqn:Es;
    [|vm_compute in E; injection E as <-; discriminate Es].
  destruct (send_frame 1705 sample_date Rejected 1706 sample_date st st1 st' p
              R Eb Es) as (cid & Ec & F & _).
  assert (L : exists c1 c0, conversation_list st = [c1; c0]
                            /\ Conversation.id c0 <> cid
                            /\ Conversation.id c1 = cid).
  { vm_compute in E. injection E as <-. vm_compute in Ec. injection Ec as <-.
    eexists _, _. split; [reflexivity|]. split; [discriminate|reflexivity]. }
  destruct L as (c1 & c0 & L & N0 & E1). rewrite L in F.
  inversion F as [|? c1' ? l' (_ & _ & _ & M1) F' A B]; subst.
  inversion F' as [|? c0' ? l'' (_ & _ & K0 & _) F'' A' B']; subst.
  inversion F''; subst.
  exists st, st', c0, c1, c0', c1'.
  repeat split; auto.
Defined.

End Frames.

(** ** Histories, titles and selection *)

Section Histories.

Lemma short_titles_send (cid newTitle : jsstring) (ms : list Message.t)
    (cs : list Conversation.t) :
  (List.length newTitle <= 50)%nat ->
  Forall (fun c => (List.length (Conversation.title c) <= 50)%nat) cs ->
  Forall (fun c => (List.length (Conversation.title c) <= 50)%nat)
    (with_messages_of cid ms (retitle_first cid newTitle cs)).
Proof.
  intros Ht F. unfold with_messages_of. apply Forall_map.
  induction F as [|c cs Hc Fcs IHc]; [constructor|].
  cbn [retitle_first].
  destruct (JsString.eqb (Conversation.id c) cid) eqn:Ei.
  - constructor.
    + destruct (List.length (Conversation.messages c) =? 1)%nat;
        cbn [Conversation.with_title Conversation.id]; rewrite Ei;
        cbn [Conversation.with_messages Conversation.with_title
             Conversation.title]; assumption.
    + eapply Forall_impl; [|exact Fcs]. cbv beta. intros a Ha.
      destruct (JsString.eqb (Conversation.id a) cid); exact Ha.
  - constructor; [rewrite Ei; exact Hc|exact IHc].
Qed.

(** X7. A title never grows beyond 50 code units: when every title of
    the collection has at most 50, so has every title after any trace. *)
Theorem titles_stay_short (es : list Event) (st0 st : State) :
  reachable st0 ->
  Forall (fun c => (List.length (Conversation.title c) <= 50)%nat)
    (conversation_list st0) ->
  run es st0 = Some st ->
  Forall (fun c => (List.length (Conversation.title c) <= 50)%nat)
    (conversation_list st).
Proof.
  revert st0; induction es as [|e es IH]; intros st0 R F H; cbn [run] in H.
  - injection H as <-. exact F.
  - destruct (step e st0) as [st1|] eqn:E; [|discriminate].
    apply (IH st1); [eapply reach_step; eassumption| |exact H].
    pose proof (step_conversations e st0 st1 R E) as S.
    destruct e as [now d1 d2|convId|text|n c|now d|docId|now1 d1 reply now2 d2];
      try (rewrite S; exact F).
    + rewrite S. constructor; [cbn; lia|exact F].
    + destruct S as [S|(cid & text & _ & _ & L)]; [rewrite S; exact F|].
      rewrite L. apply short_titles_send; [|exact F].
      unfold substring0. rewrite length_firstn. lia.
Qed.

Lemma long_question_run :
  run long_question_events (initialState [])
  = Some (state_after long_question_events).
Proof.
  vm_compute. reflexivity.
Qed.

Lemma titles_witness :
  Forall (fun c => (List.length (Conversation.title c) <= 50)%nat)
    (conversation_list (state_after long_question_events)).
Proof.
  exact (titles_stay_short long_question_events (initialState [])
           (state_after long_question_events)
           (reach_mount [] (initialState []) eq_refl)
           (Forall_nil _) long_question_run).
Defined.

Example long_question_title :
  List.map Conversation.title (conversation_list (state_after long_question_events))
  = [js "a question that is a good deal longer than fifty c"].
Proof. vm_compute. reflexivity. Qed.

End Histories.

(** ** Selecting, deleting, and when a send goes out *)

Section SelectionAndDeletion.

(** X8. Selecting a conversation never fails and changes neither
    collection, nor the store, nor the input.  When the collection holds a
    conversation of the id, the first such one becomes the active one and
    its messages the visible thread; when it holds none, the whole state
    stays as it is. *)
Theorem switchConversation_selects (convId : jsstring) (st : State) :
  reachable st ->
  exists st',
    step (SwitchTo convId) st = Some st'
    /\ conversation_list st' = conversation_list st
    /\ knowledgeDocuments st' = knowledgeDocuments st
    /\ localStorage st' = localStorage st
    /\ input st' = input st
    /\ match List.find (fun c => JsString.eqb (Conversation.id c) convId)
               (conversation_list st) with
       | Some c =>
           currentConversationId st' = Some convId
           /\ active_conversation st' = Some c
           /\ messages st' = Conversation.messages c
       | None => st' = st
       end.
Proof.
  intros R. destruct (reachable_invariant st R) as (_ & _ & _ & Fc & Fd).
  eexists. split; [reflexivity|].
  assert (E : commit (switchConversation convId st) = switchConversation convId st).
  { apply commit_settled_same; unfold switchConversation;
      destruct (find_conversation convId (heap st) (conversations st));
      assumption. }
  rewrite E. unfold switchConversation, active_conversation.
  rewrite find_conversation_list.
  destruct (List.find (fun c => JsString.eqb (Conversation.id c) convId)
              (conversation_list st)) as [c|] eqn:F; fields.
  - repeat split. rewrite find_conversation_list. exact F.
  - repeat split.
Qed.

Lemma switchConversation_witness :
  exists st st',
    run [NewChat 1700 sample_date sample_date; NewChat 1704 sample_date sample_date]
      (initialState []) = Some st
    /\ step (SwitchTo (js "1700")) st = Some st'
    /\ currentConversationId st' = Some (js "1700")
    /\ conversation_list st' = conversation_list st
    /\ step (SwitchTo (js "1701")) st = Some st.
Proof.
  destruct (run [NewChat 1700 sample_date sample_date;
                 NewChat 1704 sample_date sample_date] (initialState []))
    as [st|] eqn:E; [|discriminate E].
  assert (R : reachable st).
  { eapply run_reachable; [|exact E].
    apply reach_mount with (ls := []). reflexivity. }
  destruct (switchConversation_selects (js "1700") st R)
    as (st' & Es & L & _ & _ & _ & F).
  destruct (switchConversation_selects (js "1701") st R)
    as (st2 & Es2 & _ & _ & _ & _ & F2).
  exists st, st'. split; [reflexivity|]. split; [exact Es|].
  vm_compute in E. injection E as <-.
  split; [exact (proj1 F)|]. split; [exact L|].
  rewrite Es2. f_equal. exact F2.
Defined.

Lemma filter_other_id (docId : jsstring) (ds : list KnowledgeDocument.t) :
  (forall d, In d ds -> KnowledgeDocument.id d <> docId) ->
  List.filter (fun doc => negb (JsString.eqb (KnowledgeDocument.id doc) docId)) ds = ds.
Proof.
  induction ds as [|d ds IH]; intros H; [reflexivity|].
  cbn [List.filter].
  assert (E : JsString.eqb (KnowledgeDocument.id d) docId = false).
  { apply eqb_neq, H. now left. }
  rewrite E. cbn [negb]. f_equal. apply IH. intros x I. apply H. now right.
Qed.

(** X9. Deleting by id removes every document of that id, also when two
    documents share it, and keeps the others; with no document of the id
    it changes nothing and is not an error; it leaves the conversations,
    the active id and the thread alone. *)
Theorem deleteDocument_removes_id (docId : jsstring) (st : State) :
  (forall d, In d (knowledgeDocuments (deleteDocument docId st))
             <-> In d (knowledgeDocuments st) /\ KnowledgeDocument.id d <> docId)
  /\ ((forall d, In d (knowledgeDocuments st) -> KnowledgeDocument.id d <> docId) ->
      knowledgeDocuments (deleteDocument docId st) = knowledgeDocuments st)
  /\ knowledgeDocuments (deleteDocument docId (deleteDocument docId st))
     = knowledgeDocuments (deleteDocument docId st)
  /\ (List.length (knowledgeDocuments (deleteDocument docId st))
      <= List.length (knowledgeDocuments st))%nat
  /\ conversation_list (deleteDocument docId st) = conversation_list st
  /\ currentConversationId (deleteDocument docId st) = currentConversationId st
  /\ messages (deleteDocument docId st) = messages st.
Proof.
  unfold deleteDocument. fields.
  split; [|split; [|split; [|split; [|repeat split]]]].
  - intros d. rewrite filter_In. split; intros [I H]; (split; [exact I|]).
    + apply eqb_neq. now destruct (JsString.eqb (KnowledgeDocument.id d) docId).
    + apply eqb_neq in H. now rewrite H.
  - apply filter_other_id.
  - apply filter_other_id. intros d I. apply filter_In in I as [_ H].
    apply eqb_neq. now destruct (JsString.eqb (KnowledgeDocument.id d) docId).
  - apply filter_length_le.
Qed.

Lemma numeral_ids_run (es : list Event) :
  forall st0 st,
    reachable st0 ->
    (forall i, In i (List.map Conversation.id (conversation_list st0)) ->
       exists t, i = N_toString t) ->
    run es st0 = Some st ->
    forall i, In i (List.map Conversation.id (conversation_list st)) ->
      exists t, i = N_toString t.
Proof.
  induction es as [|e es IH]; intros st0 st R H0 H; cbn [run] in H.
  - injection H as <-. exact H0.
  - destruct (step e st0) as [st1|] eqn:E; [|discriminate].
    apply (IH st1 st); [eapply reach_step; eassumption| |exact H].
    rewrite (step_conversation_ids e st0 st1 R E).
    destruct e; try exact H0.
    intros i [<-|I]; [eauto|now apply H0].
Qed.

(** X10. From an empty store, once a conversation exists, the send control
    is enabled for every text that is not blank, and a submit then goes
    out: the guard of the handler does not stop it. *)
Theorem send_goes_out (now : N) (d : Date) (es : list Event) (st : State) :
  run es (initialState []) = Some st ->
  conversation_list st <> [] ->
  blank_text (input st) = false ->
  sendDisabled st = false
  /\ exists st1 p cid,
       sendBegin now d st = Some (st1, p)
       /\ currentConversationId st = Some cid
       /\ p_request p = buildRequest (input st) (knowledgeDocuments st) cid.
Proof.
  intros H Hne Hb.
  assert (R0 : reachable (initialState [])).
  { apply reach_mount with (ls := []). reflexivity. }
  assert (R : reachable st) by (eapply run_reachable; eassumption).
  destruct (reachable_invariant st R) as (_ & _ & L & _).
  split; [unfold sendDisabled; now rewrite L, Hb|].
  destruct (reachable_has_active st R) as [E|(cid & E)].
  { unfold conversation_list in Hne. rewrite E in Hne. now contradiction Hne. }
  destruct (active_conversation_found st cid R E) as (c & I & Ei & A & _).
  destruct (numeral_ids_run es (initialState []) st R0 ltac:(intros ? []) H cid)
    as (t & Et).
  { rewrite <- Ei. now apply in_map. }
  assert (Hn : currentConversationId st <> Some []).
  { rewrite E, Et. intros X. injection X as X.
    now apply (N_toString_nonempty t). }
  destruct (sendBegin_goes_out now d st c R A Hn Hb) as (st1 & p & Eb).
  destruct (sendBegin_request now d st st1 p Eb) as (cid' & Ec & _ & Rq).
  exists st1, p, cid'. repeat split; assumption.
Qed.

Lemma send_goes_out_witness :
  sendDisabled (state_after sample_events) = false
  /\ exists st1 p cid,
       sendBegin 1701 sample_date (state_after sample_events) = Some (st1, p)
       /\ currentConversationId (state_after sample_events) = Some cid
       /\ p_request p
          = buildRequest (input (state_after sample_events))
              (knowledgeDocuments (state_after sample_events)) cid.
Proof.
  apply (send_goes_out 1701 sample_date sample_events (state_after sample_events));
    [reflexivity|discriminate|reflexivity].
Defined.

End SelectionAndDeletion.

(** ** Texts: blank texts, byte sizes, times and sizes shown *)

Section Texts.

Lemma trim_start_nil_iff (s : jsstring) :
  trim_start s = [] <-> forallb is_whitespace s = true.
Proof.
  induction s as [|c s IH]; [now split|].
  cbn [trim_start forallb]. destruct (is_whitespace c); cbn [andb].
  - exact IH.
  - split; discriminate.
Qed.

Lemma trim_start_first (s : jsstring) (c : N) (r : jsstring) :
  trim_start s = c :: r -> is_whitespace c = false.
Proof.
  induction s as [|x s IH]; [discriminate|].
  cbn [trim_start]. destruct (is_whitespace x) eqn:E; [exact IH|].
  intros H. injection H as <- _. exact E.
Qed.

Lemma trim_start_suffix (s : jsstring) :
  exists pre, s = pre ++ trim_start s /\ forallb is_whitespace pre = true.
Proof.
  induction s as [|c s (pre & E & W)]; [now exists []|].
  cbn [trim_start]. destruct (is_whitespace c) eqn:Ec.
  - exists (c :: pre). cbn [app forallb]. rewrite Ec, W. now rewrite <- E.
  - now exists [].
Qed.

Lemma forallb_rev (f : N -> bool) (s : jsstring) :
  forallb f (rev s) = forallb f s.
Proof.
  induction s as [|c s IH]; [reflexivity|].
  cbn [rev forallb]. rewrite forallb_app, IH. cbn [forallb].
  destruct (f c), (forallb f s); reflexivity.
Qed.

(** X11. The guards [!uploadName.trim()], [!uploadContent.trim()] and
    [!input.trim()] hold exactly for the texts all of whose code units are
    white space, the empty text among them.  What [trim] keeps is the text
    between the white space at both ends; it neither starts nor ends with
    white space. *)
Theorem blank_text_iff_whitespace (s : jsstring) :
  (blank_text s = true <-> forallb is_whitespace s = true)
  /\ (exists pre post,
         s = pre ++ trim s ++ post
         /\ forallb is_whitespace pre = true
         /\ forallb is_whitespace post = true)
  /\ (forall c r, trim s = c :: r -> is_whitespace c = false)
  /\ (forall c r, rev (trim s) = c :: r -> is_whitespace c = false).
Proof.
  destruct (trim_start_suffix s) as (pre & Es & Wpre).
  destruct (trim_start_suffix (rev (trim_start s))) as (tsop & Er & Wpost).
  assert (Et : trim_start s = trim s ++ rev tsop).
  { unfold trim, trim_end. rewrite <- rev_app_distr, <- Er. now rewrite rev_involutive. }
  split; [|split; [|split]].
  - unfold blank_text, trim, trim_end. split.
    + intros H.
      assert (T : trim_start (rev (trim_start s)) = []).
      { destruct (trim_start (rev (trim_start s))) as [|x l] eqn:E; [reflexivity|].
        cbn [rev] in H. destruct (rev l ++ [x]) eqn:E'; [|discriminate H].
        now destruct (rev l). }
      apply trim_start_nil_iff in T. rewrite forallb_rev in T.
      destruct (trim_start s) as [|c r] eqn:E.
      * now apply trim_start_nil_iff.
      * apply trim_start_first in E. cbn [forallb] in T. now rewrite E in T.
    + intros H. apply trim_start_nil_iff in H. rewrite H. reflexivity.
  - exists pre, (rev tsop). split; [|split; [exact Wpre|]].
    + now rewrite <- Et.
    + now rewrite forallb_rev.
  - intros c r H. rewrite H in Et. cbn [app] in Et.
    now apply trim_start_first in Et.
  - intros c r H. unfold trim, trim_end in H. rewrite rev_involutive in H.
    now apply trim_start_first in H.
Qed.

Lemma utf8_length_bounds_bounded (n : nat) :
  forall s, (List.length s <= n)%nat ->
    N.of_nat (List.length s) <= utf8_length s
    /\ utf8_length s <= 3 * N.of_nat (List.length s).
Proof.
  induction n as [|n IH]; intros s Hn.
  - destruct s; [cbn; lia|cbn in Hn; lia].
  - destruct s as [|c s]; [cbn; lia|]. cbn [List.length] in *.
    assert (H1 := IH s ltac:(lia)).
    cbn [utf8_length].
    destruct (c <? 128); [lia|]. destruct (c <? 2048); [lia|].
    destruct (is_high_surrogate c); [|lia].
    destruct s as [|d s']; [cbn; lia|].
    destruct (is_low_surrogate d); [|lia].
    cbn [List.length] in *. assert (H2 := IH s' ltac:(lia)). lia.
Qed.

Lemma utf8_length_ascii (s : jsstring) :
  forallb (fun c => c <? 128) s = true ->
  utf8_length s = N.of_nat (List.length s).
Proof.
  induction s as [|c s IH]; [reflexivity|].
  cbn [forallb utf8_length List.length]. intros H.
  apply andb_true_iff in H as [Hc Hs]. rewrite Hc, IH by exact Hs. lia.
Qed.

(** X12. The size recorded for a document is at least the number of code
    units of its content and at most three times that number; for a
    content of ASCII characters it is the length of the content. *)
Theorem recorded_size_bounds (content : jsstring) :
  N.of_nat (List.length content) <= utf8_length content
  /\ utf8_length content <= 3 * N.of_nat (List.length content)
  /\ (forallb (fun c => c <? 128) content = true ->
      utf8_length content = N.of_nat (List.length content))
  /\ (forall name now d st,
         blank_text name = false -> blank_text content = false ->
         exists doc rest,
           knowledgeDocuments (addDocument name content now d st) = doc :: rest
           /\ KnowledgeDocument.size doc = utf8_length content).
Proof.
  destruct (utf8_length_bounds_bounded (List.length content) content (le_n _))
    as [L U].
  split; [exact L|]. split; [exact U|]. split; [apply utf8_length_ascii|].
  intros name now d st Hn Hc. rewrite addDocument_documents.
  unfold valid_call. cbn [call_name call_content]. rewrite Hn, Hc. cbn [negb andb].
  eexists _, _. split; reflexivity.
Qed.

Lemma two_digits (n : N) :
  n < 100 -> padStart2 (N_toString n) = [48 + n / 10; 48 + n mod 10].
Proof.
  intros H. destruct n as [|p]; [reflexivity|].
  do 7 (destruct p as [p|p|]; try reflexivity; try (exfalso; lia)).
Qed.

(** X13. For an hour below 24 and a minute below 60 the time shown has
    five characters: two digits for the hour, a colon, two digits for the
    minute, a leading zero where the number has one digit. *)
Theorem formatTimestamp_shape (d : Date) :
  getHours d < 24 -> getMinutes d < 60 ->
  formatTimestamp d
  = [48 + getHours d / 10; 48 + getHours d mod 10; 58;
     48 + getMinutes d / 10; 48 + getMinutes d mod 10]
  /\ List.length (formatTimestamp d) = 5%nat.
Proof.
  intros Hh Hm. unfold formatTimestamp.
  rewrite !two_digits by lia. split; reflexivity.
Qed.

Lemma formatTimestamp_witness :
  formatTimestamp sample_date = js "09:05".
Proof.
  exact (proj1 (formatTimestamp_shape sample_date
                  ltac:(reflexivity) ltac:(reflexivity))).
Defined.

End Texts.

(** ** More on the size shown *)

Section SizeShown.

Lemma unit_index_multiple (n : N) (i : nat) :
  1 <= n -> n < 1024 -> unit_index (n * 1024 ^ N.of_nat i) = i.
Proof.
  intros H1 H2. unfold unit_index.
  change 1024 with (2 ^ 10) at 1. rewrite <- N.pow_mul_r.
  rewrite N.log2_mul_pow2 by lia.
  assert (L : N.log2 n < 10).
  { apply N.log2_lt_pow2; [lia|]. exact H2. }
  assert (D : (10 * N.of_nat i + N.log2 n) / 10 = N.of_nat i).
  { symmetry. apply (N.div_unique _ _ _ (N.log2 n)); [exact L|reflexivity]. }
  rewrite D. apply Nat2N.id.
Qed.

Lemma hundredths_multiple (n : N) (i : nat) :
  hundredths (n * 1024 ^ N.of_nat i) i = n * 100.
Proof.
  unfold hundredths.
  assert (P : 0 < 1024 ^ N.of_nat i).
  { apply N.neq_0_lt_0, N.pow_nonzero. discriminate. }
  set (p := 1024 ^ N.of_nat i) in *.
  symmetry. apply (N.div_unique _ _ _ p); [lia|]. ring.
Qed.

Lemma hundredths_toString_whole (n : N) :
  hundredths_toString (n * 100) = N_toString n.
Proof.
  unfold hundredths_toString.
  rewrite N.div_mul by discriminate.
  now rewrite N.Div0.mod_mul.
Qed.

(** X14. A whole number of units below 1024 is shown as that number and the
    unit: [n] bytes as "n Bytes", [n * 1024] as "n KB", [n * 1024^2] as
    "n MB". *)
Theorem formatFileSize_whole_units (n : N) (i : nat) :
  1 <= n -> n < 1024 -> (i < 3)%nat ->
  exists u,
    nth_error [js "Bytes"; js "KB"; js "MB"] i = Some u
    /\ formatFileSize (n * 1024 ^ N.of_nat i) = N_toString n ++ js " " ++ u.
Proof.
  intros H1 H2 Hi.
  assert (Z : (n * 1024 ^ N.of_nat i =? 0) = false).
  { apply N.eqb_neq. apply N.neq_mul_0. split; [lia|].
    apply N.pow_nonzero. discriminate. }
  unfold formatFileSize. rewrite Z.
  rewrite unit_index_multiple by assumption.
  rewrite hundredths_multiple, hundredths_toString_whole.
  unfold unit_label, sizes.
  destruct i as [|[|[|i]]]; [eexists; split; reflexivity ..|lia].
Qed.

Lemma formatFileSize_whole_units_witness :
  formatFileSize (512 * 1024 ^ 2) = js "512 MB"
  /\ formatFileSize 1023 = js "1023 Bytes".
Proof.
  destruct (formatFileSize_whole_units 512 2
              ltac:(discriminate) ltac:(reflexivity) ltac:(repeat constructor))
    as (u & Eu & F).
  destruct (formatFileSize_whole_units 1023 0
              ltac:(discriminate) ltac:(reflexivity) ltac:(repeat constructor))
    as (u0 & Eu0 & F0).
  cbn [nth_error] in Eu, Eu0. injection Eu as <-. injection Eu0 as <-.
  split; [exact F|exact F0].
Defined.

(** X15. For every positive byte count below 1024^4, where the index
    computed in double precision is the exact one, the number shown lies
    between 1 and 1024: the count is at least [1024^i] and below
    [1024^(i+1)] for the unit index [i], and the number of hundredths shown
    is between 100 and 102400. *)
Theorem formatFileSize_number_range (bytes : N) :
  0 < bytes -> bytes < 1024 ^ 4 ->
  1024 ^ N.of_nat (unit_index bytes) <= bytes
  /\ bytes < 1024 ^ (N.of_nat (unit_index bytes) + 1)
  /\ 100 <= hundredths bytes (unit_index bytes)
  /\ hundredths bytes (unit_index bytes) <= 102400.
Proof.
  intros H _. unfold hundredths, unit_index. rewrite N2Nat.id.
  destruct (N.log2_spec bytes H) as [Lo Hi].
  remember (N.log2 bytes) as l eqn:El. clear El.
  assert (Dm : l = 10 * (l / 10) + l mod 10) by (apply N.div_mod; discriminate).
  assert (Mr : l mod 10 < 10) by (apply N.mod_lt; discriminate).
  remember (l / 10) as i eqn:Ei. remember (l mod 10) as m eqn:Em. clear Ei Em.
  assert (P1 : 1024 ^ i <= bytes).
  { change 1024 with (2 ^ 10). rewrite <- N.pow_mul_r.
    eapply N.le_trans; [|exact Lo]. apply N.pow_le_mono_r; [discriminate|lia]. }
  assert (P2 : bytes < 1024 ^ (i + 1)).
  { change 1024 with (2 ^ 10). rewrite <- N.pow_mul_r.
    eapply N.lt_le_trans; [exact Hi|]. apply N.pow_le_mono_r; [discriminate|lia]. }
  split; [exact P1|]. split; [exact P2|].
  rewrite N.pow_add_r, N.pow_1_r in P2.
  assert (P : 0 < 1024 ^ i).
  { apply N.neq_0_lt_0, N.pow_nonzero. discriminate. }
  set (p := 1024 ^ i) in *. split.
  - apply N.div_le_lower_bound; lia.
  - apply N.lt_succ_r. apply N.Div0.div_lt_upper_bound. lia.
Qed.

Lemma formatFileSize_number_range_witness :
  1024 ^ N.of_nat (unit_index 1048575) <= 1048575
  /\ hundredths 1048575 (unit_index 1048575) = 102400
  /\ formatFileSize 1048575 = js "1024 KB".
Proof.
  destruct (formatFileSize_number_range 1048575 ltac:(reflexivity)
              ltac:(reflexivity))
    as (Lo & _ & _ & _).
  split; [exact Lo|]. split; reflexivity.
Defined.

End SizeShown.

(** ** Across a reload *)

Section Reload.

Lemma commit_getItem_conversations (st : State) :
  Storage.getItem key_conversations (localStorage (commit st))
  = if conversationsChanged st && (0 <? List.length (conversations st))%nat
    then Some (serialize_conversations (conversation_list st))
    else Storage.getItem key_conversations (localStorage st).
Proof.
  assert (K : key_conversations <> key_knowledgeDocuments)
    by (intros E; vm_compute in E; discriminate E).
  unfold commit, saveConversations, saveKnowledgeDocuments, conversation_list.
  destruct (conversationsChanged st);
    destruct (0 <? List.length (conversations st))%nat; cbn [andb]; fields;
    destruct (knowledgeDocumentsChanged st);
    destruct (0 <? List.length (knowledgeDocuments st))%nat; fields;
    rewrite ?(getItem_setItem_other _ _ _ _ K), ?getItem_setItem_same;
    reflexivity.
Qed.

Lemma commit_getItem_documents (st : State) :
  Storage.getItem key_knowledgeDocuments (localStorage (commit st))
  = if knowledgeDocumentsChanged st && (0 <? List.length (knowledgeDocuments st))%nat
    then Some (serialize_documents (knowledgeDocuments st))
    else Storage.getItem key_knowledgeDocuments (localStorage st).
Proof.
  assert (K : key_knowledgeDocuments <> key_conversations)
    by (intros E; vm_compute in E; discriminate E).
  unfold commit, saveConversations, saveKnowledgeDocuments.
  destruct (conversationsChanged st);
    destruct (0 <? List.length (conversations st))%nat; fields;
    destruct (knowledgeDocumentsChanged st);
    destruct (0 <? List.length (knowledgeDocuments st))%nat; cbn [andb]; fields;
    rewrite ?getItem_setItem_same, ?(getItem_setItem_other _ _ _ _ K);
    reflexivity.
Qed.

Lemma serialize_documents_head (ds : list KnowledgeDocument.t) :
  exists s, serialize_documents ds = 91 :: s.
Proof.
  unfold serialize_documents. cbn [JSON_stringify]. eauto.
Qed.

Lemma serialize_conversations_head (cs : list Conversation.t) :
  exists s, serialize_conversations cs = 91 :: s.
Proof.
  unfold serialize_conversations. cbn [JSON_stringify]. eauto.
Qed.

(** The handlers leave [localStorage] to the effects. *)
Lemma sendBegin_store (now : N) (d : Date) (st st1 : State) (p : Pending) :
  sendBegin now d st = Some (st1, p) ->
  localStorage st1 = localStorage st
  /\ knowledgeDocumentsChanged st1 = knowledgeDocumentsChanged st
  /\ knowledgeDocuments st1 = knowledgeDocuments st.
Proof.
  unfold sendBegin. destruct (current_id st) as [cid|]; [|discriminate].
  destruct (blank_text (input st) || loading st); [discriminate|].
  intros E. injection E as <- _.
  match goal with |- context [updateTitle cid ?t ?s] =>
    destruct (updateTitle_fields cid t s) as (_ & _ & K & _ & _ & Ls);
    destruct (updateTitle_store cid t s) as (_ & F)
  end.
  rewrite Ls, F, K. repeat split.
Qed.

(** The key of the documents holds what it held, or the collection. *)
Lemma step_documents_key (e : Event) (st st' : State) :
  reachable st -> step e st = Some st' ->
  Storage.getItem key_knowledgeDocuments (localStorage st')
  = Storage.getItem key_knowledgeDocuments (localStorage st)
  \/ Storage.getItem key_knowledgeDocuments (localStorage st')
     = Some (serialize_documents (knowledgeDocuments st')).
Proof.
  intros R H. destruct (reachable_invariant st R) as (_ & _ & _ & _ & Fd).
  assert (G : forall s, localStorage s = localStorage st ->
                Storage.getItem key_knowledgeDocuments (localStorage (commit s))
                = Storage.getItem key_knowledgeDocuments (localStorage st)
                \/ Storage.getItem key_knowledgeDocuments (localStorage (commit s))
                   = Some (serialize_documents (knowledgeDocuments (commit s)))).
  { intros s Ls. rewrite commit_getItem_documents, commit_documents.
    destruct (knowledgeDocumentsChanged s && _); [now right|left; now rewrite Ls]. }
  destruct e as [now d1 d2|convId|text|n c|now d|docId|now1 d1 reply now2 d2].
  - cbn [step] in H. injection H as <-. apply G.
    unfold createNewConversation, alloc. reflexivity.
  - cbn [step] in H. injection H as <-. apply G. unfold switchConversation.
    destruct (find_conversation convId (heap st) (conversations st)); reflexivity.
  - cbn [step] in H. injection H as <-. now apply G.
  - cbn [step] in H. injection H as <-. now apply G.
  - cbn [step] in H. injection H as <-. apply G. unfold handleAddDocument.
    destruct (blank_text (uploadName st) || blank_text (uploadContent st));
      reflexivity.
  - cbn [step] in H. injection H as <-. now apply G.
  - destruct (sendBegin now1 d1 st) as [[st1 p]|] eqn:Eb.
    + left. cbn [step] in H. unfold handleSendMessage in H. rewrite Eb in H.
      destruct (sendFinish p reply now2 d2 (commit st1)) as [st2|] eqn:Ef;
        [|discriminate].
      injection H as <-.
      destruct (sendFinish_text _ _ _ _ _ _ Ef) as (text & -> & _).
      destruct (appendAssistant_store p text now2 d2 (commit st1))
        as (_ & A2 & A3 & _).
      destruct (sendBegin_store now1 d1 st st1 p Eb) as (Ls & F1 & _).
      destruct (commit_settled st1) as (_ & F2).
      rewrite commit_getItem_documents, A2, F2, A3. cbn [andb].
      rewrite commit_getItem_documents, F1, Fd, Ls. reflexivity.
    + rewrite (stopped_send_same now1 d1 reply now2 d2 st R Eb) in H.
      injection H as <-. now left.
Qed.

(** While the collection of conversations is empty its key is not
    written, and a collection that is empty was empty before. *)
Lemma step_conversations_key (e : Event) (st st' : State) :
  reachable st -> step e st = Some st' ->
  conversations st' = [] ->
  conversations st = []
  /\ Storage.getItem key_conversations (localStorage st')
     = Storage.getItem key_conversations (localStorage st).
Proof.
  intros R H E.
  assert (G : forall s, localStorage s = localStorage st ->
                conversations s = [] ->
                Storage.getItem key_conversations (localStorage (commit s))
                = Storage.getItem key_conversations (localStorage st)).
  { intros s Ls Es. rewrite commit_getItem_conversations, Es, Ls.
    now rewrite andb_false_r. }
  assert (C : forall s, conversations (commit s) = conversations s).
  { intros s. destruct (commit_shape s) as [ls ->]. reflexivity. }
  destruct e as [now d1 d2|convId|text|n c|now d|docId|now1 d1 reply now2 d2].
  - cbn [step] in H. injection H as <-. rewrite C in E.
    unfold createNewConversation, alloc in E. discriminate E.
  - cbn [step] in H. injection H as <-. rewrite C in E.
    assert (E0 : conversations st = []).
    { unfold switchConversation in E.
      destruct (find_conversation convId (heap st) (conversations st)); exact E. }
    split; [exact E0|]. apply G; [|exact E].
    unfold switchConversation.
    destruct (find_conversation convId (heap st) (conversations st)); reflexivity.
  - cbn [step] in H. injection H as <-. rewrite C in E. split; [exact E|].
    now apply G.
  - cbn [step] in H. injection H as <-. rewrite C in E. split; [exact E|].
    now apply G.
  - cbn [step] in H. injection H as <-. rewrite C in E.
    assert (E0 : conversations st = []).
    { unfold handleAddDocument in E.
      destruct (blank_text (uploadName st) || blank_text (uploadContent st));
        exact E. }
    split; [exact E0|]. apply G; [|exact E].
    unfold handleAddDocument.
    destruct (blank_text (uploadName st) || blank_text (uploadContent st));
      reflexivity.
  - cbn [step] in H. injection H as <-. rewrite C in E. split; [exact E|].
    now apply G.
  - destruct (sendBegin now1 d1 st) as [[st1 p]|] eqn:Eb.
    + exfalso.
      destruct (sent_step now1 d1 reply now2 d2 st st1 st' p R Eb H)
        as (cid & text & Ec & _ & _ & _ & _ & L & _).
      destruct (active_conversation_found st cid R Ec) as (c & I & _).
      apply (f_equal (@List.length _)) in L.
      rewrite length_with_messages_of, length_retitle_first in L.
      unfold conversation_list in L at 1. rewrite E in L. cbn in L.
      destruct (conversation_list st); [destruct I|discriminate L].
    + rewrite (stopped_send_same now1 d1 reply now2 d2 st R Eb) in H.
      injection H as <-. now split.
Qed.

Lemma agree_nonempty (st : State) :
  stored_in_full st -> conversations st <> [] ->
  conversations_agree (localStorage st) (conversation_list st).
Proof.
  intros [C _] Hne. unfold conversations_agree. rewrite (C Hne).
  destruct (serialize_conversations_head (conversation_list st)) as [s E].
  rewrite E, <- E. apply deserialize_serialize_conversations.
Qed.

Lemma readable_nonempty (st : State) :
  stored_in_full st -> knowledgeDocuments st <> [] ->
  documents_readable (localStorage st) (knowledgeDocuments st).
Proof.
  intros [_ D] Hne. unfold documents_readable. rewrite (D Hne).
  destruct (serialize_documents_head (knowledgeDocuments st)) as [s E].
  rewrite E, <- E. exists (knowledgeDocuments st).
  split; [apply deserialize_serialize_documents|reflexivity].
Qed.

Lemma loads_keep_store (ls : Storage.t) (st1 st2 : State) :
  loadConversations (initialState ls) = Some st1 ->
  loadKnowledgeDocuments st1 = Some st2 ->
  localStorage st1 = ls /\ localStorage st2 = ls
  /\ conversations st2 = conversations st1
  /\ heap st2 = heap st1
  /\ knowledgeDocuments st1 = [].
Proof.
  unfold loadConversations, loadKnowledgeDocuments. intros E1 E2.
  assert (L1 : localStorage st1 = ls /\ knowledgeDocuments st1 = []).
  { destruct (Storage.getItem key_conversations (localStorage (initialState ls)))
      as [[|c s]|];
      [| destruct (deserialize_conversations (c :: s)) as [[|first rest]|];
         [| |discriminate] |];
      injection E1 as <-; split; reflexivity. }
  destruct L1 as [L1 K1].
  destruct (Storage.getItem key_knowledgeDocuments (localStorage st1)) as [[|c s]|];
    [| destruct (deserialize_documents (c :: s)) as [parsed|]; [|discriminate] |];
    injection E2 as <-; repeat split; assumption.
Qed.

Lemma mount_store_agrees (ls : Storage.t) (st : State) :
  mount ls = Some st ->
  conversations_agree (localStorage st) (conversation_list st)
  /\ documents_readable (localStorage st) (knowledgeDocuments st).
Proof.
  intros H. pose proof (mount_stored ls st H) as S.
  unfold mount in H.
  destruct (loadConversations (initialState ls)) as [st1|] eqn:E1; [|discriminate].
  destruct (loadKnowledgeDocuments st1) as [st2|] eqn:E2; [|discriminate].
  injection H as <-.
  destruct (loads_keep_store ls st1 st2 E1 E2) as (L1 & L2 & C2 & H2 & K1).
  assert (C : conversations (commit st2) = conversations st2).
  { destruct (commit_shape st2) as [ls' ->]. reflexivity. }
  split.
  - destruct (conversations st2) as [|r rs] eqn:Ec.
    + unfold conversations_agree, conversation_list.
      rewrite commit_getItem_conversations, C, Ec, L2, andb_false_r.
      cbn [List.map].
      unfold loadConversations in E1. cbn [localStorage initialState] in E1.
      destruct (Storage.getItem key_conversations ls) as [[|c s]|]; try reflexivity.
      destruct (deserialize_conversations (c :: s)) as [[|first rest]|];
        [reflexivity| |discriminate].
      injection E1 as <-. cbn in C2. discriminate C2.
    + apply agree_nonempty; [exact S|]. rewrite C. discriminate.
  - destruct (knowledgeDocuments st2) as [|doc ds] eqn:Ed.
    + unfold documents_readable.
      rewrite commit_getItem_documents, commit_documents, Ed, L2, andb_false_r.
      unfold loadKnowledgeDocuments in E2. rewrite L1 in E2.
      destruct (Storage.getItem key_knowledgeDocuments ls) as [[|c s]|];
        try reflexivity.
      destruct (deserialize_documents (c :: s)) as [parsed|]; [|discriminate].
      exists parsed. split; [reflexivity|]. intros N. now contradiction N.
    + apply readable_nonempty; [exact S|]. rewrite commit_documents, Ed. discriminate.
Qed.

(** In every reachable state the store agrees with the conversations, and
    its text of the documents can be read. *)
Lemma reachable_store_agrees (st : State) :
  reachable st ->
  conversations_agree (localStorage st) (conversation_list st)
  /\ documents_readable (localStorage st) (knowledgeDocuments st).
Proof.
  induction 1 as [ls st H|e st st' R [IHc IHd] H];
    [eapply mount_store_agrees, H|].
  assert (R' : reachable st') by (eapply reach_step; eassumption).
  pose proof (reachable_stored_in_full st' R') as S. split.
  - destruct (conversations st') as [|r rs] eqn:Ec.
    + destruct (step_conversations_key e st st' R H Ec) as [E0 K].
      unfold conversations_agree, conversation_list in *.
      rewrite K, Ec. rewrite E0 in IHc. exact IHc.
    + apply agree_nonempty; [exact S|]. rewrite Ec. discriminate.
  - destruct (knowledgeDocuments st') as [|doc ds] eqn:Ed.
    + unfold documents_readable in *.
      destruct (step_documents_key e st st' R H) as [K|K]; rewrite K.
      * destruct (Storage.getItem key_knowledgeDocuments (localStorage st))
          as [[|c s]|]; try reflexivity.
        destruct IHd as (stored & Es & _). exists stored.
        split; [exact Es|]. intros N. now contradiction N.
      * rewrite Ed.
        destruct (serialize_documents_head []) as [s E]. rewrite E, <- E.
        exists []. split; [apply deserialize_serialize_documents|reflexivity].
    + rewrite <- Ed. apply readable_nonempty; [exact S|]. rewrite Ed. discriminate.
Qed.

(** X16. Reloading the page in any reachable state succeeds and gives back
    the conversations, the same ones in the same order, with the first one
    active and its messages as the visible thread; it gives back the
    documents whenever the collection of documents is not empty. *)
Theorem reload_restores (st : State) :
  reachable st ->
  exists st2,
    mount (localStorage st) = Some st2
    /\ conversation_list st2 = conversation_list st
    /\ (knowledgeDocuments st <> [] -> knowledgeDocuments st2 = knowledgeDocuments st)
    /\ currentConversationId st2
       = option_map Conversation.id (hd_error (conversation_list st))
    /\ messages st2
       = match conversation_list st with
         | first :: _ => Conversation.messages first
         | [] => []
         end.
Proof.
  intros R. destruct (reachable_store_agrees st R) as [Ac Ad].
  unfold conversations_agree, documents_readable in *.
  assert (L1 : exists st1,
             loadConversations (initialState (localStorage st)) = Some st1
             /\ conversation_list st1 = conversation_list st
             /\ localStorage st1 = localStorage st
             /\ currentConversationId st1
                = option_map Conversation.id (hd_error (conversation_list st))
             /\ messages st1
                = match conversation_list st with
                  | first :: _ => Conversation.messages first
                  | [] => []
                  end).
  { unfold loadConversations. cbn [localStorage initialState].
    destruct (Storage.getItem key_conversations (localStorage st)) as [[|c s]|].
    - rewrite Ac. eexists. repeat split.
    - rewrite Ac. unfold alloc_all. cbn [heap initialState app List.length].
      destruct (conversation_list st) as [|first rest] eqn:El.
      + eexists. repeat split.
      + eexists. split; [reflexivity|]. unfold conversation_list. fields.
        split; [|repeat split].
        exact (map_deref_seq [] (first :: rest)).
    - rewrite Ac. eexists. repeat split. }
  destruct L1 as (st1 & E1 & C1 & S1 & I1 & M1).
  assert (L2 : exists st2,
             loadKnowledgeDocuments st1 = Some st2
             /\ conversation_list st2 = conversation_list st1
             /\ currentConversationId st2 = currentConversationId st1
             /\ messages st2 = messages st1
             /\ (knowledgeDocuments st <> [] ->
                 knowledgeDocuments st2 = knowledgeDocuments st)).
  { unfold loadKnowledgeDocuments. rewrite S1.
    destruct (Storage.getItem key_knowledgeDocuments (localStorage st)) as [[|c s]|].
    - eexists. repeat split. intros N. contradiction.
    - destruct Ad as (stored & Es & Hs). rewrite Es.
      eexists. repeat split. intros N. cbn. now apply Hs.
    - eexists. repeat split. intros N. contradiction. }
  destruct L2 as (st2 & E2 & C2 & I2 & M2 & D2).
  exists (commit st2). unfold mount. rewrite E1, E2.
  rewrite commit_conversation_list, commit_documents, commit_current,
    commit_messages.
  split; [reflexivity|]. split; [congruence|]. split; [exact D2|].
  split; congruence.
Qed.

Lemma reload_witness :
  exists st2,
    mount (localStorage (state_after sample_events_with_document)) = Some st2
    /\ conversation_list st2
       = conversation_list (state_after sample_events_with_document)
    /\ knowledgeDocuments st2 = [sample_document]
    /\ currentConversationId st2 = Some (js "1700").
Proof.
  destruct (reload_restores (state_after sample_events_with_document)
              (state_after_reachable sample_events_with_document))
    as (st2 & E & C & D & I & _).
  exists st2. split; [exact E|]. split; [exact C|].
  split; [apply D; discriminate|exact I].
Defined.

End Reload.

(** ** Downloading a document *)

Section Download.

Lemma hex_val_hex_upper (n : N) : n < 16 -> hex_val (hex_upper n) = Some n.
Proof.
  intros H. destruct n as [|p]; [reflexivity|].
  do 4 (destruct p as [p|p|]; try reflexivity); lia.
Qed.

Lemma hex_upper_ascii (n : N) : n < 16 -> hex_upper n < 128.
Proof. intros H. unfold hex_upper. destruct (n <? 10); lia. Qed.

Lemma percent_decode_byte (b : N) (rest : jsstring) :
  b < 256 -> percent_decode (percent_byte b ++ rest) = b :: percent_decode rest.
Proof.
  intros H. unfold percent_byte. cbn [app percent_decode].
  change (37 =? 37) with true. cbv iota. unfold hex_pair.
  rewrite !hex_val_hex_upper
    by (try (apply N.mod_lt; lia); apply N.Div0.div_lt_upper_bound; lia).
  rewrite <- (N.div_mod b 16) by lia. reflexivity.
Qed.

Lemma percent_decode_bytes (bs : list N) (rest : jsstring) :
  Forall (fun b => b < 256) bs ->
  percent_decode (percent_bytes bs ++ rest) = bs ++ percent_decode rest.
Proof.
  induction 1 as [|b bs Hb _ IH]; [reflexivity|].
  unfold percent_bytes in *. cbn [flat_map]. rewrite <- app_assoc.
  rewrite percent_decode_byte by exact Hb. rewrite IH. reflexivity.
Qed.

Lemma percent_bytes_ascii (bs : list N) :
  Forall (fun b => b < 256) bs ->
  Forall (fun c => c < 128) (percent_bytes bs).
Proof.
  induction 1 as [|b bs Hb _ IH]; [constructor|].
  unfold percent_bytes in *. cbn [flat_map]. unfold percent_byte at 1.
  cbn [app]. constructor; [lia|].
  constructor;
    [apply hex_upper_ascii, N.Div0.div_lt_upper_bound; lia|].
  constructor; [apply hex_upper_ascii, N.mod_lt; lia|exact IH].
Qed.

Lemma unreserved_ascii (c : code_unit) :
  is_uri_unreserved c = true -> c < 128 /\ c <> 37.
Proof.
  unfold is_uri_unreserved, is_digit. cbn [existsb].
  rewrite !orb_true_iff, !andb_true_iff, !N.leb_le, !N.eqb_eq. lia.
Qed.

Lemma percent_decode_plain (c : code_unit) (rest : jsstring) :
  c <> 37 -> percent_decode (c :: rest) = c :: percent_decode rest.
Proof.
  intros H. apply N.eqb_neq in H. cbn [percent_decode]. rewrite H.
  destruct rest as [|h1 [|h2 s']]; reflexivity.
Qed.

Lemma utf8_bytes_bounded (cp : N) :
  cp < 1114112 -> Forall (fun b => b < 256) (utf8_bytes cp).
Proof.
  intros H. unfold utf8_bytes.
  pose proof (N.mod_lt cp 64 ltac:(lia)).
  pose proof (N.mod_lt (cp / 64) 64 ltac:(lia)).
  pose proof (N.mod_lt (cp / 4096) 64 ltac:(lia)).
  destruct (cp <? 128) eqn:E1; [apply N.ltb_lt in E1; repeat constructor; lia|].
  destruct (cp <? 2048) eqn:E2.
  { apply N.ltb_lt in E2.
    assert (cp / 64 < 32) by (apply N.Div0.div_lt_upper_bound; lia).
    repeat constructor; lia. }
  destruct (cp <? 65536) eqn:E3.
  { apply N.ltb_lt in E3.
    assert (cp / 4096 < 16) by (apply N.Div0.div_lt_upper_bound; lia).
    repeat constructor; lia. }
  assert (cp / 262144 < 16) by (apply N.Div0.div_lt_upper_bound; lia).
  repeat constructor; lia.
Qed.

Lemma utf8_bytes_length (cp : N) :
  N.of_nat (List.length (utf8_bytes cp))
  = if cp <? 128 then 1 else if cp <? 2048 then 2
    else if cp <? 65536 then 3 else 4.
Proof.
  unfold utf8_bytes.
  destruct (cp <? 128); [reflexivity|]. destruct (cp <? 2048); [reflexivity|].
  destruct (cp <? 65536); reflexivity.
Qed.

Lemma surrogate_ranges (c : code_unit) :
  (is_high_surrogate c = true <-> 55296 <= c <= 56319)
  /\ (is_low_surrogate c = true <-> 56320 <= c <= 57343).
Proof.
  unfold is_high_surrogate, is_low_surrogate.
  rewrite !andb_true_iff, !N.leb_le. tauto.
Qed.

Lemma code_point_range (c d : code_unit) :
  is_high_surrogate c = true -> is_low_surrogate d = true ->
  65536 <= code_point c d < 1114112.
Proof.
  intros Hc Hd. apply surrogate_ranges in Hc. apply surrogate_ranges in Hd.
  unfold code_point. lia.
Qed.

(** The size [handleAddDocument] records is the number of bytes of the
    UTF-8 encoding. *)
Lemma utf8_encode_length_bounded (n : nat) :
  forall s, (List.length s <= n)%nat -> Forall (fun c => c < 65536) s ->
    N.of_nat (List.length (utf8_encode s)) = utf8_length s.
Proof.
  induction n as [|n IH]; intros s Hn Hs.
  - destruct s; [reflexivity|cbn in Hn; lia].
  - destruct s as [|c s]; [reflexivity|]. cbn [List.length] in Hn.
    inversion Hs as [|? ? Hc Hs']; subst.
    pose proof (IH s ltac:(lia) Hs') as IHs.
    cbn [utf8_encode utf8_length].
    destruct (surrogate_ranges c) as [Rh Rl].
    destruct (is_high_surrogate c) eqn:Eh.
    + destruct Rh as [Rh _]. specialize (Rh eq_refl).
      replace (c <? 128) with false by (symmetry; apply N.ltb_ge; lia).
      replace (c <? 2048) with false by (symmetry; apply N.ltb_ge; lia).
      destruct s as [|d s']; [reflexivity|].
      destruct (is_low_surrogate d) eqn:Ed.
      * inversion Hs' as [|? ? Hd Hs'']; subst. cbn [List.length] in Hn.
        pose proof (IH s' ltac:(lia) Hs'') as IHs'.
        pose proof (code_point_range c d Eh Ed) as R.
        rewrite length_app, Nat2N.inj_add, utf8_bytes_length, IHs'.
        replace (code_point c d <? 128) with false
          by (symmetry; apply N.ltb_ge; lia).
        replace (code_point c d <? 2048) with false
          by (symmetry; apply N.ltb_ge; lia).
        replace (code_point c d <? 65536) with false
          by (symmetry; apply N.ltb_ge; lia).
        reflexivity.
      * rewrite length_app, Nat2N.inj_add, IHs. reflexivity.
    + destruct (is_low_surrogate c) eqn:El.
      * destruct Rl as [Rl _]. specialize (Rl eq_refl).
        replace (c <? 128) with false by (symmetry; apply N.ltb_ge; lia).
        replace (c <? 2048) with false by (symmetry; apply N.ltb_ge; lia).
        rewrite length_app, Nat2N.inj_add, IHs. reflexivity.
      * rewrite length_app, Nat2N.inj_add, utf8_bytes_length, IHs.
        destruct (c <? 128); [reflexivity|].
        destruct (c <? 2048); [reflexivity|].
        replace (c <? 65536) with true by (symmetry; apply N.ltb_lt; lia).
        reflexivity.
Qed.

Lemma encodeURIComponent_bounded (n : nat) :
  forall s, (List.length s <= n)%nat -> Forall (fun c => c < 65536) s ->
    match encodeURIComponent s with
    | Some encoded =>
        well_formed s = true
        /\ Forall (fun c => c < 128) encoded
        /\ percent_decode encoded = utf8_encode s
    | None => well_formed s = false
    end.
Proof.
  induction n as [|n IH]; intros s Hn Hs.
  - destruct s; [|cbn in Hn; lia]. cbn. repeat split. constructor.
  - destruct s as [|c s]; [cbn; repeat split; constructor|].
    cbn [List.length] in Hn. inversion Hs as [|? ? Hc Hs']; subst.
    pose proof (IH s ltac:(lia) Hs') as IHs.
    cbn [encodeURIComponent well_formed utf8_encode].
    destruct (surrogate_ranges c) as [Rh Rl].
    destruct (is_uri_unreserved c) eqn:Eu.
    + destruct (unreserved_ascii c Eu) as [A N37].
      replace (is_high_surrogate c) with false
        by (symmetry; apply not_true_is_false; intros E; apply Rh in E; lia).
      replace (is_low_surrogate c) with false
        by (symmetry; apply not_true_is_false; intros E; apply Rl in E; lia).
      cbn [negb andb].
      destruct (encodeURIComponent s) as [e|]; cbn [option_map]; [|exact IHs].
      destruct IHs as (W & F & D). split; [exact W|].
      split; [constructor; assumption|].
      rewrite percent_decode_plain by exact N37. rewrite D.
      unfold utf8_bytes. replace (c <? 128) with true
        by (symmetry; apply N.ltb_lt; lia).
      reflexivity.
    + destruct (is_low_surrogate c) eqn:El.
      { replace (is_high_surrogate c) with false
          by (symmetry; apply not_true_is_false; intros E; apply Rh in E;
              destruct Rl as [Rl _]; specialize (Rl eq_refl); lia).
        reflexivity. }
      destruct (is_high_surrogate c) eqn:Eh.
      * destruct s as [|d s']; [reflexivity|].
        destruct (is_low_surrogate d) eqn:Ed; [|reflexivity].
        inversion Hs' as [|? ? Hd Hs'']; subst. cbn [List.length] in Hn.
        pose proof (IH s' ltac:(lia) Hs'') as IHs'.
        pose proof (code_point_range c d Eh Ed) as R. cbn [andb].
        destruct (encodeURIComponent s') as [e|]; cbn [option_map];
          [|exact IHs'].
        destruct IHs' as (W & F & D). split; [exact W|].
        split;
          [apply Forall_app; split;
           [apply percent_bytes_ascii, utf8_bytes_bounded; lia|exact F]|].
        rewrite percent_decode_bytes by (apply utf8_bytes_bounded; lia).
        rewrite D. reflexivity.
      * cbn [negb andb].
        destruct (encodeURIComponent s) as [e|]; cbn [option_map]; [|exact IHs].
        destruct IHs as (W & F & D). split; [exact W|].
        split;
          [apply Forall_app; split;
           [apply percent_bytes_ascii, utf8_bytes_bounded; lia|exact F]|].
        rewrite percent_decode_bytes by (apply utf8_bytes_bounded; lia).
        rewrite D. reflexivity.
Qed.

(** X17. Downloading a document fails exactly when its content has a
    surrogate without its partner.  Otherwise the link is named after the
    document, its address is the [data:] prefix followed by ASCII
    characters, and these decode to the UTF-8 bytes of the content, as many
    as the size that [handleAddDocument] records for this content. *)
Theorem download_gives_content_bytes (doc : KnowledgeDocument.t) :
  Forall (fun c => c < 65536) (KnowledgeDocument.content doc) ->
  match downloadDocument doc with
  | Some a =>
      well_formed (KnowledgeDocument.content doc) = true
      /\ download a = KnowledgeDocument.name doc
      /\ exists payload,
           href a = js "data:text/plain;charset=utf-8," ++ payload
           /\ Forall (fun c => c < 128) payload
           /\ percent_decode payload = utf8_encode (KnowledgeDocument.content doc)
           /\ N.of_nat (List.length (percent_decode payload))
              = utf8_length (KnowledgeDocument.content doc)
  | None => well_formed (KnowledgeDocument.content doc) = false
  end.
Proof.
  intros H. unfold downloadDocument.
  pose proof (encodeURIComponent_bounded _ _ (le_n _) H) as E.
  destruct (encodeURIComponent (KnowledgeDocument.content doc)) as [e|];
    [|exact E].
  destruct E as (W & F & D). split; [exact W|]. split; [reflexivity|].
  exists e. split; [reflexivity|]. split; [exact F|]. split; [exact D|].
  rewrite D. apply (utf8_encode_length_bounded _ _ (le_n _) H).
Qed.

Lemma accented_content_units :
  Forall (fun c => c < 65536) (KnowledgeDocument.content accented_document).
Proof. repeat constructor. Qed.

Lemma download_witness :
  Forall (fun c => c < 65536) (KnowledgeDocument.content accented_document)
  /\ match downloadDocument accented_document with
     | Some a =>
         well_formed (KnowledgeDocument.content accented_document) = true
         /\ download a = KnowledgeDocument.name accented_document
         /\ exists payload,
              href a = js "data:text/plain;charset=utf-8," ++ payload
              /\ Forall (fun c => c < 128) payload
              /\ percent_decode payload
                 = utf8_encode (KnowledgeDocument.content accented_document)
              /\ N.of_nat (List.length (percent_decode payload))
                 = utf8_length (KnowledgeDocument.content accented_document)
     | None => well_formed (KnowledgeDocument.content accented_document) = false
     end.
Proof.
  split; [exact accented_content_units|].
  exact (download_gives_content_bytes accented_document accented_content_units).
Defined.

(** The link for a content with an accent, the euro sign and an emoji. *)
Example download_accented :
  option_map href (downloadDocument accented_document)
  = Some (js "data:text/plain;charset=utf-8,caf%C3%A9%20%E2%82%AC5%20%F0%9F%98%80").
Proof. reflexivity. Qed.

(** A content that can be added, with its size recorded, and not
    downloaded. *)
Example download_lone_surrogate :
  downloadDocument (KnowledgeDocument.mk (js "1") (js "a") [97; 55357] (js "") 4)
  = None
  /\ utf8_length [97; 55357] = 4.
Proof. split; reflexivity. Qed.

End Download.

(** ** The page while a request is pending *)

Section PendingRequests.

Lemma commit_keeps (st : State) :
  heap (commit st) = heap st
  /\ conversations (commit st) = conversations st
  /\ loading (commit st) = loading st.
Proof. destruct (commit_shape st) as [ls ->]. repeat split. Qed.

Lemma commit_refs_valid (st : State) : refs_valid st -> refs_valid (commit st).
Proof.
  unfold refs_valid. destruct (commit_keeps st) as (-> & -> & _). exact (fun H => H).
Qed.

(** A handler keeps the references valid and [loading] as it is; while
    [loading] is set it leaves every object of the store as it is. *)
Lemma step_keeps (e : Event) (st st' : State) :
  refs_valid st -> step e st = Some st' ->
  refs_valid st'
  /\ loading st' = loading st
  /\ (loading st = true -> exists ext, heap st' = heap st ++ ext).
Proof.
  intros V H.
  assert (G : forall s, refs_valid s -> loading s = loading st ->
                (loading st = true -> exists ext, heap s = heap st ++ ext) ->
                refs_valid (commit s)
                /\ loading (commit s) = loading st
                /\ (loading st = true -> exists ext, heap (commit s) = heap st ++ ext)).
  { intros s Vs Ls Hs. split; [now apply commit_refs_valid|].
    destruct (commit_keeps s) as (-> & _ & ->). now split. }
  assert (Same : loading st = true -> exists ext, heap st = heap st ++ ext).
  { intros _. exists []. now rewrite app_nil_r. }
  destruct e as [now d1 d2|convId|text|n c|now d|docId|now1 d1 reply now2 d2];
    cbn [step] in H.
  - injection H as <-.
    destruct (createNewConversation_list now d1 d2 st V) as (V' & _).
    apply G; [exact V'|reflexivity|].
    intros _. unfold createNewConversation, alloc. fields. eexists. reflexivity.
  - injection H as <-. unfold switchConversation.
    destruct (find_conversation convId (heap st) (conversations st)); now apply G.
  - injection H as <-. now apply G.
  - injection H as <-. now apply G.
  - injection H as <-. unfold handleAddDocument.
    destruct (blank_text (uploadName st) || blank_text (uploadContent st));
      now apply G.
  - injection H as <-. now apply G.
  - unfold handleSendMessage in H.
    destruct (sendBegin now1 d1 st) as [[st1 p]|] eqn:Eb.
    + destruct (sendFinish p reply now2 d2 (commit st1)) as [st2|] eqn:Ef;
        [|discriminate].
      injection H as <-.
      destruct (sendFinish_text _ _ _ _ _ _ Ef) as (text & -> & _).
      destruct (sendBegin_effect now1 d1 st st1 p V Eb) as (_ & _ & _ & L0 & _).
      destruct (send_effect now1 d1 now2 d2 text st st1 p V Eb)
        as (cid & _ & V' & _ & _ & _ & _ & Lo).
      split; [now apply commit_refs_valid|].
      destruct (commit_keeps (appendAssistant p text now2 d2 (commit st1)))
        as (_ & _ & ->).
      split; [congruence|]. intros T. congruence.
    + injection H as <-. now apply G.
Qed.

Lemma sendBegin_loading (now : N) (d : Date) (st st1 : State) (p : Pending) :
  sendBegin now d st = Some (st1, p) -> loading st1 = true.
Proof.
  unfold sendBegin. destruct (current_id st) as [cid|]; [|discriminate].
  destruct (blank_text (input st) || loading st); [discriminate|].
  intros E. injection E as <- _.
  destruct (updateTitle_fields cid (input st)
              (setLoading true
                 (setInput [] (setMessages
                    (messages st
                       ++ [Message.mk (N_toString now) (input st) Message.user
                             (formatTimestamp d)]) st))))
    as (_ & _ & _ & _ & -> & _).
  reflexivity.
Qed.

Lemma mount_page_invariant (ls : Storage.t) (st : State) :
  mount ls = Some st -> page_invariant (mkPage st None).
Proof.
  intros H. destruct (mount_invariant ls st H) as (V & _ & L & _).
  split; [exact V|exact L].
Qed.

Lemma page_step_invariant (a : Action) (pg pg' : Page) :
  page_invariant pg -> page_step a pg = Some pg' -> page_invariant pg'.
Proof.
  intros [V F] H. destruct pg as [st fl]. cbn [page_state in_flight] in *.
  destruct a as [e|now d|reply now d]; cbn [page_step page_state in_flight] in H.
  - destruct (enabled e st); [|discriminate].
    destruct (step e st) as [st'|] eqn:E; [|discriminate]. injection H as <-.
    destruct (step_keeps e st st' V E) as (V' & L' & X).
    split; [exact V'|]. cbn [page_state in_flight].
    destruct fl as [p|]; [|congruence].
    destruct F as [Lt Rp]. split; [congruence|].
    destruct (X Lt) as [ext ->]. now apply refs_in_app.
  - destruct (sendBegin now d st) as [[st1 p]|] eqn:Eb.
    + injection H as <-.
      destruct (sendBegin_effect now d st st1 p V Eb)
        as (cid & _ & _ & _ & Ep & V1 & C1 & _).
      pose proof (sendBegin_loading now d st st1 p Eb) as L1.
      split; cbn [page_state in_flight]; [now apply commit_refs_valid|].
      destruct (commit_keeps st1) as (-> & _ & ->). split; [exact L1|].
      subst p. cbn [p_conversations]. rewrite <- C1. exact V1.
    + injection H as <-. now split.
  - destruct fl as [p|]; [|discriminate]. destruct F as [Lt Rp].
    destruct (sendFinish p reply now d st) as [st'|] eqn:Ef; [|discriminate].
    injection H as <-.
    destruct (sendFinish_text _ _ _ _ _ _ Ef) as (text & -> & _).
    destruct (appendAssistant_effect p text now d st Rp) as (V' & _ & _ & _ & _ & Lo).
    split; cbn [page_state in_flight]; [now apply commit_refs_valid|].
    destruct (commit_keeps (appendAssistant p text now d st)) as (_ & _ & ->).
    exact Lo.
Qed.

Lemma page_reachable_invariant (pg : Page) : page_reachable pg -> page_invariant pg.
Proof.
  induction 1 as [ls st H|a pg pg' _ IH H].
  - eapply mount_page_invariant, H.
  - eapply page_step_invariant; eassumption.
Qed.

Lemma page_run_reachable (acts : list Action) (pg pg' : Page) :
  page_reachable pg -> page_run acts pg = Some pg' -> page_reachable pg'.
Proof.
  revert pg; induction acts as [|a acts IH]; intros pg R H; cbn [page_run] in H.
  - injection H as <-. exact R.
  - destruct (page_step a pg) as [pg1|] eqn:E; [|discriminate].
    eapply IH; [|exact H]. eapply page_next; eassumption.
Qed.

Lemma page_run_app (acts1 acts2 : list Action) (pg : Page) :
  page_run (acts1 ++ acts2) pg
  = match page_run acts1 pg with
    | Some pg1 => page_run acts2 pg1
    | None => None
    end.
Proof.
  revert pg; induction acts1 as [|a acts1 IH]; intros pg; [reflexivity|].
  cbn [app page_run]. destruct (page_step a pg); [apply IH|reflexivity].
Qed.

Lemma initialPage_reachable : page_reachable initialPage.
Proof. apply page_mount with (ls := []). reflexivity. Qed.

Lemma page_after_reachable (acts : list Action) : page_reachable (page_after acts).
Proof.
  unfold page_after.
  destruct (page_run acts initialPage) as [pg|] eqn:E;
    [|exact initialPage_reachable].
  eapply page_run_reachable; [exact initialPage_reachable|exact E].
Qed.

(** A state reached with nothing clicked during any request is a state of
    the page. *)
Lemma reachable_page_reachable (st : State) :
  reachable st -> page_reachable (mkPage st None).
Proof.
  induction 1 as [ls st H|e st st' R IH H].
  - eapply page_mount, H.
  - apply page_next with (a := Click e) (pg := mkPage st None); [exact IH|].
    cbn [page_step page_state in_flight].
    destruct (reachable_invariant st R) as (_ & _ & L & _).
    replace (enabled e st) with true
      by (destruct e; cbn [enabled]; rewrite ?L; reflexivity).
    now rewrite H.
Qed.

(** What is clicked while a request is pending leaves the request in
    flight and the objects it refers to as they are. *)
Lemma clicks_while_pending (es : list Event) :
  forall pg pg2 p,
    page_invariant pg -> in_flight pg = Some p ->
    page_run (List.map Click es) pg = Some pg2 ->
    page_invariant pg2
    /\ in_flight pg2 = Some p
    /\ exists ext, heap (page_state pg2) = heap (page_state pg) ++ ext.
Proof.
  induction es as [|e es IH]; intros pg pg2 p I F H; cbn [List.map page_run] in H.
  - injection H as <-. split; [exact I|]. split; [exact F|].
    exists []. now rewrite app_nil_r.
  - destruct (page_step (Click e) pg) as [pg1|] eqn:E; [|discriminate].
    pose proof (page_step_invariant _ _ _ I E) as I1.
    destruct I as [V Fl]. rewrite F in Fl. destruct Fl as [Lt _].
    cbn [page_step] in E. destruct (enabled e (page_state pg)); [|discriminate].
    destruct (step e (page_state pg)) as [st1|] eqn:Es; [|discriminate].
    injection E as <-.
    destruct (step_keeps e _ _ V Es) as (_ & _ & X). destruct (X Lt) as [ext1 E1].
    destruct (IH _ pg2 p I1 F H) as (I2 & F2 & ext2 & E2).
    split; [exact I2|]. split; [exact F2|].
    cbn [page_state] in E2. rewrite E2, E1, <- app_assoc. eexists. reflexivity.
Qed.

(** A turn, with whatever is clicked while its request is pending: the
    collection it leaves is the collection of the moment of the submit,
    with the title rule applied and with the thread of that moment, the
    message of the user and the message of the assistant as the messages
    of every conversation of the id active at that moment. *)
Lemma turn_effect (now1 : N) (d1 : Date) (es : list Event) (text : jsstring)
    (now2 : N) (d2 : Date) (pg pg2 : Page) (st1 : State) (p : Pending) :
  page_invariant pg ->
  sendBegin now1 d1 (page_state pg) = Some (st1, p) ->
  page_run (List.map Click es) (mkPage (commit st1) (Some p)) = Some pg2 ->
  exists cid,
    currentConversationId (page_state pg) = Some cid
    /\ in_flight pg2 = Some p
    /\ conversation_list (commit (appendAssistant p text now2 d2 (page_state pg2)))
       = with_messages_of cid
           (messages (page_state pg)
              ++ [Message.mk (N_toString now1) (input (page_state pg)) Message.user
                    (formatTimestamp d1);
                  Message.mk (N_toString (now2 + 1)) text Message.assistant
                    (formatTimestamp d2)])
           (retitle_first cid (substring0 50 (input (page_state pg)))
              (conversation_list (page_state pg)))
    /\ messages (commit (appendAssistant p text now2 d2 (page_state pg2)))
       = messages (page_state pg)
           ++ [Message.mk (N_toString now1) (input (page_state pg)) Message.user
                 (formatTimestamp d1);
               Message.mk (N_toString (now2 + 1)) text Message.assistant
                 (formatTimestamp d2)]
    /\ currentConversationId (commit (appendAssistant p text now2 d2 (page_state pg2)))
       = currentConversationId (page_state pg2)
    /\ knowledgeDocuments (commit (appendAssistant p text now2 d2 (page_state pg2)))
       = knowledgeDocuments (page_state pg2).
Proof.
  intros I Eb H.
  assert (I1 : page_invariant (mkPage (commit st1) (Some p))).
  { apply (page_step_invariant (Submit now1 d1) pg); [exact I|].
    cbn [page_step]. now rewrite Eb. }
  destruct I as [V _].
  destruct (sendBegin_effect now1 d1 _ st1 p V Eb)
    as (cid & Ec & _ & _ & Ep & V1 & C1 & L1 & _).
  destruct (clicks_while_pending es _ pg2 p I1 eq_refl H) as ([_ F2] & Fl & ext & Eh).
  rewrite Fl in F2. destruct F2 as [_ Rp].
  destruct (appendAssistant_effect p text now2 d2 (page_state pg2) Rp)
    as (_ & L & M & Ic & D & _).
  exists cid. split; [exact Ec|]. split; [exact Fl|].
  rewrite commit_conversation_list, commit_current, commit_messages, commit_documents.
  rewrite L, M, Ic, D. clear L M Ic D.
  cbn [page_state] in Eh. destruct (commit_keeps st1) as (Hh & _ & _).
  rewrite Hh in Eh. rewrite Eh.
  assert (Rp1 : Forall (fun r => (r < List.length (heap st1))%nat) (p_conversations p)).
  { subst p. cbn [p_conversations]. rewrite <- C1. apply V1. }
  rewrite (map_deref_app (heap st1) ext (p_conversations p) Rp1).
  subst p. cbn [p_conversations p_currentConversationId p_updatedMessages].
  rewrite <- C1. change (List.map (deref (heap st1)) (conversations st1))
    with (conversation_list st1).
  rewrite L1, <- app_assoc. repeat split.
Qed.

End PendingRequests.

(** ** A turn and the conversation it was sent from *)

Section TurnsOnThePage.

Lemma active_id (st : State) (c : Conversation.t) :
  active_conversation st = Some c ->
  currentConversationId st = Some (Conversation.id c)
  /\ conversation_of (Conversation.id c) st = Some c.
Proof.
  unfold active_conversation, conversation_of.
  destruct (currentConversationId st) as [cid|]; [|discriminate].
  intros F. pose proof F as F'. rewrite find_conversation_list in F'.
  destruct (find_some_in cid _ c F') as [_ ->]. now split.
Qed.

(** With no request in flight, an active id that is not empty and a text
    that is not blank, the guard lets the submit out. *)
Lemma submit_goes_out (now : N) (d : Date) (pg : Page) :
  page_invariant pg -> in_flight pg = None ->
  (exists cid, currentConversationId (page_state pg) = Some cid /\ cid <> []) ->
  blank_text (input (page_state pg)) = false ->
  exists st1 p,
    sendBegin now d (page_state pg) = Some (st1, p)
    /\ page_step (Submit now d) pg = Some (mkPage (commit st1) (Some p)).
Proof.
  intros [_ F] Fl (cid & Ec & Hne) Hb. rewrite Fl in F.
  cbn [page_step]. unfold sendBegin, current_id. rewrite Ec, Hb, F.
  destruct cid as [|x s]; [now contradiction Hne|].
  cbn [orb]. eexists _, _. split; reflexivity.
Qed.

(** The conversation a message was sent from, after the turn: the thread of
    the moment of the submit and the two messages of the turn are its
    messages, whatever was clicked while the request was pending. *)
Lemma turn_on_conversation (now1 : N) (d1 : Date) (es : list Event)
    (text : jsstring) (now2 : N) (d2 : Date) (pg pg2 : Page) (c : Conversation.t) :
  page_invariant pg -> in_flight pg = None ->
  active_conversation (page_state pg) = Some c ->
  currentConversationId (page_state pg) <> Some [] ->
  blank_text (input (page_state pg)) = false ->
  page_run (Submit now1 d1 :: List.map Click es) pg = Some pg2 ->
  exists p,
    in_flight pg2 = Some p
    /\ conversation_list (commit (appendAssistant p text now2 d2 (page_state pg2)))
       = with_messages_of (Conversation.id c)
           (messages (page_state pg)
              ++ [Message.mk (N_toString now1) (input (page_state pg)) Message.user
                    (formatTimestamp d1);
                  Message.mk (N_toString (now2 + 1)) text Message.assistant
                    (formatTimestamp d2)])
           (retitle_first (Conversation.id c) (substring0 50 (input (page_state pg)))
              (conversation_list (page_state pg)))
    /\ conversation_of (Conversation.id c)
         (commit (appendAssistant p text now2 d2 (page_state pg2)))
       = Some (Conversation.with_messages
                 (messages (page_state pg)
                    ++ [Message.mk (N_toString now1) (input (page_state pg))
                          Message.user (formatTimestamp d1);
                        Message.mk (N_toString (now2 + 1)) text Message.assistant
                          (formatTimestamp d2)])
                 (if (List.length (Conversation.messages c) =? 1)%nat
                  then Conversation.with_title (substring0 50 (input (page_state pg))) c
                  else c))
    /\ messages (commit (appendAssistant p text now2 d2 (page_state pg2)))
       = messages (page_state pg)
           ++ [Message.mk (N_toString now1) (input (page_state pg)) Message.user
                 (formatTimestamp d1);
               Message.mk (N_toString (now2 + 1)) text Message.assistant
                 (formatTimestamp d2)]
    /\ currentConversationId (commit (appendAssistant p text now2 d2 (page_state pg2)))
       = currentConversationId (page_state pg2)
    /\ knowledgeDocuments (commit (appendAssistant p text now2 d2 (page_state pg2)))
       = knowledgeDocuments (page_state pg2).
Proof.
  intros I Fl A Hne Hb H.
  destruct (active_id _ c A) as [Ec Fc].
  assert (Hid : exists cid, currentConversationId (page_state pg) = Some cid
                            /\ cid <> []).
  { exists (Conversation.id c). split; [exact Ec|]. intros E. apply Hne.
    now rewrite Ec, E. }
  destruct (submit_goes_out now1 d1 pg I Fl Hid Hb) as (st1 & p & Eb & Es).
  cbn [page_run] in H. rewrite Es in H.
  destruct (turn_effect now1 d1 es text now2 d2 pg pg2 st1 p I Eb H)
    as (cid & Ec' & Fl2 & L & M & Ic & D).
  assert (cid = Conversation.id c) by congruence. subst cid.
  exists p. split; [exact Fl2|]. split; [exact L|].
  split; [|split; [exact M|split; [exact Ic|exact D]]].
  unfold conversation_of in *. rewrite find_conversation_list in *.
  rewrite L. now apply thread_after_send.
Qed.

Lemma settle_throws (p : Pending) (reply : Reply) (now : N) (d : Date) (pg : Page) :
  in_flight pg = Some p -> call_throws reply = true ->
  page_step (Settle reply now d) pg
  = Some (mkPage (commit (appendAssistant p apology_text now d (page_state pg))) None).
Proof.
  intros F T. cbn [page_step]. rewrite F. unfold sendFinish.
  destruct reply as [|data]; [reflexivity|]. cbn [call_throws] in T.
  destruct (extractAssistantContent data); [discriminate|reflexivity].
Qed.

Lemma settle_text (p : Pending) (data : json) (text : jsstring) (now : N) (d : Date)
    (pg : Page) :
  in_flight pg = Some p ->
  extractAssistantContent data = Some (Some (JStr text)) ->
  page_step (Settle (Body data) now d) pg
  = Some (mkPage (commit (appendAssistant p text now d (page_state pg))) None).
Proof.
  intros F E. cbn [page_step]. rewrite F. unfold sendFinish. now rewrite E.
Qed.

(** C3, as the code has it.  A send of a non-blank text from the active
    conversation that fails with a thrown error lengthens the visible
    thread by exactly two entries, the message of the user and then the
    fixed error message as an assistant message, whatever is clicked while
    the request is pending; the message of the user stays in the thread,
    and the thread becomes the message list of the conversation the
    message was sent from.  When the visible thread was the message list
    of that conversation at the send, the message list of the
    conversation has grown by exactly these two entries.  The conversation
    is the active one when the active id is the one of the send. *)
Theorem failed_send_appends_two (now1 : N) (d1 : Date) (es : list Event)
    (reply : Reply) (now2 : N) (d2 : Date) (pg pg2 : Page) (c : Conversation.t) :
  page_reachable pg ->
  in_flight pg = None ->
  active_conversation (page_state pg) = Some c ->
  currentConversationId (page_state pg) <> Some [] ->
  blank_text (input (page_state pg)) = false ->
  page_run (Submit now1 d1 :: List.map Click es) pg = Some pg2 ->
  call_throws reply = true ->
  exists pg' c',
    page_step (Settle reply now2 d2) pg2 = Some pg'
    /\ messages (page_state pg')
       = messages (page_state pg)
           ++ [Message.mk (N_toString now1) (input (page_state pg)) Message.user
                 (formatTimestamp d1);
               Message.mk (N_toString (now2 + 1))
                 (js "Sorry, I encountered an error. Please try again.")
                 Message.assistant (formatTimestamp d2)]
    /\ In (Message.mk (N_toString now1) (input (page_state pg)) Message.user
             (formatTimestamp d1))
         (messages (page_state pg'))
    /\ conversation_of (Conversation.id c) (page_state pg') = Some c'
    /\ Conversation.messages c' = messages (page_state pg')
    /\ (messages (page_state pg) = Conversation.messages c ->
        Conversation.messages c'
        = Conversation.messages c
            ++ [Message.mk (N_toString now1) (input (page_state pg)) Message.user
                  (formatTimestamp d1);
                Message.mk (N_toString (now2 + 1))
                  (js "Sorry, I encountered an error. Please try again.")
                  Message.assistant (formatTimestamp d2)]
        /\ List.length (Conversation.messages c')
           = (List.length (Conversation.messages c) + 2)%nat)
    /\ (currentConversationId (page_state pg2)
        = currentConversationId (page_state pg) ->
        active_conversation (page_state pg') = Some c').
Proof.
  intros R Fl A Hne Hb H Ht.
  pose proof (page_reachable_invariant pg R) as I.
  destruct (turn_on_conversation now1 d1 es apology_text now2 d2 pg pg2 c
              I Fl A Hne Hb H) as (p & Fl2 & _ & Fc & M & Ic & _).
  eexists _, _. split; [exact (settle_throws p reply now2 d2 pg2 Fl2 Ht)|].
  cbn [page_state]. split; [exact M|].
  split; [rewrite M; apply in_or_app; right; now left|].
  split; [exact Fc|].
  cbn [Conversation.with_messages Conversation.messages].
  split; [now rewrite M|]. split.
  - intros Hm. rewrite Hm. split; [reflexivity|]. rewrite length_app. reflexivity.
  - intros E. unfold active_conversation. rewrite Ic, E.
    destruct (active_id _ c A) as [-> _]. exact Fc.
Qed.

End TurnsOnThePage.

(** ** The turn, by its kinds of reply *)

Section RepliesOnThePage.

Lemma two_chats_typed_state :
  in_flight (page_after two_chats_typed) = None
  /\ active_conversation (page_state (page_after two_chats_typed))
     = Some (new_chat 1704)
  /\ blank_text (input (page_state (page_after two_chats_typed))) = false
  /\ messages (page_state (page_after two_chats_typed))
     = Conversation.messages (new_chat 1704)
  /\ input (page_state (page_after two_chats_typed)) = js "hello there".
Proof. vm_compute. repeat split. Qed.

Lemma two_chats_typed_id :
  currentConversationId (page_state (page_after two_chats_typed)) <> Some [].
Proof. intros E. vm_compute in E. discriminate E. Qed.

Lemma switch_pending_run :
  page_run (Submit 1705 sample_date :: List.map Click [SwitchTo (js "1700")])
    (page_after two_chats_typed)
  = Some (page_after switch_pending).
Proof. vm_compute. reflexivity. Qed.

Lemma failed_send_witness :
  exists pg' c',
    page_step (Settle Rejected 1706 sample_date) (page_after switch_pending)
    = Some pg'
    /\ conversation_of (js "1704") (page_state pg') = Some c'
    /\ List.map Message.content (Conversation.messages c')
       = [js "Hi! How can I help you today?"; js "hello there";
          js "Sorry, I encountered an error. Please try again."].
Proof.
  destruct two_chats_typed_state as (F & A & B & M & Hin).
  destruct (failed_send_appends_two 1705 sample_date [SwitchTo (js "1700")]
              Rejected 1706 sample_date (page_after two_chats_typed)
              (page_after switch_pending) (new_chat 1704)
              (page_after_reachable two_chats_typed) F A two_chats_typed_id B
              switch_pending_run eq_refl)
    as (pg' & c' & Es & _ & _ & Fc & _ & Mc & _).
  exists pg', c'. split; [exact Es|]. split; [exact Fc|].
  rewrite (proj1 (Mc M)), Hin. reflexivity.
Defined.

(** C3, as stated, fails: when a conversation was selected while an
    earlier request was pending, the thread is not the one of the active
    conversation, and a failed send takes the active conversation from one
    message to five. *)
Lemma failed_send_after_switch :
  exists c pg' c',
    page_reachable (page_after switch_while_pending)
    /\ in_flight (page_after switch_while_pending) = None
    /\ active_conversation (page_state (page_after switch_while_pending)) = Some c
    /\ blank_text (input (page_state (page_after switch_while_pending))) = false
    /\ page_run [Submit 1707 sample_date; Settle Rejected 1708 sample_date]
         (page_after switch_while_pending) = Some pg'
    /\ active_conversation (page_state pg') = Some c'
    /\ Conversation.id c' = Conversation.id c
    /\ List.length (Conversation.messages c) = 1%nat
    /\ List.length (Conversation.messages c') = 5%nat.
Proof.
  eexists _, _, _. split; [apply page_after_reachable|].
  vm_compute. repeat split.
Qed.

End RepliesOnThePage.

Section TitlesOnThePage.

(** X4. A send of a non-blank text from the active conversation that is
    answered by a body whose content is a string lengthens the visible
    thread by the message of the user and an assistant message of that
    content, whatever is clicked while the request is pending; the thread
    becomes the message list of the conversation the message was sent
    from, [loading] is cleared and no request is in flight.  When the
    visible thread was the message list of that conversation at the send,
    the message list of the conversation has grown by exactly these two
    entries. *)
Theorem successful_send_appends_reply (now1 : N) (d1 : Date) (es : list Event)
    (data : json) (text : jsstring) (now2 : N) (d2 : Date) (pg pg2 : Page)
    (c : Conversation.t) :
  page_reachable pg ->
  in_flight pg = None ->
  active_conversation (page_state pg) = Some c ->
  currentConversationId (page_state pg) <> Some [] ->
  blank_text (input (page_state pg)) = false ->
  page_run (Submit now1 d1 :: List.map Click es) pg = Some pg2 ->
  extractAssistantContent data = Some (Some (JStr text)) ->
  exists pg' c',
    page_step (Settle (Body data) now2 d2) pg2 = Some pg'
    /\ messages (page_state pg')
       = messages (page_state pg)
           ++ [Message.mk (N_toString now1) (input (page_state pg)) Message.user
                 (formatTimestamp d1);
               Message.mk (N_toString (now2 + 1)) text Message.assistant
                 (formatTimestamp d2)]
    /\ conversation_of (Conversation.id c) (page_state pg') = Some c'
    /\ Conversation.id c' = Conversation.id c
    /\ Conversation.messages c' = messages (page_state pg')
    /\ (messages (page_state pg) = Conversation.messages c ->
        Conversation.messages c'
        = Conversation.messages c
            ++ [Message.mk (N_toString now1) (input (page_state pg)) Message.user
                  (formatTimestamp d1);
                Message.mk (N_toString (now2 + 1)) text Message.assistant
                  (formatTimestamp d2)])
    /\ loading (page_state pg') = false
    /\ in_flight pg' = None
    /\ (currentConversationId (page_state pg2)
        = currentConversationId (page_state pg) ->
        active_conversation (page_state pg') = Some c').
Proof.
  intros R Fl A Hne Hb H Hx.
  pose proof (page_reachable_invariant pg R) as I.
  destruct (turn_on_conversation now1 d1 es text now2 d2 pg pg2 c I Fl A Hne Hb H)
    as (p & Fl2 & _ & Fc & M & Ic & _).
  pose proof (settle_text p data text now2 d2 pg2 Fl2 Hx) as Es.
  assert (R2 : page_reachable pg2) by (eapply page_run_reachable; eassumption).
  pose proof (page_step_invariant _ _ _ (page_reachable_invariant pg2 R2) Es)
    as [_ Lo].
  eexists _, _. split; [exact Es|]. cbn [page_state in_flight] in *.
  split; [exact M|]. split; [exact Fc|].
  cbn [Conversation.with_messages Conversation.messages Conversation.id].
  split.
  { destruct (List.length (Conversation.messages c) =? 1)%nat; reflexivity. }
  split; [now rewrite M|]. split; [intros Hm; now rewrite Hm|].
  split; [exact Lo|]. split; [reflexivity|].
  intros E. unfold active_conversation. rewrite Ic, E.
  destruct (active_id _ c A) as [-> _]. exact Fc.
Qed.

Lemma fine_body_content :
  extractAssistantContent fine_body = Some (Some (JStr (js "fine"))).
Proof. reflexivity. Qed.

Lemma successful_send_witness :
  exists pg' c',
    page_step (Settle (Body fine_body) 1706 sample_date) (page_after switch_pending)
    = Some pg'
    /\ conversation_of (js "1704") (page_state pg') = Some c'
    /\ List.map Message.content (Conversation.messages c')
       = [js "Hi! How can I help you today?"; js "hello there"; js "fine"]
    /\ in_flight pg' = None.
Proof.
  destruct two_chats_typed_state as (F & A & B & M & Hin).
  destruct (successful_send_appends_reply 1705 sample_date [SwitchTo (js "1700")]
              fine_body (js "fine") 1706 sample_date (page_after two_chats_typed)
              (page_after switch_pending) (new_chat 1704)
              (page_after_reachable two_chats_typed) F A two_chats_typed_id B
              switch_pending_run fine_body_content)
    as (pg' & c' & Es & _ & Fc & _ & _ & Mc & _ & Fl & _).
  exists pg', c'. split; [exact Es|]. split; [exact Fc|].
  split; [|exact Fl]. rewrite (Mc M), Hin. reflexivity.
Defined.

(** C7. A send into a conversation that holds exactly one message sets
    its title to the first 50 code units of the text of the user, and does
    so before the turn is appended: the title is set when the request goes
    out, the messages of the conversation being still the ones it had, and
    it is the title of the conversation when the request has settled,
    whatever the reply and whatever was clicked meanwhile.  A send into a
    conversation of another number of messages leaves the title as it
    is. *)
Theorem title_rule (now1 : N) (d1 : Date) (pg : Page) (c : Conversation.t) :
  page_reachable pg ->
  in_flight pg = None ->
  active_conversation (page_state pg) = Some c ->
  currentConversationId (page_state pg) <> Some [] ->
  blank_text (input (page_state pg)) = false ->
  exists pg1 c1,
    page_step (Submit now1 d1) pg = Some pg1
    /\ conversation_of (Conversation.id c) (page_state pg1) = Some c1
    /\ Conversation.messages c1 = Conversation.messages c
    /\ (List.length (Conversation.messages c) = 1%nat ->
        Conversation.title c1 = firstn 50 (input (page_state pg))
        /\ (List.length (Conversation.title c1) <= 50)%nat)
    /\ (List.length (Conversation.messages c) <> 1%nat ->
        Conversation.title c1 = Conversation.title c)
    /\ (forall es pg2 reply now2 d2 pg',
           page_run (List.map Click es) pg1 = Some pg2 ->
           page_step (Settle reply now2 d2) pg2 = Some pg' ->
           exists c',
             conversation_of (Conversation.id c) (page_state pg') = Some c'
             /\ Conversation.title c' = Conversation.title c1
             /\ List.length (Conversation.messages c')
                = (List.length (messages (page_state pg)) + 2)%nat).
Proof.
  intros R Fl A Hne Hb.
  pose proof (page_reachable_invariant pg R) as I.
  destruct (active_id _ c A) as [Ec Fc].
  assert (Hid : exists cid, currentConversationId (page_state pg) = Some cid
                            /\ cid <> []).
  { exists (Conversation.id c). split; [exact Ec|]. intros E. apply Hne.
    now rewrite Ec, E. }
  destruct (submit_goes_out now1 d1 pg I Fl Hid Hb) as (st1 & p & Eb & Es).
  destruct I as [V F].
  destruct (sendBegin_effect now1 d1 _ st1 p V Eb)
    as (cid & Ec' & _ & _ & _ & _ & _ & L1 & _).
  assert (cid = Conversation.id c) by congruence. subst cid.
  assert (F1 : conversation_of (Conversation.id c) (commit st1)
               = Some (if (List.length (Conversation.messages c) =? 1)%nat
                       then Conversation.with_title
                              (substring0 50 (input (page_state pg))) c
                       else c)).
  { unfold conversation_of in *. rewrite find_conversation_list in *.
    rewrite commit_conversation_list, L1, find_retitle_first, Fc. reflexivity. }
  eexists _, _. split; [exact Es|]. cbn [page_state]. split; [exact F1|].
  destruct (List.length (Conversation.messages c) =? 1)%nat eqn:E1.
  - apply Nat.eqb_eq in E1.
    cbn [Conversation.with_title Conversation.messages Conversation.title].
    split; [reflexivity|]. split.
    { intros _. split; [reflexivity|]. unfold substring0. apply firstn_le_length. }
    split; [intros N1; now contradiction N1|].
    intros es pg2 reply now2 d2 pg' Hr Hs.
    assert (Hrun : page_run (Submit now1 d1 :: List.map Click es) pg = Some pg2).
    { cbn [page_run]. now rewrite Es. }
    pose proof Hs as Hs'. cbn [page_step] in Hs'.
    destruct (in_flight pg2) as [p2|] eqn:F2; [|discriminate].
    destruct (sendFinish p2 reply now2 d2 (page_state pg2)) as [st'|] eqn:Ef;
      [|discriminate].
    injection Hs' as <-.
    destruct (sendFinish_text _ _ _ _ _ _ Ef) as (text & -> & _).
    destruct (turn_on_conversation now1 d1 es text now2 d2 pg pg2 c
                (conj V F) Fl A Hne Hb Hrun) as (p' & F2' & _ & Fc' & _).
    assert (p' = p2) by congruence. subst p'.
    eexists. cbn [page_state]. split; [exact Fc'|].
    rewrite E1 at 1. apply Nat.eqb_eq in E1 as _.
    cbn [Conversation.with_messages Conversation.with_title Conversation.title
         Conversation.messages].
    split; [reflexivity|]. rewrite length_app. reflexivity.
  - apply Nat.eqb_neq in E1.
    split; [reflexivity|]. split; [intros E; now contradiction E1|].
    split; [reflexivity|].
    intros es pg2 reply now2 d2 pg' Hr Hs.
    assert (Hrun : page_run (Submit now1 d1 :: List.map Click es) pg = Some pg2).
    { cbn [page_run]. now rewrite Es. }
    pose proof Hs as Hs'. cbn [page_step] in Hs'.
    destruct (in_flight pg2) as [p2|] eqn:F2; [|discriminate].
    destruct (sendFinish p2 reply now2 d2 (page_state pg2)) as [st'|] eqn:Ef;
      [|discriminate].
    injection Hs' as <-.
    destruct (sendFinish_text _ _ _ _ _ _ Ef) as (text & -> & _).
    destruct (turn_on_conversation now1 d1 es text now2 d2 pg pg2 c
                (conj V F) Fl A Hne Hb Hrun) as (p' & F2' & _ & Fc' & _).
    assert (p' = p2) by congruence. subst p'.
    eexists. cbn [page_state]. split; [exact Fc'|].
    apply Nat.eqb_neq in E1. rewrite E1.
    cbn [Conversation.with_messages Conversation.title Conversation.messages].
    split; [reflexivity|]. rewrite length_app. reflexivity.
Qed.

Lemma long_question_typed_state :
  in_flight (page_after long_question_typed) = None
  /\ active_conversation (page_state (page_after long_question_typed))
     = Some (new_chat 1700)
  /\ blank_text (input (page_state (page_after long_question_typed))) = false
  /\ input (page_state (page_after long_question_typed))
     = js "a question that is a good deal longer than fifty code units".
Proof. vm_compute. repeat split. Qed.

Lemma long_question_typed_id :
  currentConversationId (page_state (page_after long_question_typed)) <> Some [].
Proof. intros E. vm_compute in E. discriminate E. Qed.

Lemma title_rule_witness :
  exists pg1 c1,
    page_step (Submit 1701 sample_date) (page_after long_question_typed) = Some pg1
    /\ conversation_of (js "1700") (page_state pg1) = Some c1
    /\ Conversation.messages c1 = Conversation.messages (new_chat 1700)
    /\ Conversation.title c1
       = js "a question that is a good deal longer than fifty c".
Proof.
  destruct long_question_typed_state as (F & A & B & Hin).
  destruct (title_rule 1701 sample_date (page_after long_question_typed)
              (new_chat 1700) (page_after_reachable long_question_typed)
              F A long_question_typed_id B)
    as (pg1 & c1 & Es & Fc & Mc & T1 & _).
  exists pg1, c1. split; [exact Es|]. split; [exact Fc|]. split; [exact Mc|].
  destruct (T1 eq_refl) as [-> _]. rewrite Hin. reflexivity.
Defined.

End TitlesOnThePage.

(** ** What is clicked while a request is pending *)

Section ClicksWhilePending.

Lemma clicks_keep_flight (es : list Event) :
  forall pg pg2,
    page_run (List.map Click es) pg = Some pg2 -> in_flight pg2 = in_flight pg.
Proof.
  induction es as [|e es IH]; intros pg pg2 H; cbn [List.map page_run] in H.
  - now injection H as <-.
  - destruct (page_step (Click e) pg) as [pg1|] eqn:E; [|discriminate].
    rewrite (IH _ _ H). cbn [page_step] in E.
    destruct (enabled e (page_state pg)); [|discriminate].
    destruct (step e (page_state pg)); [|discriminate].
    now injection E as <-.
Qed.

(** A turn that has settled went out, and settled on a text. *)
Lemma settled_turn (now1 : N) (d1 : Date) (es : list Event) (reply : Reply)
    (now2 : N) (d2 : Date) (pg pg2 pg' : Page) :
  in_flight pg = None ->
  page_run (Submit now1 d1 :: List.map Click es) pg = Some pg2 ->
  page_step (Settle reply now2 d2) pg2 = Some pg' ->
  exists st1 p text,
    sendBegin now1 d1 (page_state pg) = Some (st1, p)
    /\ page_run (List.map Click es) (mkPage (commit st1) (Some p)) = Some pg2
    /\ pg' = mkPage (commit (appendAssistant p text now2 d2 (page_state pg2))) None.
Proof.
  intros Fl H Hs. cbn [page_run page_step] in H.
  destruct (sendBegin now1 d1 (page_state pg)) as [[st1 p]|] eqn:Eb.
  - pose proof (clicks_keep_flight es _ _ H) as F2. cbn [in_flight] in F2.
    cbn [page_step] in Hs. rewrite F2 in Hs.
    destruct (sendFinish p reply now2 d2 (page_state pg2)) as [st'|] eqn:Ef;
      [|discriminate].
    destruct (sendFinish_text _ _ _ _ _ _ Ef) as (text & -> & _).
    injection Hs as <-. exists st1, p, text. repeat split. exact H.
  - pose proof (clicks_keep_flight es _ _ H) as F2. rewrite Fl in F2.
    cbn [page_step] in Hs. rewrite F2 in Hs. discriminate.
Qed.

(** While [loading] is set, a click on New Chat puts one conversation in
    front of the collection and no other click changes it. *)
Lemma click_while_loading (e : Event) (st st' : State) :
  refs_valid st -> loading st = true -> step e st = Some st' ->
  List.length (conversation_list st')
  = (List.length (created_at [Click e]) + List.length (conversation_list st))%nat
  /\ currentConversationId st'
     = match e with
       | NewChat now _ _ => Some (N_toString now)
       | SwitchTo convId =>
           match find_conversation convId (heap st) (conversations st) with
           | Some _ => Some convId
           | None => currentConversationId st
           end
       | _ => currentConversationId st
       end.
Proof.
  intros V L H.
  destruct e as [now d1 d2|convId|text|n c|now d|docId|now1 d1 reply now2 d2];
    cbn [step] in H; cbn [created_at List.length Nat.add].
  - injection H as <-. rewrite commit_conversation_list, commit_current.
    destruct (createNewConversation_list now d1 d2 st V) as (_ & ->).
    split; reflexivity.
  - injection H as <-. rewrite commit_conversation_list, commit_current.
    unfold switchConversation.
    destruct (find_conversation convId (heap st) (conversations st));
      split; reflexivity.
  - injection H as <-. rewrite commit_conversation_list, commit_current.
    split; reflexivity.
  - injection H as <-. rewrite commit_conversation_list, commit_current.
    split; reflexivity.
  - injection H as <-. rewrite commit_conversation_list, commit_current.
    unfold handleAddDocument.
    destruct (blank_text (uploadName st) || blank_text (uploadContent st));
      split; reflexivity.
  - injection H as <-. rewrite commit_conversation_list, commit_current.
    split; reflexivity.
  - unfold handleSendMessage, sendBegin in H. rewrite L, orb_true_r in H.
    destruct (current_id st); cbn [option_map] in H; injection H as <-;
      rewrite commit_conversation_list, commit_current; split; reflexivity.
Qed.

Lemma created_at_cons (a : Action) (acts : list Action) :
  created_at (a :: acts) = created_at [a] ++ created_at acts.
Proof.
  destruct a as [[now d1 d2|convId|text|n c|now d|docId|now1 d1 reply now2 d2]| |];
    reflexivity.
Qed.

Lemma clicks_lengthen (es : list Event) :
  forall pg pg2 p,
    page_invariant pg -> in_flight pg = Some p ->
    page_run (List.map Click es) pg = Some pg2 ->
    List.length (conversation_list (page_state pg2))
    = (List.length (created_at (List.map Click es))
       + List.length (conversation_list (page_state pg)))%nat.
Proof.
  induction es as [|e es IH]; intros pg pg2 p I F H; cbn [List.map page_run] in H.
  - now injection H as <-.
  - destruct (page_step (Click e) pg) as [pg1|] eqn:E; [|discriminate].
    pose proof (page_step_invariant _ _ _ I E) as I1.
    assert (F1 : in_flight pg1 = Some p).
    { rewrite <- F. apply (clicks_keep_flight [e]). cbn [List.map page_run].
      now rewrite E. }
    rewrite (IH _ _ p I1 F1 H).
    destruct I as [V Fl]. rewrite F in Fl. destruct Fl as [Lt _].
    cbn [page_step] in E. destruct (enabled e (page_state pg)); [|discriminate].
    destruct (step e (page_state pg)) as [st1|] eqn:Es; [|discriminate].
    injection E as <-. cbn [page_state].
    destruct (click_while_loading e _ _ V Lt Es) as [-> _].
    cbn [List.map]. rewrite (created_at_cons (Click e) (List.map Click es)), length_app. lia.
Qed.

Lemma find_absent (cid : jsstring) (cs : list Conversation.t) :
  ~ In cid (List.map Conversation.id cs) ->
  List.find (fun c => JsString.eqb (Conversation.id c) cid) cs = None.
Proof.
  induction cs as [|c cs IH]; [reflexivity|]. cbn [List.map List.find]. intros N.
  destruct (JsString.eqb (Conversation.id c) cid) eqn:E.
  - apply eqb_eq in E. exfalso. apply N. now left.
  - apply IH. intros I. apply N. now right.
Qed.

(** X6. When a request settles, the collection is the one of the moment of
    the submit: its conversations in their order, each with its id and its
    creation time, those of another id than the one then active exactly as
    they were, those of that id with the visible thread as their messages.
    Every conversation created while the request was pending, one for each
    click on New Chat, is in the collection before the settle and is lost
    by it. *)
Theorem settle_restores_submit_collection (now1 : N) (d1 : Date) (es : list Event)
    (reply : Reply) (now2 : N) (d2 : Date) (pg pg2 pg' : Page) :
  page_reachable pg ->
  in_flight pg = None ->
  page_run (Submit now1 d1 :: List.map Click es) pg = Some pg2 ->
  page_step (Settle reply now2 d2) pg2 = Some pg' ->
  (exists cid,
      currentConversationId (page_state pg) = Some cid
      /\ Forall2
           (fun c c' =>
              Conversation.id c' = Conversation.id c
              /\ Conversation.createdAt c' = Conversation.createdAt c
              /\ (Conversation.id c <> cid -> c' = c)
              /\ (Conversation.id c = cid ->
                  Conversation.messages c' = messages (page_state pg')))
           (conversation_list (page_state pg)) (conversation_list (page_state pg')))
  /\ List.length (conversation_list (page_state pg2))
     = (List.length (created_at (List.map Click es))
        + List.length (conversation_list (page_state pg)))%nat
  /\ List.length (conversation_list (page_state pg'))
     = List.length (conversation_list (page_state pg)).
Proof.
  intros R Fl H Hs. pose proof (page_reachable_invariant pg R) as I.
  destruct (settled_turn now1 d1 es reply now2 d2 pg pg2 pg' Fl H Hs)
    as (st1 & p & text & Eb & Hr & ->).
  destruct (turn_effect now1 d1 es text now2 d2 pg pg2 st1 p I Eb Hr)
    as (cid & Ec & _ & L & M & _).
  cbn [page_state]. rewrite L, M.
  assert (I1 : page_invariant (mkPage (commit st1) (Some p))).
  { apply (page_step_invariant (Submit now1 d1) pg); [exact I|].
    cbn [page_step]. now rewrite Eb. }
  rewrite (clicks_lengthen es _ pg2 p I1 eq_refl Hr). cbn [page_state].
  destruct I as [V _].
  destruct (sendBegin_effect now1 d1 _ st1 p V Eb)
    as (cid' & _ & _ & _ & _ & _ & _ & L1 & _).
  rewrite commit_conversation_list, L1.
  split; [|split].
  - exists cid. split; [exact Ec|]. apply frame_send.
  - rewrite <- (length_map Conversation.id (retitle_first _ _ _)).
    now rewrite ids_retitle_first, length_map.
  - rewrite <- (length_map Conversation.id (with_messages_of _ _ _)).
    now rewrite ids_with_messages_of, ids_retitle_first, length_map.
Qed.

Lemma new_chat_pending_run :
  page_run
    (Submit 1705 sample_date
       :: List.map Click [NewChat 1706 sample_date sample_date;
                          NewChat 1707 sample_date sample_date])
    (page_after two_chats_typed)
  = Some (page_after new_chats_pending).
Proof. vm_compute. reflexivity. Qed.

Lemma new_chat_settle :
  page_step (Settle Rejected 1708 sample_date) (page_after new_chats_pending)
  = Some (page_after (new_chats_pending ++ [Settle Rejected 1708 sample_date])).
Proof. vm_compute. reflexivity. Qed.

Lemma settle_restores_witness :
  List.length (conversation_list (page_state (page_after new_chats_pending)))
  = (2 + List.length
           (conversation_list (page_state (page_after two_chats_typed))))%nat
  /\ List.length
       (conversation_list
          (page_state
             (page_after (new_chats_pending ++ [Settle Rejected 1708 sample_date]))))
     = List.length (conversation_list (page_state (page_after two_chats_typed))).
Proof.
  destruct two_chats_typed_state as (F & _).
  destruct (settle_restores_submit_collection 1705 sample_date
              [NewChat 1706 sample_date sample_date;
               NewChat 1707 sample_date sample_date]
              Rejected 1708 sample_date (page_after two_chats_typed)
              (page_after new_chats_pending)
              (page_after (new_chats_pending ++ [Settle Rejected 1708 sample_date]))
              (page_after_reachable two_chats_typed) F new_chat_pending_run
              new_chat_settle)
    as (_ & L2 & L').
  split; [exact L2|exact L'].
Defined.

(** X1. The active id need not be the id of a conversation.  When New
    Chat is the last click while a request is pending, at a clock reading
    whose numeral was no id at the submit, then after the settle the
    active id is that numeral and no conversation of the collection has
    it, so that [find] gives none; no request is in flight; the visible
    thread is the thread of the moment of the submit followed by the two
    messages of the turn. *)
Theorem new_chat_while_pending_is_orphaned (now1 : N) (d1 : Date)
    (es : list Event) (now : N) (d3 d4 : Date) (reply : Reply) (now2 : N)
    (d2 : Date) (pg pg2 pg' : Page) :
  page_reachable pg ->
  in_flight pg = None ->
  ~ In (N_toString now)
      (List.map Conversation.id (conversation_list (page_state pg))) ->
  page_run (Submit now1 d1 :: List.map Click (es ++ [NewChat now d3 d4])) pg
  = Some pg2 ->
  page_step (Settle reply now2 d2) pg2 = Some pg' ->
  currentConversationId (page_state pg') = Some (N_toString now)
  /\ active_conversation (page_state pg') = None
  /\ in_flight pg' = None
  /\ List.map Conversation.id (conversation_list (page_state pg'))
     = List.map Conversation.id (conversation_list (page_state pg))
  /\ exists answer,
       messages (page_state pg')
       = messages (page_state pg)
           ++ [Message.mk (N_toString now1) (input (page_state pg)) Message.user
                 (formatTimestamp d1);
               answer]
       /\ Message.role answer = Message.assistant.
Proof.
  intros R Fl Hn H Hs. pose proof (page_reachable_invariant pg R) as I.
  destruct (settled_turn now1 d1 _ reply now2 d2 pg pg2 pg' Fl H Hs)
    as (st1 & p & text & Eb & Hr & ->).
  destruct (turn_effect now1 d1 _ text now2 d2 pg pg2 st1 p I Eb Hr)
    as (cid & Ec & _ & L & M & Ic & _).
  assert (Inew : currentConversationId (page_state pg2) = Some (N_toString now)).
  { rewrite map_app, page_run_app in Hr.
    destruct (page_run (List.map Click es) (mkPage (commit st1) (Some p)))
      as [pg1|]; [|discriminate].
    cbn [List.map page_run page_step enabled step option_map] in Hr.
    injection Hr as <-. cbn [page_state]. now rewrite commit_current. }
  assert (Ids : List.map Conversation.id
                  (conversation_list
                     (commit (appendAssistant p text now2 d2 (page_state pg2))))
                = List.map Conversation.id (conversation_list (page_state pg))).
  { now rewrite L, ids_with_messages_of, ids_retitle_first. }
  cbn [page_state in_flight]. rewrite Ic, Inew.
  split; [reflexivity|]. split.
  { unfold active_conversation. rewrite Ic, Inew, find_conversation_list.
    apply find_absent. now rewrite Ids. }
  split; [reflexivity|]. split; [exact Ids|].
  eexists. split; [exact M|reflexivity].
Qed.

Lemma new_chat_pending_last :
  page_run
    (Submit 1705 sample_date
       :: List.map Click ([NewChat 1706 sample_date sample_date]
                          ++ [NewChat 1707 sample_date sample_date]))
    (page_after two_chats_typed)
  = Some (page_after new_chats_pending).
Proof. vm_compute. reflexivity. Qed.

Lemma two_chats_typed_ids :
  ~ In (N_toString 1707)
      (List.map Conversation.id
         (conversation_list (page_state (page_after two_chats_typed)))).
Proof. vm_compute. intros [E|[E|[]]]; discriminate E. Qed.

Lemma new_chat_while_pending_witness :
  currentConversationId
    (page_state (page_after (new_chats_pending ++ [Settle Rejected 1708 sample_date])))
  = Some (N_toString 1707)
  /\ active_conversation
       (page_state
          (page_after (new_chats_pending ++ [Settle Rejected 1708 sample_date])))
     = None.
Proof.
  destruct two_chats_typed_state as (F & _).
  destruct (new_chat_while_pending_is_orphaned 1705 sample_date
              [NewChat 1706 sample_date sample_date] 1707 sample_date sample_date
              Rejected 1708 sample_date (page_after two_chats_typed)
              (page_after new_chats_pending)
              (page_after (new_chats_pending ++ [Settle Rejected 1708 sample_date]))
              (page_after_reachable two_chats_typed) F two_chats_typed_ids
              new_chat_pending_last new_chat_settle)
    as (Ic & A & _).
  split; [exact Ic|exact A].
Defined.

End ClicksWhilePending.

(** ** The ids on the page *)

Section IdentifiersOnThePage.

(** What a handler does to the ids of the two collections. *)
Lemma step_ids (e : Event) (st st' : State) :
  refs_valid st -> step e st = Some st' ->
  List.map Conversation.id (conversation_list st')
  = List.map N_toString (created_at [Click e])
      ++ List.map Conversation.id (conversation_list st)
  /\ List.map KnowledgeDocument.id (knowledgeDocuments st')
     = match e with
       | DeleteDoc docId =>
           List.filter (fun i => negb (JsString.eqb i docId))
             (List.map KnowledgeDocument.id (knowledgeDocuments st))
       | _ =>
           List.map N_toString (added_now (Click e) st)
             ++ List.map KnowledgeDocument.id (knowledgeDocuments st)
       end.
Proof.
  intros V H.
  destruct e as [now d1 d2|convId|text|n c|now d|docId|now1 d1 reply now2 d2];
    cbn [step] in H; cbn [created_at added_now List.map app].
  - injection H as <-. rewrite commit_conversation_list, commit_documents.
    destruct (createNewConversation_list now d1 d2 st V) as (_ & ->).
    split; reflexivity.
  - injection H as <-. rewrite commit_conversation_list, commit_documents.
    unfold switchConversation.
    destruct (find_conversation convId (heap st) (conversations st));
      split; reflexivity.
  - injection H as <-. rewrite commit_conversation_list, commit_documents.
    split; reflexivity.
  - injection H as <-. rewrite commit_conversation_list, commit_documents.
    split; reflexivity.
  - injection H as <-. rewrite commit_conversation_list, commit_documents.
    unfold handleAddDocument.
    destruct (blank_text (uploadName st) || blank_text (uploadContent st));
      split; reflexivity.
  - injection H as <-. rewrite commit_conversation_list, commit_documents.
    split; [reflexivity|]. unfold deleteDocument. fields.
    induction (knowledgeDocuments st) as [|doc ds IH]; [reflexivity|].
    cbn [List.filter List.map].
    destruct (JsString.eqb (KnowledgeDocument.id doc) docId);
      cbn [negb List.map]; now rewrite IH.
  - unfold handleSendMessage in H.
    destruct (sendBegin now1 d1 st) as [[st1 p]|] eqn:Eb.
    + destruct (sendFinish p reply now2 d2 (commit st1)) as [st2|] eqn:Ef;
        [|discriminate].
      injection H as <-. rewrite commit_conversation_list, commit_documents.
      destruct (sendFinish_text _ _ _ _ _ _ Ef) as (text & -> & _).
      destruct (send_effect now1 d1 now2 d2 text st st1 p V Eb)
        as (cid & _ & _ & -> & _ & _ & -> & _).
      now rewrite ids_with_messages_of, ids_retitle_first.
    + injection H as <-. rewrite commit_conversation_list, commit_documents.
      split; reflexivity.
Qed.

(** What an action does to the ids of the documents. *)
Lemma page_step_document_ids (a : Action) (pg pg' : Page) :
  page_invariant pg -> page_step a pg = Some pg' ->
  List.map KnowledgeDocument.id (knowledgeDocuments (page_state pg'))
  = match a with
    | Click (DeleteDoc docId) =>
        List.filter (fun i => negb (JsString.eqb i docId))
          (List.map KnowledgeDocument.id (knowledgeDocuments (page_state pg)))
    | _ =>
        List.map N_toString (added_now a (page_state pg))
          ++ List.map KnowledgeDocument.id (knowledgeDocuments (page_state pg))
    end.
Proof.
  intros [V F] H. destruct a as [e|now d|reply now d]; cbn [page_step] in H.
  - destruct (enabled e (page_state pg)); [|discriminate].
    destruct (step e (page_state pg)) as [st'|] eqn:E; [|discriminate].
    injection H as <-. cbn [page_state].
    destruct (step_ids e _ _ V E) as [_ ->]. destruct e; reflexivity.
  - cbn [added_now List.map app].
    destruct (sendBegin now d (page_state pg)) as [[st1 p]|] eqn:Eb.
    + injection H as <-. cbn [page_state]. rewrite commit_documents.
      destruct (sendBegin_effect now d _ st1 p V Eb)
        as (cid & _ & _ & _ & _ & _ & _ & _ & _ & _ & ->).
      reflexivity.
    + now injection H as <-.
  - cbn [added_now List.map app].
    destruct (in_flight pg) as [p|]; [|discriminate]. destruct F as [_ Rp].
    destruct (sendFinish p reply now d (page_state pg)) as [st'|] eqn:Ef;
      [|discriminate].
    injection H as <-. cbn [page_state]. rewrite commit_documents.
    destruct (sendFinish_text _ _ _ _ _ _ Ef) as (text & -> & _).
    destruct (appendAssistant_effect p text now d _ Rp) as (_ & _ & _ & _ & -> & _).
    reflexivity.
Qed.

Lemma incl_app_r_stays {A : Type} (l used more : list A) :
  incl l used -> incl l (more ++ used).
Proof. intros H x I. apply in_or_app. right. now apply H. Qed.

(** An action keeps the ids of the conversations pairwise distinct, when
    the conversation it creates, if it creates one, has an id that was not
    used. *)
Lemma ids_within_step (a : Action) (pg pg' : Page) (used : list jsstring) :
  page_invariant pg -> ids_within used pg -> page_step a pg = Some pg' ->
  (forall t, In t (created_at [a]) -> ~ In (N_toString t) used) ->
  ids_within (List.map N_toString (created_at [a]) ++ used) pg'.
Proof.
  intros [V F] (Nd & Inc & P) H Hfresh.
  destruct a as [e|now d|reply now d]; cbn [page_step] in H.
  - destruct (enabled e (page_state pg)); [|discriminate].
    destruct (step e (page_state pg)) as [st'|] eqn:E; [|discriminate].
    injection H as <-. cbn [page_state in_flight].
    destruct (step_ids e _ _ V E) as [Ids _].
    destruct (step_keeps e _ _ V E) as (_ & _ & X).
    unfold ids_within. cbn [page_state in_flight]. rewrite Ids.
    split; [|split].
    + destruct e as [t d1 d2| | | | | |]; cbn [created_at List.map app];
        try exact Nd.
      constructor; [|exact Nd]. intros I. apply (Hfresh t); [now left|].
      now apply Inc.
    + intros i I. apply in_app_or in I as [I|I]; apply in_or_app;
        [now left|right; now apply Inc].
    + destruct (in_flight pg) as [p|]; [|exact Logic.I].
      destruct F as [Lt Rp]. destruct P as [Np Ip].
      destruct (X Lt) as [ext Eh]. unfold pending_list in *.
      rewrite Eh, (map_deref_app _ ext _ (proj2 Rp)).
      split; [exact Np|now apply incl_app_r_stays].
  - cbn [created_at List.map app].
    destruct (sendBegin now d (page_state pg)) as [[st1 p]|] eqn:Eb.
    + injection H as <-.
      destruct (sendBegin_effect now d _ st1 p V Eb)
        as (cid & _ & _ & _ & Ep & _ & C1 & L1 & _).
      unfold ids_within, pending_list. cbn [page_state in_flight].
      rewrite commit_conversation_list.
      destruct (commit_keeps st1) as (-> & _ & _).
      subst p. cbn [p_conversations]. rewrite <- C1.
      change (List.map (deref (heap st1)) (conversations st1))
        with (conversation_list st1).
      rewrite L1, ids_retitle_first. repeat split; assumption.
    + injection H as <-. repeat split; assumption.
  - cbn [created_at List.map app].
    destruct (in_flight pg) as [p|]; [|discriminate]. destruct F as [_ Rp].
    destruct P as [Np Ip].
    destruct (sendFinish p reply now d (page_state pg)) as [st'|] eqn:Ef;
      [|discriminate].
    injection H as <-.
    destruct (sendFinish_text _ _ _ _ _ _ Ef) as (text & -> & _).
    destruct (appendAssistant_effect p text now d _ Rp) as (_ & L & _).
    unfold ids_within. cbn [page_state in_flight].
    rewrite commit_conversation_list, L, ids_with_messages_of.
    repeat split; assumption.
Qed.

Lemma page_run_conversation_ids (acts : list Action) :
  forall pg pg' used,
    page_invariant pg -> ids_within used pg -> page_run acts pg = Some pg' ->
    NoDup (created_at acts) ->
    (forall t, In t (created_at acts) -> ~ In (N_toString t) used) ->
    NoDup (List.map Conversation.id (conversation_list (page_state pg'))).
Proof.
  induction acts as [|a acts IH]; intros pg pg' used I W H Hc Hu; cbn [page_run] in H.
  - injection H as <-. apply W.
  - destruct (page_step a pg) as [pg1|] eqn:E; [|discriminate].
    rewrite created_at_cons in Hc, Hu.
    apply (IH pg1 pg' (List.map N_toString (created_at [a]) ++ used)).
    + eapply page_step_invariant; eassumption.
    + apply (ids_within_step a pg pg1 used I W E).
      intros t It. apply Hu, in_or_app. now left.
    + exact H.
    + eapply NoDup_app_remove_l, Hc.
    + intros t It I'. apply in_app_or in I' as [I'|I'].
      * apply in_map_iff in I' as (t' & Et & It'). apply N_toString_inj in Et.
        subst t'.
        destruct a as [[n d1 d2| | | | | |]| |]; cbn [created_at] in It'; try easy.
        destruct It' as [<-|[]]. cbn [created_at app] in Hc.
        inversion Hc as [|? ? Hn _]. now apply Hn.
      * apply (Hu t); [apply in_or_app; now right|exact I'].
Qed.

Lemma page_run_document_ids (acts : list Action) :
  forall pg pg' used,
    page_invariant pg -> page_run acts pg = Some pg' ->
    NoDup (List.map KnowledgeDocument.id (knowledgeDocuments (page_state pg))) ->
    incl (List.map KnowledgeDocument.id (knowledgeDocuments (page_state pg))) used ->
    NoDup (added_at acts pg) ->
    (forall t, In t (added_at acts pg) -> ~ In (N_toString t) used) ->
    NoDup (List.map KnowledgeDocument.id (knowledgeDocuments (page_state pg'))).
Proof.
  induction acts as [|a acts IH]; intros pg pg' used I H Nd Inc Hc Hu;
    cbn [page_run] in H.
  - now injection H as <-.
  - destruct (page_step a pg) as [pg1|] eqn:E; [|discriminate].
    cbn [added_at] in Hc, Hu. rewrite E in Hc, Hu.
    pose proof (page_step_document_ids a pg pg1 I E) as Ids.
    pose proof (page_step_invariant _ _ _ I E) as I1.
    assert (Fresh : forall t, In t (added_now a (page_state pg)) ->
                      ~ In (N_toString t) used).
    { intros t It. apply Hu, in_or_app. now left. }
    assert (Hc' : NoDup (added_at acts pg1)) by (eapply NoDup_app_remove_l, Hc).
    assert (Step : forall docs,
               List.map KnowledgeDocument.id (knowledgeDocuments (page_state pg1))
               = List.map N_toString (added_now a (page_state pg)) ++ docs ->
               docs = List.map KnowledgeDocument.id
                        (knowledgeDocuments (page_state pg)) ->
               NoDup (List.map KnowledgeDocument.id
                        (knowledgeDocuments (page_state pg')))).
    { intros docs Ed ->.
      apply (IH pg1 pg'
               (List.map N_toString (added_now a (page_state pg)) ++ used) I1 H);
        try exact Hc'.
      - rewrite Ed.
        assert (Hone : added_now a (page_state pg) = []
                       \/ exists t, added_now a (page_state pg) = [t]).
        { destruct a as [[| | | |t d| |]| |]; cbn [added_now]; try (now left).
          destruct (blank_text (uploadName (page_state pg))
                    || blank_text (uploadContent (page_state pg)));
            [now left|right; now exists t]. }
        destruct Hone as [->|[t Et]]; [exact Nd|]. rewrite Et.
        cbn [List.map app]. constructor; [|exact Nd].
        intros It. apply (Fresh t); [rewrite Et; now left|now apply Inc].
      - rewrite Ed. intros i Ii. apply in_app_or in Ii as [Ii|Ii]; apply in_or_app;
          [now left|right; now apply Inc].
      - intros t It I'. apply in_app_or in I' as [I'|I'].
        + apply in_map_iff in I' as (t' & Et & It'). apply N_toString_inj in Et.
          subst t'.
          assert (Ho : added_now a (page_state pg) = [t]).
          { destruct a as [[| | | |t0 d| |]| |]; cbn [added_now] in *; try easy.
            destruct (blank_text (uploadName (page_state pg))
                      || blank_text (uploadContent (page_state pg)));
              [easy|]. destruct It' as [<-|[]]. reflexivity. }
          rewrite Ho in Hc. cbn [app] in Hc. inversion Hc as [|? ? Hn _].
          now apply Hn.
        + apply (Hu t); [apply in_or_app; now right|exact I']. }
    destruct a as [[now d1 d2|convId|text|n c|now d|docId|now1 d1 reply now2 d2]| |];
      try (apply (Step _ Ids eq_refl)).
    cbn [added_now app] in *.
    apply (IH pg1 pg' used I1 H); try assumption; rewrite Ids.
    + now apply NoDup_filter.
    + intros i Ii. apply filter_In in Ii as [Ii _]. now apply Inc.
Qed.

(** C9, as the code has it.  From any state of the page with no request
    in flight, after any sequence of actions: the ids of the conversations
    are pairwise distinct when they were, no two conversations were
    created at the same clock reading and none at a reading whose numeral
    was an id already; the ids of the documents are pairwise distinct
    when they were, no two documents were added at the same clock reading
    and none at a reading whose numeral was an id already.  A submission
    that is rejected adds no document and its clock reading does not
    count. *)
Theorem ids_distinct_for_distinct_clock (acts : list Action) (pg pg' : Page) :
  page_reachable pg ->
  in_flight pg = None ->
  page_run acts pg = Some pg' ->
  (NoDup (List.map Conversation.id (conversation_list (page_state pg))) ->
   NoDup (created_at acts) ->
   (forall t, In t (created_at acts) ->
      ~ In (N_toString t)
          (List.map Conversation.id (conversation_list (page_state pg)))) ->
   NoDup (List.map Conversation.id (conversation_list (page_state pg'))))
  /\ (NoDup (List.map KnowledgeDocument.id (knowledgeDocuments (page_state pg))) ->
      NoDup (added_at acts pg) ->
      (forall t, In t (added_at acts pg) ->
         ~ In (N_toString t)
             (List.map KnowledgeDocument.id (knowledgeDocuments (page_state pg)))) ->
      NoDup (List.map KnowledgeDocument.id (knowledgeDocuments (page_state pg')))).
Proof.
  intros R Fl H. pose proof (page_reachable_invariant pg R) as I. split.
  - intros Nd Hc Hu.
    apply (page_run_conversation_ids acts pg pg' _ I) with (3 := Hc) (4 := Hu);
      [|exact H].
    split; [exact Nd|]. split; [apply incl_refl|]. now rewrite Fl.
  - intros Nd Hc Hu.
    apply (page_run_document_ids acts pg pg' _ I H Nd (incl_refl _) Hc Hu).
Qed.

Lemma busy_session_state :
  page_run busy_session initialPage = Some (page_after busy_session)
  /\ created_at busy_session = [1700; 1704; 1706]
  /\ added_at busy_session initialPage = [1703; 1708]
  /\ List.length (conversation_list (page_state (page_after busy_session))) = 2%nat
  /\ List.length (knowledgeDocuments (page_state (page_after busy_session))) = 2%nat.
Proof. vm_compute. repeat split. Qed.

Lemma distinct_readings :
  NoDup [1700; 1704; 1706] /\ NoDup [1703; 1708].
Proof.
  split; repeat constructor; cbn [In]; intros H;
    repeat (destruct H as [H|H]; [discriminate H|]); exact H.
Qed.

Lemma ids_distinct_witness :
  NoDup (List.map Conversation.id
           (conversation_list (page_state (page_after busy_session))))
  /\ NoDup (List.map KnowledgeDocument.id
              (knowledgeDocuments (page_state (page_after busy_session))))
  /\ List.length (conversation_list (page_state (page_after busy_session))) = 2%nat
  /\ List.length (knowledgeDocuments (page_state (page_after busy_session))) = 2%nat.
Proof.
  destruct busy_session_state as (Hr & Hc & Ha & L1 & L2).
  destruct distinct_readings as [N1 N2].
  destruct (ids_distinct_for_distinct_clock busy_session initialPage
              (page_after busy_session) initialPage_reachable eq_refl Hr)
    as [C D].
  split; [|split; [|split; [exact L1|exact L2]]].
  - apply C; [constructor|rewrite Hc; exact N1|intros t _ []].
  - apply D; [constructor|rewrite Ha; exact N2|intros t _ []].
Defined.

End IdentifiersOnThePage.

(** ** The texts of a turn: the reply, the request, the documents *)

Section TextsOfATurn.

Lemma first_non_empty_truthy (candidates : list jsval) (fallback : jsval) :
  truthy fallback = true -> truthy (first_non_empty candidates fallback) = true.
Proof.
  intros H. induction candidates as [|c cs IH]; [exact H|].
  cbn [first_non_empty]. destruct (truthy c) eqn:E; [exact E|exact IH].
Qed.

Lemma assistant_content_body (data : json) :
  data <> JNull ->
  assistant_content (Body data)
  = if truthy (member data (js "success")) && truthy (member data (js "response"))
    then first_non_empty
           [opt_member (member data (js "response")) (js "result");
            opt_member (member data (js "response")) (js "response");
            opt_member (member data (js "response")) (js "text");
            raw_string (member data (js "response"));
            member data (js "raw_response")]
           (Some (JStr no_response_text))
    else if truthy (member data (js "raw_response"))
         then member data (js "raw_response")
         else Some (JStr processing_error_text).
Proof.
  intros Hn. cbn [assistant_content].
  destruct (truthy (member data (js "success")) && truthy (member data (js "response")))
    eqn:E.
  - apply andb_true_iff in E as [Es Er]. now rewrite (extract_chain data Hn Es Er).
  - now rewrite (extract_otherwise data Hn E).
Qed.

Lemma assistant_content_truthy (reply : Reply) :
  truthy (assistant_content reply) = true.
Proof.
  destruct reply as [|data]; [reflexivity|].
  destruct data as [|b|z|s|l|ms];
    try (rewrite assistant_content_body by discriminate;
         destruct (truthy _ && truthy _);
         [now apply first_non_empty_truthy|];
         destruct (truthy (member _ (js "raw_response"))) eqn:E;
         [exact E|reflexivity]).
  reflexivity.
Qed.

Lemma sendFinish_content (p : Pending) (reply : Reply) (now : N) (d : Date)
    (st : State) :
  match assistant_content reply with
  | Some (JStr text) => sendFinish p reply now d st = Some (appendAssistant p text now d st)
  | _ => sendFinish p reply now d st = None
  end.
Proof.
  unfold sendFinish, assistant_content. destruct reply as [|data]; [reflexivity|].
  destruct (extractAssistantContent data) as [[[| | | | |]|]|]; reflexivity.
Qed.

(** C2, as the code has it.  For a body whose success flag and response
    field are both set (not empty), the content of the assistant message
    is the first non-empty candidate of: the result field of the response,
    its response field, its text field, the response itself when it is a
    string, the top-level raw-response field; and the literal "No response
    generated" when all are empty.  For any other body the content is the
    raw-response field when that is not empty, and a second fixed text
    otherwise.  When the call throws, the content is the fixed apology.
    The content is never empty, and a content that is a string is the text
    of the message shown. *)
Theorem response_extraction :
  (forall data,
      data <> JNull ->
      truthy (member data (js "success")) = true ->
      truthy (member data (js "response")) = true ->
      assistant_content (Body data)
      = first_non_empty
          [opt_member (member data (js "response")) (js "result");
           opt_member (member data (js "response")) (js "response");
           opt_member (member data (js "response")) (js "text");
           raw_string (member data (js "response"));
           member data (js "raw_response")]
          (Some (JStr (js "No response generated"))))
  /\ (forall data,
         data <> JNull ->
         truthy (member data (js "success")) && truthy (member data (js "response"))
         = false ->
         assistant_content (Body data)
         = if truthy (member data (js "raw_response"))
           then member data (js "raw_response")
           else Some (JStr (js "I encountered an error processing your request. Please try again.")))
  /\ (forall reply,
         call_throws reply = true ->
         assistant_content reply
         = Some (JStr (js "Sorry, I encountered an error. Please try again.")))
  /\ (forall reply, truthy (assistant_content reply) = true)
  /\ (forall p reply now d st text,
         assistant_content reply = Some (JStr text) ->
         exists st', sendFinish p reply now d st = Some st'
                     /\ displayed_reply st' = Some text)
  /\ (forall p reply now d st st',
         sendFinish p reply now d st = Some st' ->
         exists text, assistant_content reply = Some (JStr text)
                      /\ displayed_reply st' = Some text).
Proof.
  split; [|split; [|split; [|split; [|split]]]].
  - intros data Hn Hs Hr. rewrite assistant_content_body by exact Hn.
    now rewrite Hs, Hr.
  - intros data Hn E. rewrite assistant_content_body by exact Hn. now rewrite E.
  - intros [|data] T; [reflexivity|]. cbn [call_throws assistant_content] in *.
    destruct (extractAssistantContent data); [discriminate|reflexivity].
  - apply assistant_content_truthy.
  - intros p reply now d st text E.
    pose proof (sendFinish_content p reply now d st) as F. rewrite E in F.
    eexists. split; [exact F|]. apply appendAssistant_displayed.
  - intros p reply now d st st' E.
    pose proof (sendFinish_content p reply now d st) as F.
    destruct (assistant_content reply) as [[| | |text| |]|]; try congruence.
    exists text. split; [reflexivity|].
    assert (st' = appendAssistant p text now d st) by congruence. subst st'.
    apply appendAssistant_displayed.
Qed.

Lemma response_extraction_witness :
  assistant_content (Body fine_body) = Some (JStr (js "fine"))
  /\ assistant_content
       (Body (JObj [(js "success", JBool true);
                    (js "response", JObj [(js "result", JNum 42)])]))
     = Some (JNum 42)
  /\ assistant_content
       (Body (JObj [(js "raw_response", JStr (js "raw"))]))
     = Some (JStr (js "raw"))
  /\ assistant_content (Body JNull)
     = Some (JStr (js "Sorry, I encountered an error. Please try again.")).
Proof.
  destruct response_extraction as (Chain & Other & Throws & _).
  split; [|split; [|split]].
  - rewrite (Chain fine_body); [reflexivity|discriminate|reflexivity|reflexivity].
  - rewrite Chain; [reflexivity|discriminate|reflexivity|reflexivity].
  - rewrite Other; [reflexivity|discriminate|reflexivity].
  - apply Throws. reflexivity.
Defined.

(** C2, as stated, fails: with the success flag set and the response field
    present and empty, the call does not throw, the chain as specified
    ends in "No response generated", and the text shown is another one. *)
Lemma present_response_outside_chain :
  member empty_response_body (js "success") = Some (JBool true)
  /\ member empty_response_body (js "response") = Some (JStr [])
  /\ call_throws (Body empty_response_body) = false
  /\ first_non_empty
       [opt_member (member empty_response_body (js "response")) (js "result");
        opt_member (member empty_response_body (js "response")) (js "response");
        opt_member (member empty_response_body (js "response")) (js "text");
        raw_string (member empty_response_body (js "response"));
        member empty_response_body (js "raw_response")]
       (Some (JStr (js "No response generated")))
     = Some (JStr (js "No response generated"))
  /\ exists pg',
       page_run [Submit 1701 sample_date;
                 Settle (Body empty_response_body) 1702 sample_date]
         (page_after chat_typed) = Some pg'
       /\ page_reachable pg'
       /\ displayed_reply (page_state pg')
          = Some (js "I encountered an error processing your request. Please try again.").
Proof.
  split; [reflexivity|]. split; [reflexivity|]. split; [reflexivity|].
  split; [reflexivity|].
  destruct (page_run [Submit 1701 sample_date;
                      Settle (Body empty_response_body) 1702 sample_date]
              (page_after chat_typed)) as [pg'|] eqn:E;
    [|vm_compute in E; discriminate E].
  exists pg'. split; [reflexivity|]. split.
  - eapply page_run_reachable; [apply page_after_reachable|exact E].
  - vm_compute in E. injection E as <-. reflexivity.
Qed.

(** C4. When a send goes out, the message field of the request is the raw
    input text, followed, when documents are stored, by the fixed header
    and then the documents in their order, each as "Document: ", its name,
    a line break and its full content, every document after the first
    preceded by the delimiter line "---", so that the name and the content
    of every stored document occur in it; with no document it is the raw
    input alone.  The user identifier is "user-chat-" followed by the
    conversation id, the session identifier "session-" followed by it. *)
Theorem request_assembly (now : N) (d : Date) (st st' : State) (p : Pending) :
  sendBegin now d st = Some (st', p) ->
  exists conversationId,
    currentConversationId st = Some conversationId
    /\ (knowledgeDocuments st = [] -> message (p_request p) = input st)
    /\ (forall first rest,
           knowledgeDocuments st = first :: rest ->
           message (p_request p)
           = input st ++ [10; 10] ++ js "Relevant Knowledge Base:" ++ [10]
               ++ (js "Document: " ++ KnowledgeDocument.name first ++ [10]
                     ++ KnowledgeDocument.content first)
               ++ flat_map
                    (fun doc =>
                       ([10] ++ js "---" ++ [10])
                         ++ js "Document: " ++ KnowledgeDocument.name doc ++ [10]
                         ++ KnowledgeDocument.content doc)
                    rest)
    /\ (forall doc, In doc (knowledgeDocuments st) ->
          occurs_in (js "Document: " ++ KnowledgeDocument.name doc ++ [10]
                       ++ KnowledgeDocument.content doc)
            (message (p_request p))
          /\ occurs_in (KnowledgeDocument.name doc) (message (p_request p))
          /\ occurs_in (KnowledgeDocument.content doc) (message (p_request p)))
    /\ user_id (p_request p) = js "user-chat-" ++ conversationId
    /\ session_id (p_request p) = js "session-" ++ conversationId.
Proof.
  intros H. destruct (sendBegin_request now d st st' p H) as (cid & Hc & _ & R).
  exists cid. rewrite R. cbn [buildRequest message user_id session_id].
  split; [exact Hc|]. split; [|split; [|split; [|split; reflexivity]]].
  - intros ->. cbn. apply app_nil_r.
  - intros first rest ->. unfold knowledgeContext. cbn [List.length Nat.ltb Nat.leb].
    cbn [List.map]. rewrite join_cons.
    unfold knowledge_header, document_separator, document_entry.
    rewrite flat_map_concat_map, map_map, <- flat_map_concat_map.
    rewrite <- !app_assoc. reflexivity.
  - intros doc Hd. destruct (document_in_context doc _ Hd) as [Hn Hcont].
    split; [|split; apply occurs_in_app_r; assumption].
    apply occurs_in_app_r. unfold knowledgeContext.
    destruct (knowledgeDocuments st) as [|first rest]; [destruct Hd|].
    cbn [List.length Nat.ltb Nat.leb]. apply occurs_in_app_r.
    apply (occurs_in_join document_separator (document_entry doc)).
    now apply in_map.
Qed.

Lemma two_documents_state :
  knowledgeDocuments (state_after two_documents_events)
  = [menu_document; sample_document]
  /\ input (state_after two_documents_events) = js "hello there"
  /\ currentConversationId (state_after two_documents_events) = Some (js "1700")
  /\ exists st' p,
       sendBegin 1701 sample_date (state_after two_documents_events) = Some (st', p).
Proof.
  split; [vm_compute; reflexivity|]. split; [vm_compute; reflexivity|].
  split; [vm_compute; reflexivity|]. vm_compute. eexists _, _. reflexivity.
Qed.

Lemma request_assembly_witness :
  exists st' p,
    sendBegin 1701 sample_date (state_after two_documents_events) = Some (st', p)
    /\ message (p_request p)
       = js "hello there" ++ [10; 10] ++ js "Relevant Knowledge Base:" ++ [10]
           ++ js "Document: menu.txt" ++ [10] ++ js "soup"
           ++ [10] ++ js "---" ++ [10]
           ++ js "Document: notes.txt" ++ [10] ++ js "hello world"
    /\ user_id (p_request p) = js "user-chat-1700"
    /\ session_id (p_request p) = js "session-1700".
Proof.
  destruct two_documents_state as (Hd & Hin & Hc & st' & p & E).
  destruct (request_assembly 1701 sample_date _ st' p E)
    as (cid & Ec & _ & M & _ & U & S).
  exists st', p. split; [exact E|].
  assert (cid = js "1700") by congruence. subst cid.
  rewrite (M _ _ Hd), Hin, U, S. repeat split.
Defined.

Lemma utf8_encode_length (s : jsstring) :
  Forall (fun c => c < 65536) s ->
  N.of_nat (List.length (utf8_encode s)) = utf8_length s.
Proof. apply (utf8_encode_length_bounded _ _ (le_n _)). Qed.

(** C5. A call of [addDocument] whose name or content is empty or white
    space only leaves the document collection as it is.  A call with a
    non-empty trimmed name and content puts one new document in front of
    the collection, whose size is the byte length of the content: the
    number of bytes of its UTF-8 encoding.  After any sequence of calls
    the collection is the documents of the valid calls, most recent first,
    in front of the documents held before, so that its length has grown by
    the number of valid calls. *)
Theorem addDocument_sequence :
  (forall name content now d st,
      knowledgeDocuments (addDocument name content now d st)
      = if negb (blank_text name) && negb (blank_text content)
        then KnowledgeDocument.mk (N_toString now) name content (toISOString d)
               (utf8_length content) :: knowledgeDocuments st
        else knowledgeDocuments st)
  /\ (forall name content now d st,
         blank_text name = false -> blank_text content = false ->
         Forall (fun c => c < 65536) content ->
         exists doc,
           knowledgeDocuments (addDocument name content now d st)
           = doc :: knowledgeDocuments st
           /\ KnowledgeDocument.content doc = content
           /\ KnowledgeDocument.size doc
              = N.of_nat (List.length (utf8_encode content)))
  /\ (forall calls st,
         knowledgeDocuments (addDocuments calls st)
         = rev (List.map document_of_call (List.filter valid_call calls))
             ++ knowledgeDocuments st)
  /\ (forall calls st,
         List.length (knowledgeDocuments (addDocuments calls st))
         = (List.length (List.filter valid_call calls)
            + List.length (knowledgeDocuments st))%nat).
Proof.
  split; [|split; [|split]].
  - intros name content now d st. apply addDocument_documents.
  - intros name content now d st Hn Hc Hb. rewrite addDocument_documents.
    unfold valid_call. cbn [call_name call_content]. rewrite Hn, Hc. cbn [negb andb].
    eexists. split; [reflexivity|]. split; [reflexivity|].
    cbn [document_of_call KnowledgeDocument.size call_content].
    symmetry. now apply utf8_encode_length.
  - apply addDocuments_documents.
  - intros calls st. rewrite addDocuments_documents, length_app, length_rev, length_map.
    reflexivity.
Qed.

Lemma addDocument_sequence_witness :
  List.map (fun doc => (KnowledgeDocument.name doc, KnowledgeDocument.size doc))
    (knowledgeDocuments (addDocuments sample_calls (initialState [])))
  = [(js "menu.txt", 15); (js "notes.txt", 11)]
  /\ exists doc,
       knowledgeDocuments
         (addDocument (js "menu.txt")
            [99; 97; 102; 233; 32; 8364; 53; 32; 55357; 56832] 1705 sample_date
            (initialState []))
       = [doc]
       /\ KnowledgeDocument.size doc = 15.
Proof.
  destruct addDocument_sequence as (_ & Size & Seq & _). split.
  - rewrite Seq. reflexivity.
  - destruct (Size (js "menu.txt")
                [99; 97; 102; 233; 32; 8364; 53; 32; 55357; 56832] 1705 sample_date
                (initialState []) eq_refl eq_refl)
      as (doc & E & _ & S).
    { repeat constructor. }
    exists doc. split; [exact E|]. rewrite S. reflexivity.
Defined.

End TextsOfATurn.
